(** * Garden planner: the plant-placement engine

    A shallow embedding of [PlantPlacer] (the placement engine, in its two
    revisions found in the repository), of the methods of the application
    class [GardenPlanner] that keep the plant groups of a bed in their
    regions, and of the view and the hit tests of the canvas class
    [GardenCanvas], followed by the properties of the specification and by
    further properties of the engine, the application and the canvas.

    Numbers.  A JavaScript number is modelled as an exact real number
    extended with the three special values [+Infinity], [-Infinity] and [NaN]:
    the arithmetic below follows IEEE-754 on these values, but rounding,
    overflow and the sign of zero are not modelled (a zero is [+0]).  Where
    the real numbers meet a bound on a distance, a padding or a round trip
    with equality, the property is stated with slack, so that it does not
    rest on the arithmetic being exact.  *)

From Stdlib Require Import Reals Lra Lia ZArith List Bool String Permutation Sorted.
Import ListNotations.
Open Scope R_scope.

(** ** JavaScript numbers *)

Inductive num : Type :=
| Fin (r : R)
| PInf
| NInf
| NaN.

Coercion Fin : R >-> num.

Declare Scope num_scope.
Delimit Scope num_scope with num.
Bind Scope num_scope with num.

Definition Rltb (a b : R) : bool := if Rlt_dec a b then true else false.
Definition Rleb (a b : R) : bool := if Rle_dec a b then true else false.
Definition Reqb (a b : R) : bool := if Req_dec_T a b then true else false.

(** [Math.floor] on a real, as an integer; and the least integer above. *)
Definition floorZ (r : R) : Z := Int_part r.
Definition ceilZ (r : R) : Z := (- Int_part (- r))%Z.

Definition nneg (a : num) : num :=
  match a with
  | Fin r => Fin (- r)
  | PInf => NInf
  | NInf => PInf
  | NaN => NaN
  end.

Definition nadd (a b : num) : num :=
  match a, b with
  | Fin r, Fin s => Fin (r + s)
  | NaN, _ | _, NaN => NaN
  | PInf, NInf | NInf, PInf => NaN
  | PInf, _ | _, PInf => PInf
  | NInf, _ | _, NInf => NInf
  end.

Definition nsub (a b : num) : num := nadd a (nneg b).

(** An infinity of sign [pos] scaled by the sign of the finite [r]. *)
Definition inf_scaled (pos : bool) (r : R) : num :=
  if Reqb r 0 then NaN
  else if Bool.eqb pos (Rltb 0 r) then PInf else NInf.

Definition nmul (a b : num) : num :=
  match a, b with
  | Fin r, Fin s => Fin (r * s)
  | NaN, _ | _, NaN => NaN
  | PInf, Fin s | Fin s, PInf => inf_scaled true s
  | NInf, Fin s | Fin s, NInf => inf_scaled false s
  | PInf, PInf | NInf, NInf => PInf
  | PInf, NInf | NInf, PInf => NInf
  end.

Definition ndiv (a b : num) : num :=
  match a, b with
  | Fin r, Fin s =>
      if Reqb s 0 then
        (if Rltb 0 r then PInf else if Rltb r 0 then NInf else NaN)
      else Fin (r / s)
  | NaN, _ | _, NaN => NaN
  | Fin _, (PInf | NInf) => Fin 0
  | PInf, Fin s => if Rltb s 0 then NInf else PInf
  | NInf, Fin s => if Rltb s 0 then PInf else NInf
  | (PInf | NInf), (PInf | NInf) => NaN
  end.

Notation "a + b" := (nadd a b) : num_scope.
Notation "a - b" := (nsub a b) : num_scope.
Notation "a * b" := (nmul a b) : num_scope.
Notation "a / b" := (ndiv a b) : num_scope.
Notation "- a" := (nneg a) : num_scope.

(** Comparisons: every comparison with [NaN] is false. *)
Definition nlt (a b : num) : bool :=
  match a, b with
  | Fin r, Fin s => Rltb r s
  | NaN, _ | _, NaN => false
  | _, NInf => false
  | PInf, _ => false
  | NInf, _ => true
  | Fin _, PInf => true
  end.

Definition nle (a b : num) : bool :=
  match a, b with
  | Fin r, Fin s => Rleb r s
  | NaN, _ | _, NaN => false
  | NInf, _ => true
  | _, PInf => true
  | _, NInf => false
  | PInf, _ => false
  end.

Definition ngt (a b : num) : bool := nlt b a.
Definition nge (a b : num) : bool := nle b a.

Notation "a <? b" := (nlt a b) : num_scope.
Notation "a <=? b" := (nle a b) : num_scope.
Notation "a >? b" := (ngt a b) : num_scope.
Notation "a >=? b" := (nge a b) : num_scope.

Definition Math_floor (a : num) : num :=
  match a with
  | Fin r => Fin (IZR (floorZ r))
  | other => other
  end.

Definition Math_sqrt (a : num) : num :=
  match a with
  | Fin r => if Rltb r 0 then NaN else Fin (sqrt r)
  | PInf => PInf
  | NInf | NaN => NaN
  end.

Definition Math_abs (a : num) : num :=
  match a with
  | Fin r => Fin (Rabs r)
  | PInf | NInf => PInf
  | NaN => NaN
  end.

Definition Math_cos (a : num) : num :=
  match a with Fin r => Fin (cos r) | _ => NaN end.

Definition Math_sin (a : num) : num :=
  match a with Fin r => Fin (sin r) | _ => NaN end.

Definition Math_PI : num := Fin PI.

Definition Math_min (a b : num) : num :=
  match a, b with
  | NaN, _ | _, NaN => NaN
  | _, _ => if nle a b then a else b
  end.

Definition Math_max (a b : num) : num :=
  match a, b with
  | NaN, _ | _, NaN => NaN
  | _, _ => if nle a b then b else a
  end.

(** [Math.pow(a, 2)]. *)
Definition Math_pow2 (a : num) : num := (a * a)%num.

(** An integer loop counter or an array length, as a number. *)
Definition ofZ (i : Z) : num := Fin (IZR i).
Coercion ofZ : Z >-> num.

Definition length_of {A : Type} (l : list A) : num := ofZ (Z.of_nat (List.length l)).

(** ** Runs that may not return

    A loop [for (i = 0; i < n; i++)] whose bound is [+Infinity] never
    terminates ([Diverges]); a method call on [undefined] raises a
    [TypeError] ([Throws]). *)

Inductive outcome (A : Type) : Type :=
| Returns (a : A)
| Diverges
| Throws.
Arguments Returns {A} a.
Arguments Diverges {A}.
Arguments Throws {A}.

Definition bind {A B : Type} (m : outcome A) (k : A -> outcome B) : outcome B :=
  match m with
  | Returns a => k a
  | Diverges => Diverges
  | Throws => Throws
  end.

Notation "x <- m ;; k" := (bind m (fun x => k))
  (at level 61, m at next level, right associativity).

(** [for (let i = 0; i < bound; i++) body]: the iterations run in order and
    each contributes the elements it pushes on the array being built. *)
Fixpoint iterate {A : Type} (body : Z -> outcome (list A)) (i : Z) (n : nat)
  : outcome (list A) :=
  match n with
  | O => Returns []
  | S k =>
      pushed <- body i ;;
      rest <- iterate body (i + 1)%Z k ;;
      Returns (pushed ++ rest)
  end.

Definition for_lt {A : Type} (bound : num) (body : Z -> outcome (list A))
  : outcome (list A) :=
  match bound with
  | Fin r => iterate body 0%Z (Z.to_nat (ceilZ r))
  | PInf => Diverges
  | NInf | NaN => Returns []
  end.

Definition push {A : Type} (a : A) : outcome (list A) := Returns [a].

(** [ToIntegerOrInfinity] on a finite number: truncation towards zero. *)
Definition truncZ (r : R) : Z := if Rleb 0 r then floorZ r else ceilZ r.

(** [array.slice(0, e)]: a negative end counts from the end of the array. *)
Definition slice0 {A : Type} (l : list A) (e : num) : list A :=
  match e with
  | Fin r =>
      let k := truncZ r in
      if (k <? 0)%Z then firstn (Z.to_nat (Z.of_nat (List.length l) + k)) l
      else firstn (Z.to_nat k) l
  | PInf => l
  | NInf | NaN => []
  end.

(** ** Data model *)

Record Point : Type := mkPoint { pos_x : num; pos_y : num }.

(** A plant group of a bed (also a "layer"): [positions] may be absent. *)
Record PlantGroup : Type := mkGroup {
  g_spacing : num;
  g_positions : option (list Point)
}.

(** An entry of [existingPositions]: [{x, y, spacing}]. *)
Record Placed : Type := mkPlaced { ex_x : num; ex_y : num; ex_spacing : num }.

Record Bounds : Type := mkBounds { b_start : num; b_end : num }.

Definition is_hexagonal (pattern : string) : bool := String.eqb pattern "hexagonal".
Definition is_method (method name : string) : bool := String.eqb method name.

(** ** The placement engine (class [PlantPlacer], current revision) *)

Module PlantPlacer.
Local Open Scope num_scope.

(** Grid pattern placement (rows and columns), filled from the top-left. *)
Definition gridPattern (width height spacing : num) : outcome (list Point) :=
  let cols := Math_floor (width / spacing) in
  let rows := Math_floor (height / spacing) in
  let startX := - width / 2 + spacing / 2 in
  let startY := - height / 2 + spacing / 2 in
  for_lt rows (fun row =>
    for_lt cols (fun col =>
      push {| pos_x := startX + col * spacing;
              pos_y := startY + row * spacing |})).

(** Hexagonal pattern placement. *)
Definition hexagonalPattern (width height spacing : num) : outcome (list Point) :=
  let verticalSpacing := spacing * Math_sqrt 3 / 2 in
  let rows := Math_floor (height / verticalSpacing) in
  let startY := - height / 2 + spacing / 2 in
  let startX := - width / 2 + spacing / 2 in
  for_lt rows (fun row =>
    let y := startY + row * verticalSpacing in
    let offset := Z.rem row 2 * (spacing / 2) in
    let cols := Math_floor ((width - spacing / 2 - offset) / spacing) in
    for_lt cols (fun col =>
      let x := startX + col * spacing + offset in
      push {| pos_x := x; pos_y := y |})).

Definition placeInRectangle (width height spacing : num) (pattern : string)
  : outcome (list Point) :=
  if is_hexagonal pattern then hexagonalPattern width height spacing
  else gridPattern width height spacing.

(** The callback of the filter of [placeInCircle]. *)
Definition withinCircle (radius spacing : num) (pos : Point) : bool :=
  let distance := Math_sqrt (pos_x pos * pos_x pos + pos_y pos * pos_y pos) in
  distance <=? radius - spacing / 2.

Definition placeInCircle (radius spacing : num) (pattern : string)
  : outcome (list Point) :=
  let diameter := radius * 2 in
  positions <-
    (if is_hexagonal pattern then hexagonalPattern diameter diameter spacing
     else gridPattern diameter diameter spacing) ;;
  Returns (filter (withinCircle radius spacing) positions).

(** The block computing [allPositions] in [placeSpecificCount] and
    [placeByPercentage], [positions] in [calculateBedCapacity], and
    [candidatePositions] for the [count] and [percentage] methods of
    [placeWithAwareness]: the same text at each place. *)
Definition allPositions (width height spacing : num) (pattern : string)
  (isCircle : bool) (radius : num) : outcome (list Point) :=
  if isCircle then placeInCircle radius spacing pattern
  else if is_hexagonal pattern then hexagonalPattern width height spacing
  else gridPattern width height spacing.

Definition placeSpecificCount (width height spacing count : num)
  (pattern : string) (isCircle : bool) (radius : num) : outcome (list Point) :=
  allPositions <- allPositions width height spacing pattern isCircle radius ;;
  Returns (slice0 allPositions (Math_min count (length_of allPositions))).

Definition placeInRows (width height spacing numRows : num) (pattern : string)
  (isCircle : bool) (radius : num) : outcome (list Point) :=
  if isCircle then
    let ringSpacing := radius / numRows in
    for_lt numRows (fun ring =>
      let ringRadius := ringSpacing * (ring + 0.5) in
      let circumference := 2 * Math_PI * ringRadius in
      let plantsInRing := Math_floor (circumference / spacing) in
      for_lt plantsInRing (fun i =>
        let angle := (2 * Math_PI * i) / plantsInRing in
        push {| pos_x := Math_cos angle * ringRadius;
                pos_y := Math_sin angle * ringRadius |}))
  else
    let rowSpacing := height / numRows in
    let cols := Math_floor (width / spacing) in
    let startX := - width / 2 + spacing / 2 in
    let startY := - height / 2 + rowSpacing / 2 in
    for_lt numRows (fun row =>
      let y := startY + row * rowSpacing in
      for_lt cols (fun col =>
        push {| pos_x := startX + col * spacing; pos_y := y |})).

Definition placeByPercentage (width height spacing percentage : num)
  (pattern : string) (isCircle : bool) (radius : num) : outcome (list Point) :=
  allPositions <- allPositions width height spacing pattern isCircle radius ;;
  let count := Math_floor (length_of allPositions * (percentage / 100)) in
  Returns (slice0 allPositions count).

(** [existingPositions]: the points of every group that has positions. *)
Definition collectExisting (groups : list PlantGroup) : list Placed :=
  flat_map (fun group =>
    match g_positions group with
    | Some positions =>
        map (fun pos => mkPlaced (pos_x pos) (pos_y pos) (g_spacing group)) positions
    | None => []
    end) groups.

(** The distance computed in the callbacks of both conflict filters. *)
Definition distanceTo (candidate : Point) (existing : Placed) : num :=
  Math_sqrt (Math_pow2 (pos_x candidate - ex_x existing) +
             Math_pow2 (pos_y candidate - ex_y existing)).

(** The filter callback of [filterAvailablePositions]: the minimum distance
    is the average of the two spacings. *)
Definition available (newPlantSpacing : num) (existingPositions : list Placed)
  (candidate : Point) : bool :=
  forallb (fun existing =>
    let distance := distanceTo candidate existing in
    let minDistance := (newPlantSpacing + ex_spacing existing) / 2 in
    negb (distance <? minDistance)) existingPositions.

(** [candidatePositions] is [None] when the caller left it undefined. *)
Definition filterAvailablePositions (candidatePositions : option (list Point))
  (existingPlantGroups : option (list PlantGroup)) (newPlantSpacing : num)
  : outcome (option (list Point)) :=
  match existingPlantGroups with
  | None | Some [] => Returns candidatePositions
  | Some groups =>
      let existingPositions := collectExisting groups in
      match candidatePositions with
      | None => Throws
      | Some candidates =>
          Returns (Some (filter (available newPlantSpacing existingPositions) candidates))
      end
  end.

Definition calculateBedCapacity (width height spacing : num) (pattern : string)
  (isCircle : bool) (radius : num) : outcome num :=
  positions <- allPositions width height spacing pattern isCircle radius ;;
  Returns (length_of positions).

Definition calculateUsedSpace (existingPlantGroups : option (list PlantGroup)) : num :=
  match existingPlantGroups with
  | None | Some [] => 0%Z
  | Some groups =>
      fold_left (fun sum group =>
        sum + match g_positions group with
              | Some positions => length_of positions
              | None => 0%Z
              end) groups (ofZ 0)
  end.

(** [availablePositions.slice(0, limit)], where the limit reads the length
    of the array; both raise a [TypeError] on [undefined]. *)
Definition sliceOf (availablePositions : option (list Point))
  (limit : list Point -> num) : outcome (option (list Point)) :=
  match availablePositions with
  | Some positions => Returns (Some (slice0 positions (limit positions)))
  | None => Throws
  end.

(** Place plants with awareness of existing plants.  The result is [None]
    when the function returns [undefined] (a method other than the four
    known ones, and nothing to avoid). *)
Definition placeWithAwareness (width height spacing : num) (pattern method : string)
  (value : num) (isCircle : bool) (radius : num)
  (existingPlantGroups : option (list PlantGroup)) : outcome (option (list Point)) :=
  if is_method method "auto" then
    totalCapacity <- calculateBedCapacity width height spacing pattern isCircle radius ;;
    let usedSpace := calculateUsedSpace existingPlantGroups in
    let remainingCapacity := totalCapacity - usedSpace in
    candidatePositions <-
      (if isCircle then placeInCircle radius spacing pattern
       else placeInRectangle width height spacing pattern) ;;
    availablePositions <-
      filterAvailablePositions (Some candidatePositions) existingPlantGroups spacing ;;
    sliceOf availablePositions
      (fun available => Math_min remainingCapacity (length_of available))
  else
    candidatePositions <-
      (if is_method method "count" then
         c <- allPositions width height spacing pattern isCircle radius ;; Returns (Some c)
       else if is_method method "rows" then
         c <- placeInRows width height spacing value pattern isCircle radius ;; Returns (Some c)
       else if is_method method "percentage" then
         c <- allPositions width height spacing pattern isCircle radius ;; Returns (Some c)
       else Returns None) ;;
    availablePositions <-
      filterAvailablePositions candidatePositions existingPlantGroups spacing ;;
    if is_method method "count" then
      sliceOf availablePositions
        (fun available => Math_min value (length_of available))
    else if is_method method "percentage" then
      match candidatePositions with
      | Some candidates =>
          let count := Math_floor (length_of candidates * (value / 100)) in
          sliceOf availablePositions
            (fun available => Math_min count (length_of available))
      | None => Throws
      end
    else Returns availablePositions.

Definition isInRectangle (point : Point) (width height : num) : bool :=
  (Math_abs (pos_x point) <=? width / 2) && (Math_abs (pos_y point) <=? height / 2).

Definition isInCircle (point : Point) (radius : num) : bool :=
  Math_sqrt (pos_x point * pos_x point + pos_y point * pos_y point) <=? radius.

(** [method === 'rows' && value > 0 ? Math.min(value, n) : n]. *)
Definition limitRows (method : string) (value n : num) : num :=
  if is_method method "rows" && (value >? 0) then Math_min value n else n.

(** Grid pattern in a horizontal strip, centred in the strip. *)
Definition generateGridInHorizontalStrip (width stripHeight spacing stripTop stripBottom : num)
  (method : string) (value : num) : outcome (list Point) :=
  let cols := Math_floor (width / spacing) in
  let maxRows := limitRows method value (Math_floor (stripHeight / spacing)) in
  let totalRowHeight := (maxRows - 1) * spacing in
  let totalColWidth := (cols - 1) * spacing in
  let startX := - width / 2 + (width - totalColWidth) / 2 in
  let startY := stripTop + (stripHeight - totalRowHeight) / 2 in
  for_lt maxRows (fun row =>
    let y := startY + row * spacing in
    if (y >=? stripTop) && (y <=? stripBottom) then
      for_lt cols (fun col =>
        push {| pos_x := startX + col * spacing; pos_y := y |})
    else Returns []).

(** Hexagonal pattern in a horizontal strip, centred in the strip. *)
Definition generateHexInHorizontalStrip (width stripHeight spacing stripTop stripBottom : num)
  (method : string) (value : num) : outcome (list Point) :=
  let verticalSpacing := spacing * Math_sqrt 3 / 2 in
  let maxRows := limitRows method value (Math_floor (stripHeight / verticalSpacing)) in
  let totalRowHeight := (maxRows - 1) * verticalSpacing in
  let baseY := stripTop + (stripHeight - totalRowHeight) / 2 in
  for_lt maxRows (fun row =>
    let y := baseY + row * verticalSpacing in
    if (y >=? stripTop) && (y <=? stripBottom) then
      let offset := Z.rem row 2 * (spacing / 2) in
      let availableWidth := width - offset in
      let cols := Math_floor (availableWidth / spacing) in
      let totalColWidth := (cols - 1) * spacing + offset in
      let startX := - width / 2 + (width - totalColWidth) / 2 in
      for_lt cols (fun col =>
        let x := startX + col * spacing + offset in
        push {| pos_x := x; pos_y := y |})
    else Returns []).

(** Grid pattern in a vertical strip, column by column. *)
Definition generateGridInVerticalStrip (stripWidth height spacing stripLeft stripRight : num)
  (method : string) (value : num) : outcome (list Point) :=
  let maxCols := limitRows method value (Math_floor (stripWidth / spacing)) in
  let rows := Math_floor (height / spacing) in
  let totalColWidth := (maxCols - 1) * spacing in
  let totalRowHeight := (rows - 1) * spacing in
  let startX := stripLeft + (stripWidth - totalColWidth) / 2 in
  let startY := - height / 2 + (height - totalRowHeight) / 2 in
  for_lt maxCols (fun col =>
    let x := startX + col * spacing in
    if (x >=? stripLeft) && (x <=? stripRight) then
      for_lt rows (fun row =>
        push {| pos_x := x; pos_y := startY + row * spacing |})
    else Returns []).

(** Hexagonal pattern in a vertical strip. *)
Definition generateHexInVerticalStrip (stripWidth height spacing stripLeft stripRight : num)
  (method : string) (value : num) : outcome (list Point) :=
  let verticalSpacing := spacing * Math_sqrt 3 / 2 in
  let rows := Math_floor (height / verticalSpacing) in
  let totalRowHeight := (rows - 1) * verticalSpacing in
  let baseY := - height / 2 + (height - totalRowHeight) / 2 in
  for_lt rows (fun row =>
    let y := baseY + row * verticalSpacing in
    let offset := Z.rem row 2 * (spacing / 2) in
    let availableWidth := stripWidth - offset in
    let maxCols :=
      let n := Math_floor (availableWidth / spacing) in
      if is_method method "rows" && (value >? 0) && (row =? 0)%Z
      then Math_min value n else n in
    let totalColWidth := (maxCols - 1) * spacing + offset in
    let startX := stripLeft + (stripWidth - totalColWidth) / 2 in
    for_lt maxCols (fun col =>
      let x := startX + col * spacing + offset in
      if (x >=? stripLeft) && (x <=? stripRight) then
        push {| pos_x := x; pos_y := y |}
      else Returns [])).

(** [hexPositions.length > gridPositions.length ? hexPositions : gridPositions]. *)
Definition morePlants (gridPositions hexPositions : list Point) : list Point :=
  if (List.length gridPositions <? List.length hexPositions)%nat
  then hexPositions else gridPositions.

Definition placeInHorizontalRegion (width height spacing : num) (regionBounds : Bounds)
  : outcome (list Point) :=
  let stripHeight := height * (b_end regionBounds - b_start regionBounds) in
  let stripTop := - height / 2 + b_start regionBounds * height in
  let stripBottom := stripTop + stripHeight in
  gridPositions <-
    generateGridInHorizontalStrip width stripHeight spacing stripTop stripBottom "auto" 0 ;;
  hexPositions <-
    generateHexInHorizontalStrip width stripHeight spacing stripTop stripBottom "auto" 0 ;;
  Returns (morePlants gridPositions hexPositions).

Definition placeInVerticalRegion (width height spacing : num) (regionBounds : Bounds)
  : outcome (list Point) :=
  let stripWidth := width * (b_end regionBounds - b_start regionBounds) in
  let stripLeft := - width / 2 + b_start regionBounds * width in
  let stripRight := stripLeft + stripWidth in
  gridPositions <-
    generateGridInVerticalStrip stripWidth height spacing stripLeft stripRight "auto" 0 ;;
  hexPositions <-
    generateHexInVerticalStrip stripWidth height spacing stripLeft stripRight "auto" 0 ;;
  Returns (morePlants gridPositions hexPositions).

(** The loop over the sub-rings of an annulus.  It has the same text in
    [placeInCircularRegion] and [placeInCircularLayerWithBounds], except
    that the latter bounds [plantsInRing] for the [rows] method: [limit]. *)
Definition ringPositions (radius spacing : num) (bounds : Bounds)
  (limit : num -> num) : outcome (list Point) :=
  let innerRadius := radius * b_start bounds in
  let outerRadius := radius * b_end bounds in
  let ringWidth := outerRadius - innerRadius in
  let numSubRings := Math_max 1 (Math_floor (ringWidth / spacing)) in
  for_lt numSubRings (fun subRing =>
    let ringRadius := innerRadius + (ringWidth / (numSubRings + 1)) * (subRing + 1) in
    let circumference := 2 * Math_PI * ringRadius in
    let plantsInRing := limit (Math_max 1 (Math_floor (circumference / spacing))) in
    for_lt plantsInRing (fun i =>
      let angle := (2 * Math_PI * i) / plantsInRing in
      let x := Math_cos angle * ringRadius in
      let y := Math_sin angle * ringRadius in
      push {| pos_x := x; pos_y := y |})).

Definition placeInCircularRegion (radius spacing : num) (regionBounds : Bounds)
  : outcome (list Point) :=
  ringPositions radius spacing regionBounds (fun plantsInRing => plantsInRing).

Definition placeInRegion (width height spacing : num) (isCircle : bool) (radius : num)
  (isHorizontal : bool) (regionBounds : Bounds) : outcome (list Point) :=
  if isCircle then placeInCircularRegion radius spacing regionBounds
  else if isHorizontal then placeInHorizontalRegion width height spacing regionBounds
  else placeInVerticalRegion width height spacing regionBounds.

(** Apply fill method to limit positions. *)
Definition applyFillMethod (positions : list Point) (method : string) (value : num)
  : list Point :=
  if is_method method "auto" then positions
  else if is_method method "count" then
    slice0 positions (Math_min value (length_of positions))
  else if is_method method "percentage" then
    let count := Math_floor (length_of positions * (value / 100)) in
    slice0 positions count
  else if is_method method "rows" then positions
  else positions.

(** [existingPositions] of the layered filter: layers without positions, or
    with an empty array, are skipped. *)
Definition collectLayers (layers : list PlantGroup) : list Placed :=
  flat_map (fun layer =>
    match g_positions layer with
    | Some positions =>
        if length_of positions >? 0 then
          map (fun pos => mkPlaced (pos_x pos) (pos_y pos) (g_spacing layer)) positions
        else []
    | None => []
    end) layers.

(** The filter callback of [filterByInterLayerSpacing]: the minimum distance
    is the maximum of the two spacings. *)
Definition clearOfLayers (newPlantSpacing : num) (existingPositions : list Placed)
  (candidate : Point) : bool :=
  forallb (fun existing =>
    let distance := distanceTo candidate existing in
    let minDistance := Math_max newPlantSpacing (ex_spacing existing) in
    negb (distance <? minDistance)) existingPositions.

Definition filterByInterLayerSpacing (candidatePositions : list Point)
  (newPlantSpacing : num) (previousLayers : option (list PlantGroup)) : list Point :=
  match previousLayers with
  | None | Some [] => candidatePositions
  | Some layers =>
      let existingPositions := collectLayers layers in
      if Nat.eqb (List.length existingPositions) 0 then candidatePositions
      else filter (clearOfLayers newPlantSpacing existingPositions) candidatePositions
  end.

(** The tail shared by the three [...LayerWithBounds] functions: filter
    against the previous layers, then apply the fill method unless it is
    [rows]. *)
Definition finishLayer (positions : list Point) (spacing : num) (method : string)
  (value : num) (previousLayers : option (list PlantGroup)) : list Point :=
  let filteredPositions := filterByInterLayerSpacing positions spacing previousLayers in
  if is_method method "rows" then filteredPositions
  else applyFillMethod filteredPositions method value.

Definition placeInHorizontalLayerWithBounds (width height spacing : num)
  (pattern method : string) (value layerIndex totalLayers : num)
  (previousLayers : option (list PlantGroup)) (bounds : Bounds) : outcome (list Point) :=
  let stripHeight := height * (b_end bounds - b_start bounds) in
  let stripTop := - height / 2 + b_start bounds * height in
  let stripBottom := stripTop + stripHeight in
  gridPositions <-
    generateGridInHorizontalStrip width stripHeight spacing stripTop stripBottom method value ;;
  hexPositions <-
    generateHexInHorizontalStrip width stripHeight spacing stripTop stripBottom method value ;;
  let positions := morePlants gridPositions hexPositions in
  Returns (finishLayer positions spacing method value previousLayers).

Definition placeInVerticalLayerWithBounds (width height spacing : num)
  (pattern method : string) (value layerIndex totalLayers : num)
  (previousLayers : option (list PlantGroup)) (bounds : Bounds) : outcome (list Point) :=
  let stripWidth := width * (b_end bounds - b_start bounds) in
  let stripLeft := - width / 2 + b_start bounds * width in
  let stripRight := stripLeft + stripWidth in
  gridPositions <-
    generateGridInVerticalStrip stripWidth height spacing stripLeft stripRight method value ;;
  hexPositions <-
    generateHexInVerticalStrip stripWidth height spacing stripLeft stripRight method value ;;
  let positions := morePlants gridPositions hexPositions in
  Returns (finishLayer positions spacing method value previousLayers).

Definition placeInCircularLayerWithBounds (radius spacing : num)
  (pattern method : string) (value layerIndex totalLayers : num)
  (previousLayers : option (list PlantGroup)) (bounds : Bounds) : outcome (list Point) :=
  positions <-
    ringPositions radius spacing bounds (fun plantsInRing =>
      if is_method method "rows" && (value >? 0)
      then Math_min value plantsInRing else plantsInRing) ;;
  Returns (finishLayer positions spacing method value previousLayers).

Definition placeInLayerWithBounds (width height spacing : num)
  (pattern method : string) (value layerIndex totalLayers : num)
  (isCircle : bool) (radius : num) (isHorizontal : bool)
  (previousLayers : option (list PlantGroup)) (bounds : Bounds) : outcome (list Point) :=
  if isCircle then
    placeInCircularLayerWithBounds radius spacing pattern method value
      layerIndex totalLayers previousLayers bounds
  else if isHorizontal then
    placeInHorizontalLayerWithBounds width height spacing pattern method value
      layerIndex totalLayers previousLayers bounds
  else
    placeInVerticalLayerWithBounds width height spacing pattern method value
      layerIndex totalLayers previousLayers bounds.



End PlantPlacer.

(** ** The earlier revision of the class (src/placement.js)

    It centres the patterns in the bed instead of filling from the top-left
    corner, and has neither the capacity-aware [auto] method nor the region
    and layer functions.  [placeInRectangle], [placeInCircle],
    [placeSpecificCount], [placeByPercentage] and [filterAvailablePositions]
    have the same text in both revisions. *)

Module PlantPlacerV1.
Local Open Scope num_scope.

Definition gridPattern (width height spacing : num) : outcome (list Point) :=
  let cols := Math_floor (width / spacing) in
  let rows := Math_floor (height / spacing) in
  let offsetX := (width - (cols - 1) * spacing) / 2 in
  let offsetY := (height - (rows - 1) * spacing) / 2 in
  for_lt rows (fun row =>
    for_lt cols (fun col =>
      push {| pos_x := col * spacing + offsetX - width / 2;
              pos_y := row * spacing + offsetY - height / 2 |})).

Definition hexagonalPattern (width height spacing : num) : outcome (list Point) :=
  let verticalSpacing := spacing * Math_sqrt 3 / 2 in
  let rows := Math_floor (height / verticalSpacing) in
  for_lt rows (fun row =>
    let y := row * verticalSpacing in
    let offset := Z.rem row 2 * (spacing / 2) in
    let cols := Math_floor ((width - offset) / spacing) in
    let rowWidth := (cols - 1) * spacing + offset in
    let offsetX := (width - rowWidth) / 2 in
    for_lt cols (fun col =>
      let x := col * spacing + offset + offsetX in
      push {| pos_x := x - width / 2; pos_y := y - height / 2 |})).

Definition placeInRectangle (width height spacing : num) (pattern : string)
  : outcome (list Point) :=
  if is_hexagonal pattern then hexagonalPattern width height spacing
  else gridPattern width height spacing.

Definition placeInCircle (radius spacing : num) (pattern : string)
  : outcome (list Point) :=
  let diameter := radius * 2 in
  positions <-
    (if is_hexagonal pattern then hexagonalPattern diameter diameter spacing
     else gridPattern diameter diameter spacing) ;;
  Returns (filter (PlantPlacer.withinCircle radius spacing) positions).

Definition allPositions (width height spacing : num) (pattern : string)
  (isCircle : bool) (radius : num) : outcome (list Point) :=
  if isCircle then placeInCircle radius spacing pattern
  else if is_hexagonal pattern then hexagonalPattern width height spacing
  else gridPattern width height spacing.

Definition placeSpecificCount (width height spacing count : num)
  (pattern : string) (isCircle : bool) (radius : num) : outcome (list Point) :=
  allPositions <- allPositions width height spacing pattern isCircle radius ;;
  Returns (slice0 allPositions (Math_min count (length_of allPositions))).

Definition placeInRows (width height spacing numRows : num) (pattern : string)
  (isCircle : bool) (radius : num) : outcome (list Point) :=
  if isCircle then
    let ringSpacing := radius / numRows in
    for_lt numRows (fun ring =>
      let ringRadius := ringSpacing * (ring + 0.5) in
      let circumference := 2 * Math_PI * ringRadius in
      let plantsInRing := Math_floor (circumference / spacing) in
      for_lt plantsInRing (fun i =>
        let angle := (2 * Math_PI * i) / plantsInRing in
        push {| pos_x := Math_cos angle * ringRadius;
                pos_y := Math_sin angle * ringRadius |}))
  else
    let rowSpacing := height / (numRows + 1) in
    let cols := Math_floor (width / spacing) in
    let offsetX := (width - (cols - 1) * spacing) / 2 in
    for_lt numRows (fun row =>
      let y := rowSpacing * (row + 1) - height / 2 in
      for_lt cols (fun col =>
        push {| pos_x := col * spacing + offsetX - width / 2; pos_y := y |})).

Definition placeWithAwareness (width height spacing : num) (pattern method : string)
  (value : num) (isCircle : bool) (radius : num)
  (existingPlantGroups : option (list PlantGroup)) : outcome (option (list Point)) :=
  candidatePositions <-
    (if is_method method "auto" then
       c <- (if isCircle then placeInCircle radius spacing pattern
             else placeInRectangle width height spacing pattern) ;; Returns (Some c)
     else if is_method method "count" then
       c <- allPositions width height spacing pattern isCircle radius ;; Returns (Some c)
     else if is_method method "rows" then
       c <- placeInRows width height spacing value pattern isCircle radius ;; Returns (Some c)
     else if is_method method "percentage" then
       c <- allPositions width height spacing pattern isCircle radius ;; Returns (Some c)
     else Returns None) ;;
  availablePositions <-
    PlantPlacer.filterAvailablePositions candidatePositions existingPlantGroups spacing ;;
  if is_method method "count" then
    PlantPlacer.sliceOf availablePositions
      (fun available => Math_min value (length_of available))
  else if is_method method "percentage" then
    match candidatePositions with
    | Some candidates =>
        let count := Math_floor (length_of candidates * (value / 100)) in
        PlantPlacer.sliceOf availablePositions
          (fun available => Math_min count (length_of available))
    | None => Throws
    end
  else Returns availablePositions.

End PlantPlacerV1.

(** ** Region bounds (method [getRegionBounds] of the application class)

    The application state relevant here is the selected bed, if any, with
    its plant groups and its region boundaries, either of which may be
    absent.  A read past the end of [boundaries] yields [undefined]; the
    bounds are only ever used in arithmetic, where [undefined] is [NaN]. *)

Record Bed : Type := mkBed {
  plantGroups : option (list PlantGroup);
  regionBoundaries : option (list num)
}.

Definition element (boundaries : list num) (i : Z) : num :=
  if (i <? 0)%Z then NaN else nth (Z.to_nat i) boundaries NaN.

Definition getRegionBounds (selectedBed : option Bed) (layerIndex : Z) : Bounds :=
  match selectedBed with
  | None => {| b_start := 0; b_end := 1 |}
  | Some bed =>
      match plantGroups bed with
      | None => {| b_start := 0; b_end := 1 |}
      | Some groups =>
          let boundaries :=
            match regionBoundaries bed with Some b => b | None => [] end in
          let numGroups := Z.of_nat (List.length groups) in
          if (numGroups =? 1)%Z then {| b_start := 0; b_end := 1 |}
          else
            let start :=
              if (layerIndex =? 0)%Z then Fin 0
              else element boundaries (layerIndex - 1) in
            let end_ :=
              if (layerIndex =? numGroups - 1)%Z then Fin 1
              else element boundaries layerIndex in
            {| b_start := start; b_end := end_ |}
      end
  end.

(** ** The application class [GardenPlanner] (region mode)

    The methods of the application that maintain the plant groups of the
    selected bed.  The state they share is [this.selectedBed]; each method
    is a function from the state before the call to the state after it.
    Of a bed and of a plant group the fields are kept that these methods
    read or write (a bed has an id, a name, a position and a rotation for
    drawing as well); a field that may be missing is an [option].  Calls
    that redraw the page or save it to storage leave this state as it is. *)

Module GardenPlanner.

Record Group : Type := mkPlant {
  name : string;
  color : string;
  spacing : num;
  quantity : option num;
  maxQuantity : option num;
  positions : option (list Point)
}.

Record BedState : Type := mkBedState {
  type : string;
  width : option num;
  height : option num;
  radius : option num;
  plantGroups : option (list Group);
  regionBoundaries : option (list num)
}.

(** [!v] for a number: 0 and NaN are falsy. *)
Definition falsy (v : num) : bool :=
  match v with
  | Fin r => Reqb r 0
  | NaN => true
  | PInf | NInf => false
  end.

(** [v || 0] for a number or [undefined]. *)
Definition or_zero (v : option num) : num :=
  match v with
  | Some n => if falsy n then Fin 0 else n
  | None => Fin 0
  end.

(** [a === b] on numbers. *)
Definition strict_eq (a b : num) : bool :=
  match a, b with
  | Fin r, Fin s => Reqb r s
  | PInf, PInf | NInf, NInf => true
  | _, _ => false
  end.

(** [array.forEach((element, index) => ...)], where the callback updates
    the element in place. *)
Fixpoint forEach {A : Type} (callback : A -> Z -> outcome A) (l : list A) (index : Z)
  : outcome (list A) :=
  match l with
  | [] => Returns []
  | element :: rest =>
      element' <- callback element index ;;
      rest' <- forEach callback rest (index + 1)%Z ;;
      Returns (element' :: rest')
  end.

(** What [getRegionBounds] reads of the selected bed: the number of its
    groups and its boundaries. *)
Definition asPlantGroup (group : Group) : PlantGroup :=
  mkGroup (spacing group) (positions group).

Definition asBed (selectedBed : option BedState) : option Bed :=
  option_map (fun bed => mkBed (option_map (map asPlantGroup) (plantGroups bed))
                               (regionBoundaries bed)) selectedBed.

Definition setBoundaries (bed : BedState) (boundaries : option (list num)) : BedState :=
  mkBedState (type bed) (width bed) (height bed) (radius bed) (plantGroups bed) boundaries.

Definition setGroups (bed : BedState) (groups : list Group) : BedState :=
  mkBedState (type bed) (width bed) (height bed) (radius bed) (Some groups)
             (regionBoundaries bed).

Definition initializeRegionBoundaries (selectedBed : option BedState) : option BedState :=
  match selectedBed with
  | None => None
  | Some bed =>
      match plantGroups bed with
      | None => selectedBed
      | Some groups =>
          let numGroups := List.length groups in
          if (numGroups <=? 1)%nat then Some (setBoundaries bed (Some []))
          else
            (* for (let i = 1; i < numGroups; i++) boundaries.push(i / numGroups) *)
            let boundaries :=
              map (fun i => (ofZ (Z.of_nat i) / ofZ (Z.of_nat numGroups))%num)
                  (seq 1 (numGroups - 1)) in
            Some (setBoundaries bed (Some boundaries))
      end
  end.

(** The callback of [recalculateAllPlantPositions] for one group. *)
Definition recalculateGroup (selectedBed : option BedState) (width height : num)
  (isCircle : bool) (radius : num) (isHorizontal : bool)
  (group : Group) (layerIndex : Z) : outcome Group :=
  let regionBounds := getRegionBounds (asBed selectedBed) layerIndex in
  maxPositions <-
    PlantPlacer.placeInRegion width height (spacing group) isCircle radius isHorizontal
      regionBounds ;;
  let maxQuantity := length_of maxPositions in
  let quantity :=
    match quantity group with
    | None => maxQuantity
    | Some q => if strict_eq q 0 then maxQuantity else q
    end in
  let desiredQuantity := Math_min quantity maxQuantity in
  Returns (mkPlant (name group) (color group) (spacing group)
                   (Some quantity) (Some maxQuantity)
                   (Some (slice0 maxPositions desiredQuantity))).

Definition recalculateAllPlantPositions (selectedBed : option BedState)
  : outcome (option BedState) :=
  match selectedBed with
  | None => Returns None
  | Some bed =>
      match plantGroups bed with
      | None => Returns selectedBed
      | Some groups =>
          let isCircle := String.eqb (type bed) "circle" in
          let width := or_zero (width bed) in
          let height := or_zero (height bed) in
          let radius := or_zero (radius bed) in
          let isHorizontal := (width >? height)%num in
          let selectedBed :=
            if match regionBoundaries bed with
               | None => true
               | Some boundaries =>
                   negb (Z.of_nat (List.length boundaries)
                         =? Z.of_nat (List.length groups) - 1)%Z
               end
            then initializeRegionBoundaries selectedBed
            else selectedBed in
          groups' <- forEach (recalculateGroup selectedBed width height isCircle radius
                                isHorizontal) groups 0%Z ;;
          Returns (option_map (fun bed => setGroups bed groups') selectedBed)
      end
  end.

(** [array[index]] for an integer index. *)
Definition at_index {A : Type} (l : list A) (index : Z) : option A :=
  if (index <? 0)%Z then None else nth_error l (Z.to_nat index).

(** [array[index] = a] for an index of the array. *)
Fixpoint set_index {A : Type} (l : list A) (index : nat) (a : A) : list A :=
  match l, index with
  | [], _ => []
  | _ :: rest, O => a :: rest
  | b :: rest, S k => b :: set_index rest k a
  end.

(** [updatePlantQuantity(index, newQuantity)]; [parsed] is the value of
    [parseInt(newQuantity)], an integer or [NaN].  Reading [plantGroups[index]]
    of a bed without groups raises a [TypeError]. *)
Definition updatePlantQuantity (selectedBed : option BedState) (index : Z) (parsed : num)
  : outcome (option BedState) :=
  match selectedBed with
  | None => Returns None
  | Some bed =>
      match plantGroups bed with
      | None => Throws
      | Some groups =>
          match at_index groups index with
          | None => Returns selectedBed
          | Some group =>
              let group' :=
                mkPlant (name group) (color group) (spacing group) (Some parsed)
                        (maxQuantity group) (positions group) in
              recalculateAllPlantPositions
                (Some (setGroups bed (set_index groups (Z.to_nat index) group')))
          end
      end
  end.

(** [array.splice(index, 1)] for an integer index: a negative index counts
    from the end of the array. *)
Definition splice1 {A : Type} (l : list A) (index : Z) : list A :=
  let len := Z.of_nat (List.length l) in
  let start := if (index <? 0)%Z then Z.max (len + index) 0 else Z.min index len in
  firstn (Z.to_nat start) l ++ skipn (S (Z.to_nat start)) l.

Definition removePlantGroup (selectedBed : option BedState) (index : Z)
  : outcome (option BedState) :=
  match selectedBed with
  | None => Returns None
  | Some bed =>
      match plantGroups bed with
      | None => Throws
      | Some groups =>
          recalculateAllPlantPositions
            (Some (setBoundaries (setGroups bed (splice1 groups index)) None))
      end
  end.

(** The positions that [updateFillPreview] counts for the plant of the
    form: [spacing] is the value of [parseInt] on the spacing field, and
    [editingPlantIndex] is [None] for a new plant.  Without a bed, without
    a name or with a spacing that is 0, [NaN] or below 1 there is no
    preview. *)
Definition updateFillPreview (selectedBed : option BedState) (plantName : string)
  (spacing : num) (editingPlantIndex : option Z) : outcome (option (list Point)) :=
  match selectedBed with
  | None => Returns None
  | Some bed =>
      if (String.eqb plantName "" || falsy spacing
          || (spacing <? 1)%num)%bool
      then Returns None
      else
        let isCircle := String.eqb (type bed) "circle" in
        let width := or_zero (width bed) in
        let height := or_zero (height bed) in
        let radius := or_zero (radius bed) in
        let isHorizontal := (width >? height)%num in
        let currentLayerCount :=
          match plantGroups bed with
          | Some groups => Z.of_nat (List.length groups)
          | None => 0%Z
          end in
        let layerIndex :=
          match editingPlantIndex with Some i => i | None => currentLayerCount end in
        let totalLayers :=
          match editingPlantIndex with
          | Some _ => currentLayerCount
          | None => (currentLayerCount + 1)%Z
          end in
        let regionBounds :=
          {| b_start := (ofZ layerIndex / ofZ totalLayers)%num;
             b_end := ((ofZ layerIndex + 1) / ofZ totalLayers)%num |} in
        positions <-
          PlantPlacer.placeInRegion width height spacing isCircle radius isHorizontal
            regionBounds ;;
        Returns (Some positions)
  end.

(** [saveAddPlantToBed]: a new plant ([editingPlantIndex === null]) is
    appended with quantity 0, an edited one keeps its quantity, and every
    group is recalculated.  An invalid form leaves the bed as it is; editing
    a group that does not exist raises a [TypeError]. *)
Definition saveAddPlantToBed (selectedBed : option BedState) (plantName plantColor : string)
  (spacing : num) (editingPlantIndex : option Z) : outcome (option BedState) :=
  match selectedBed with
  | None => Returns None
  | Some bed =>
      if (String.eqb plantName "" || falsy spacing || (spacing <? 1)%num)%bool
      then Returns selectedBed
      else
        let groups := match plantGroups bed with Some groups => groups | None => [] end in
        match editingPlantIndex with
        | Some index =>
            match at_index groups index with
            | None => Throws
            | Some group =>
                let group' :=
                  mkPlant plantName plantColor spacing (quantity group)
                          (maxQuantity group) (positions group) in
                recalculateAllPlantPositions
                  (Some (setGroups bed (set_index groups (Z.to_nat index) group')))
            end
        | None =>
            recalculateAllPlantPositions
              (Some (setGroups bed
                       (groups ++ [mkPlant plantName plantColor spacing (Some (Fin 0))
                                           (Some (Fin 0)) (Some [])])))
        end
  end.

(** [array.sort((a, b) => a - b)] on finite numbers: the array in ascending
    order.  With a [NaN] or an infinity among the elements the comparator
    need not be a consistent order, and the order of the result is then left
    to the implementation: the model has no result there ([None]). *)
Fixpoint insert_ascending (a : R) (l : list R) : list R :=
  match l with
  | [] => [a]
  | b :: rest => if Rleb a b then a :: l else b :: insert_ascending a rest
  end.

Fixpoint finite_values (l : list num) : option (list R) :=
  match l with
  | [] => Some []
  | Fin r :: rest => option_map (cons r) (finite_values rest)
  | _ :: _ => None
  end.

Definition sort_ascending (l : list num) : option (list num) :=
  option_map (fun values => map Fin (fold_right insert_ascending [] values))
             (finite_values l).

(** [array[index] = v]: past the end the array grows, and the elements
    skipped are holes, which read as [undefined] ([NaN] in arithmetic). *)
Definition store (l : list num) (index : nat) (v : num) : list num :=
  if (index <? List.length l)%nat then set_index l index v
  else l ++ repeat NaN (index - List.length l) ++ [v].

(** [handleDividerDrag(worldPos)]: the state is the selected bed, the index
    of the dragged divider ([null] or an array index) and the point where
    the drag started; the result is the bed after recalculation and the new
    start of the drag. *)
Definition handleDividerDrag (selectedBed : option BedState)
  (draggedDividerIndex : option nat) (dragStart worldPos : Point)
  : option (outcome (option BedState * Point)) :=
  match selectedBed, draggedDividerIndex with
  | Some bed, Some dividerIndex =>
      match plantGroups bed with
      | None => Some (Returns (selectedBed, dragStart))
      | Some _ =>
          let isCircle := String.eqb (type bed) "circle" in
          let width := or_zero (width bed) in
          let height := or_zero (height bed) in
          let radius := or_zero (radius bed) in
          let isHorizontal := (width >? height)%num in
          let dx := (pos_x worldPos - pos_x dragStart)%num in
          let dy := (pos_y worldPos - pos_y dragStart)%num in
          let selectedBed :=
            match regionBoundaries bed with
            | None => initializeRegionBoundaries selectedBed
            | Some _ => selectedBed
            end in
          let boundaries :=
            match selectedBed with
            | Some bed => match regionBoundaries bed with Some b => b | None => [] end
            | None => []
            end in
          let percentageDelta :=
            if isCircle then
              let totalRadius := radius in
              let delta :=
                (Math_sqrt (dx * dx + dy * dy)
                 * (if (dx + dy >? 0)%num then 1 else -1))%num in
              (delta / totalRadius)%num
            else if isHorizontal then
              let totalHeight := height in
              let delta := dy in
              (delta / totalHeight)%num
            else
              let totalWidth := width in
              let delta := dx in
              (delta / totalWidth)%num in
          let boundaries :=
            store boundaries dividerIndex
              (Math_max 0.1 (Math_min 0.9
                 (element boundaries (Z.of_nat dividerIndex) + percentageDelta)%num)) in
          match sort_ascending boundaries with
          | None => None
          | Some boundaries =>
              Some (selectedBed' <-
                      recalculateAllPlantPositions
                        (option_map (fun bed => setBoundaries bed (Some boundaries))
                                    selectedBed) ;;
                    Returns (selectedBed', worldPos))
          end
      end
  | _, _ => Some (Returns (selectedBed, dragStart))
  end.

End GardenPlanner.

(** ** The canvas class [GardenCanvas]: view and hit tests

    The view of the canvas is its offset and scale, with the limits of the
    scale and the size of the canvas element.  Of a bed the canvas reads the
    type, the centre, the dimensions, the rotation in degrees, the plant
    groups and the region boundaries; the numeric fields are only used in
    arithmetic and in truth tests, where a missing field is [NaN]. *)

Module GardenCanvas.

Record Canvas : Type := mkCanvas {
  offsetX : num;
  offsetY : num;
  scale : num;
  minScale : num;
  maxScale : num;
  canvas_width : num;
  canvas_height : num
}.

Record CanvasBed : Type := mkCanvasBed {
  type : string;
  x : num;
  y : num;
  width : num;
  height : num;
  radius : num;
  rotation : num;
  plantGroups : option (list GardenPlanner.Group);
  regionBoundaries : option (list num)
}.

Definition zoomAt (this : Canvas) (mouseX mouseY delta : num) : Canvas :=
  let newScale := (scale this * delta)%num in
  if ((newScale >=? minScale this) && (newScale <=? maxScale this))%num%bool then
    mkCanvas (mouseX - (mouseX - offsetX this) * delta)%num
             (mouseY - (mouseY - offsetY this) * delta)%num
             newScale (minScale this) (maxScale this)
             (canvas_width this) (canvas_height this)
  else this.

Definition zoomIn (this : Canvas) : Canvas :=
  let centerX := (canvas_width this / 2)%num in
  let centerY := (canvas_height this / 2)%num in
  zoomAt this centerX centerY 1.2.

Definition zoomOut (this : Canvas) : Canvas :=
  let centerX := (canvas_width this / 2)%num in
  let centerY := (canvas_height this / 2)%num in
  zoomAt this centerX centerY 0.8.

(** The bounds [(minX, maxX, minY, maxY)] that [fitToScreen] accumulates
    over the beds. *)
Definition growBounds (bounds : num * num * num * num) (bed : CanvasBed)
  : num * num * num * num :=
  let '(minX, maxX, minY, maxY) := bounds in
  if String.eqb (type bed) "rectangle" then
    (Math_min minX (x bed - width bed / 2)%num,
     Math_max maxX (x bed + width bed / 2)%num,
     Math_min minY (y bed - height bed / 2)%num,
     Math_max maxY (y bed + height bed / 2)%num)
  else if String.eqb (type bed) "circle" then
    (Math_min minX (x bed - radius bed)%num,
     Math_max maxX (x bed + radius bed)%num,
     Math_min minY (y bed - radius bed)%num,
     Math_max maxY (y bed + radius bed)%num)
  else bounds.

Definition fitToScreen (this : Canvas) (beds : list CanvasBed) : Canvas :=
  match beds with
  | [] => this
  | _ :: _ =>
      let '(minX, maxX, minY, maxY) := fold_left growBounds beds (PInf, NInf, PInf, NInf) in
      let boundsWidth := (maxX - minX)%num in
      let boundsHeight := (maxY - minY)%num in
      let centerX := ((minX + maxX) / 2)%num in
      let centerY := ((minY + maxY) / 2)%num in
      let padding : num := 50 in
      let scaleX := ((canvas_width this - padding * 2) / boundsWidth)%num in
      let scaleY := ((canvas_height this - padding * 2) / boundsHeight)%num in
      let scale := Math_min (Math_min scaleX scaleY) (maxScale this) in
      mkCanvas (canvas_width this / 2 - centerX * scale)%num
               (canvas_height this / 2 - centerY * scale)%num
               scale (minScale this) (maxScale this)
               (canvas_width this) (canvas_height this)
  end.

Definition fitBedToScreen (this : Canvas) (bed : option CanvasBed) : Canvas :=
  match bed with
  | None => this
  | Some bed =>
      let '(width, height) :=
        if String.eqb (type bed) "rectangle" then (width bed, height bed)
        else if String.eqb (type bed) "circle" then
          ((radius bed * 2)%num, (radius bed * 2)%num)
        else (NaN, NaN) in
      let padding : num := 80 in
      let scaleX := ((canvas_width this - padding * 2) / width)%num in
      let scaleY := ((canvas_height this - padding * 2) / height)%num in
      let detailMaxScale : num := 10 in
      let scale := Math_min (Math_min scaleX scaleY) detailMaxScale in
      mkCanvas (canvas_width this / 2 - x bed * scale)%num
               (canvas_height this / 2 - y bed * scale)%num
               scale (minScale this) (maxScale this)
               (canvas_width this) (canvas_height this)
  end.

Definition screenToWorld (this : Canvas) (screenX screenY : num) : Point :=
  {| pos_x := ((screenX - offsetX this) / scale this)%num;
     pos_y := ((screenY - offsetY this) / scale this)%num |}.

Definition worldToScreen (this : Canvas) (worldX worldY : num) : Point :=
  {| pos_x := (worldX * scale this + offsetX this)%num;
     pos_y := (worldY * scale this + offsetY this)%num |}.

(** [!v] for a number. *)
Definition falsy (v : num) : bool :=
  match v with
  | Fin r => Reqb r 0
  | NaN => true
  | PInf | NInf => false
  end.

Definition transformPoint (x y : num) (bed : CanvasBed) : Point :=
  if falsy (rotation bed) then {| pos_x := x; pos_y := y |}
  else
    let angle := (- (rotation bed * Math_PI) / 180)%num in
    let cos := Math_cos angle in
    let sin := Math_sin angle in
    {| pos_x := (x * cos - y * sin)%num; pos_y := (x * sin + y * cos)%num |}.

Definition isPointInBed (worldX worldY : num) (bed : CanvasBed) : bool :=
  let relX := (worldX - x bed)%num in
  let relY := (worldY - y bed)%num in
  let transformed := transformPoint relX relY bed in
  let relativeX := pos_x transformed in
  let relativeY := pos_y transformed in
  if String.eqb (type bed) "rectangle" then
    ((Math_abs relativeX <=? width bed / 2)
     && (Math_abs relativeY <=? height bed / 2))%num%bool
  else if String.eqb (type bed) "circle" then
    let distance := Math_sqrt (relativeX * relativeX + relativeY * relativeY)%num in
    (distance <=? radius bed)%num
  else false.

(** The loop over the dividers in [getPlantDivider]: the first index, from
    [i] on, whose divider passes the test. *)
Fixpoint firstDivider (hit : num -> bool) (boundaries : list num) (i : nat) : option nat :=
  match boundaries with
  | [] => None
  | boundary :: rest => if hit boundary then Some i else firstDivider hit rest (S i)
  end.

(** [getPlantDivider]: the index of the divider under the point and the
    cursor to show, or [null]. *)
Definition getPlantDivider (this : Canvas) (worldX worldY : num) (bed : option CanvasBed)
  : option (nat * string) :=
  match bed with
  | None => None
  | Some bed =>
      match plantGroups bed with
      | None => None
      | Some groups =>
          if (List.length groups <=? 1)%nat then None
          else
            let relX := (worldX - x bed)%num in
            let relY := (worldY - y bed)%num in
            let transformed := transformPoint relX relY bed in
            let relativeX := pos_x transformed in
            let relativeY := pos_y transformed in
            let handleTolerance := (15 / scale this)%num in
            let boundaries :=
              match regionBoundaries bed with Some b => b | None => [] end in
            if String.eqb (type bed) "circle" then
              let distance :=
                Math_sqrt (relativeX * relativeX + relativeY * relativeY)%num in
              option_map (fun i => (i, "ew-resize"%string))
                (firstDivider
                   (fun boundary =>
                      let dividerRadius := (boundary * radius bed)%num in
                      (Math_abs (distance - dividerRadius) <=? handleTolerance)%num)
                   boundaries 0)
            else
              let isHorizontal := (width bed >? height bed)%num in
              if isHorizontal then
                option_map (fun i => (i, "ns-resize"%string))
                  (firstDivider
                     (fun boundary =>
                        let dividerY :=
                          (- height bed / 2 + boundary * height bed)%num in
                        ((Math_abs (relativeY - dividerY) <=? handleTolerance)
                         && (Math_abs relativeX <=? width bed / 2))%num%bool)
                     boundaries 0)
              else
                option_map (fun i => (i, "ew-resize"%string))
                  (firstDivider
                     (fun boundary =>
                        let dividerX :=
                          (- width bed / 2 + boundary * width bed)%num in
                        ((Math_abs (relativeX - dividerX) <=? handleTolerance)
                         && (Math_abs relativeY <=? height bed / 2))%num%bool)
                     boundaries 0)
      end
  end.

End GardenCanvas.

(** * Specification predicates and closed forms

    The predicates in which the properties are stated, and the point lists
    that the loops of the generators compute. *)

(** A point with real coordinates inside the rectangle, resp. inside the
    disc shrunk by half a spacing. *)
Definition inRect (w h : R) (p : Point) : Prop :=
  exists x y : R, p = mkPoint (Fin x) (Fin y) /\ Rabs x <= w / 2 /\ Rabs y <= h / 2.

Definition inDisc (r s : R) (p : Point) : Prop :=
  exists x y : R, p = mkPoint (Fin x) (Fin y) /\ sqrt (x * x + y * y) <= r - s / 2.

(** [yields run P]: the run returns, and every returned point satisfies [P]. *)
Definition yields (run : outcome (list Point)) (P : Point -> Prop) : Prop :=
  exists pts, run = Returns pts /\ Forall P pts.

(** Euclidean distance between two points with real coordinates. *)
Definition distR (cx cy qx qy : R) : R :=
  sqrt ((cx - qx) * (cx - qx) + (cy - qy) * (cy - qy)).



(** A point with real coordinates whose [y] (resp. [x]) lies in a range. *)
Definition inStripY (top bottom : R) (p : Point) : Prop :=
  exists x y : R, p = mkPoint (Fin x) (Fin y) /\ top <= y <= bottom.


(** A point at angle [theta] on the circle of radius [rho] about the origin. *)
Definition onRing (rho : R) (p : Point) : Prop :=
  exists theta : R, p = mkPoint (Fin (cos theta * rho)) (Fin (sin theta * rho)).

(** The number of sub-rings of the annulus between the fractions [a] and
    [b] of [radius], and the radius of sub-ring [k]. *)
Definition subRings (radius s a b : R) : R :=
  Rmax 1 (IZR (floorZ ((radius * b - radius * a) / s))).

Definition subRingRadius (radius s a b : R) (k : Z) : R :=
  radius * a + (radius * b - radius * a) / (subRings radius s a b + 1) * (IZR k + 1).

(** A point on one of the sub-rings of the annulus. *)
Definition onSubRing (radius s a b : R) (p : Point) : Prop :=
  exists k : Z, (0 <= k)%Z /\ IZR k < subRings radius s a b /\
                onRing (subRingRadius radius s a b k) p.

(** The boundary set of a bed with [n] groups: [n - 1] cut points in (0,1),
    strictly ascending. *)
Definition validBoundaries (n : nat) (bs : list R) : Prop :=
  (List.length bs + 1 = n)%nat /\
  Forall (fun b => 0 < b < 1) bs /\
  (forall i : nat, (S i < List.length bs)%nat -> nth i bs 0 < nth (S i) bs 0).

(** The selected bed of the application: [groups] and the boundary set. *)
Definition bedWith (groups : list PlantGroup) (bs : list R) : option Bed :=
  Some (mkBed (Some groups) (Some (map Fin bs))).

(** The bounds of region [i] as the specification gives them. *)
Definition regionStart (bs : list R) (i : nat) : R :=
  match i with O => 0 | S j => nth j bs 0 end.

Definition regionEnd (n : nat) (bs : list R) (i : nat) : R :=
  if (S i =? n)%nat then 1 else nth i bs 0.

(** The successive values [i, i+1, ...] of a loop counter. *)
Fixpoint indices (i : Z) (n : nat) : list Z :=
  match n with
  | O => []
  | S k => i :: indices (i + 1)%Z k
  end.

(** The number of iterations of a loop with bound [r]. *)
Definition trips (r : R) : nat := Z.to_nat (ceilZ r).

(** A row of [cols] points. *)
Definition rowOf (point : Z -> Point) (cols : R) : list Point :=
  flat_map (fun col => [point col]) (indices 0 (trips cols)).

(** The points of [gridPattern] (current revision), for a non-zero spacing. *)
Definition gridPoints (w h s : R) : list Point :=
  flat_map (fun row =>
    rowOf (fun col => mkPoint (Fin (- w / 2 + s / 2 + IZR col * s))
                              (Fin (- h / 2 + s / 2 + IZR row * s)))
          (IZR (floorZ (w / s))))
    (indices 0 (trips (IZR (floorZ (h / s))))).

(** The points of [hexagonalPattern] (current revision), for a non-zero spacing. *)
Definition hexCols (w s : R) (row : Z) : Z :=
  floorZ ((w - s / 2 - IZR (Z.rem row 2) * (s / 2)) / s).

Definition hexPoints (w h s : R) : list Point :=
  flat_map (fun row =>
    rowOf (fun col =>
             mkPoint (Fin (- w / 2 + s / 2 + IZR col * s + IZR (Z.rem row 2) * (s / 2)))
                     (Fin (- h / 2 + s / 2 + IZR row * (s * sqrt 3 / 2))))
          (IZR (hexCols w s row)))
    (indices 0 (trips (IZR (floorZ (h / (s * sqrt 3 / 2)))))).

(** The points of the earlier revision. *)
Definition gridPointsV1 (w h s : R) : list Point :=
  let cols := IZR (floorZ (w / s)) in
  let rows := IZR (floorZ (h / s)) in
  flat_map (fun row =>
    rowOf (fun col =>
             mkPoint (Fin (IZR col * s + (w - (cols - 1) * s) / 2 - w / 2))
                     (Fin (IZR row * s + (h - (rows - 1) * s) / 2 - h / 2)))
          cols)
    (indices 0 (trips rows)).

Definition hexColsV1 (w s : R) (row : Z) : Z :=
  floorZ ((w - IZR (Z.rem row 2) * (s / 2)) / s).

Definition hexPointsV1 (w h s : R) : list Point :=
  flat_map (fun row =>
    let offset := IZR (Z.rem row 2) * (s / 2) in
    let cols := IZR (hexColsV1 w s row) in
    rowOf (fun col =>
             mkPoint (Fin (IZR col * s + offset + (w - ((cols - 1) * s + offset)) / 2 - w / 2))
                     (Fin (IZR row * (s * sqrt 3 / 2) - h / 2)))
          cols)
    (indices 0 (trips (IZR (floorZ (h / (s * sqrt 3 / 2)))))).

(** What [filterAvailablePositions] keeps of defined candidates. *)
Definition availableOf (existingPlantGroups : option (list PlantGroup))
  (spacing : num) (candidates : list Point) : list Point :=
  match existingPlantGroups with
  | None | Some [] => candidates
  | Some groups =>
      filter (PlantPlacer.available spacing (PlantPlacer.collectExisting groups)) candidates
  end.

(** [floor(len * p / 100)] for a list of [len] elements. *)
Definition percentCount {A : Type} (l : list A) (p : R) : nat :=
  Z.to_nat (floorZ (IZR (Z.of_nat (List.length l)) * (p / 100))).

(** The slack left to the rounding of a few floating-point operations: a
    billionth of the sizes involved. *)
Definition roundOff : R := / 10 ^ 9.

(** [percentShare len p k]: [k] is a share of [p] percent of [len]
    positions as [Math.floor(len * (p / 100))] may give it: a whole number
    that is, up to the rounding of the product, at most len * p / 100 and
    less than one below it, and that is no less than [len] from 100 percent
    on. *)
Definition percentShare (len : nat) (p : R) (k : nat) : Prop :=
  let share := IZR (Z.of_nat len) * p / 100 in
  share * (1 - roundOff) - 1 <= IZR (Z.of_nat k) <= share * (1 + roundOff) /\
  (100 <= p -> (len <= k)%nat).

(** A point with real coordinates at a distance from the origin strictly
    between [lo] and [hi]. *)
Definition inAnnulus (lo hi : R) (p : Point) : Prop :=
  exists x y : R, p = mkPoint (Fin x) (Fin y) /\ lo < sqrt (x * x + y * y) < hi.

(** The points of [placeInRows] on a rectangle, for [n] rows: row [row]
    lies at height [rowY row]. *)
Definition rowsPoints (w s : R) (n : Z) (rowY : Z -> R) (colX : Z -> R) : list Point :=
  flat_map (fun row =>
    rowOf (fun col => mkPoint (Fin (colX col)) (Fin (rowY row)))
          (IZR (floorZ (w / s))))
    (indices 0 (Z.to_nat n)).

(** The four rectangle generators return the empty sequence. *)
Definition generatorsEmpty (width height spacing : R) : Prop :=
  PlantPlacer.gridPattern width height spacing = Returns [] /\
  PlantPlacer.hexagonalPattern width height spacing = Returns [] /\
  PlantPlacerV1.gridPattern width height spacing = Returns [] /\
  PlantPlacerV1.hexagonalPattern width height spacing = Returns [].



(** The four fill methods. *)
Definition knownMethod (method : string) : Prop :=
  method = "auto"%string \/ method = "count"%string \/
  method = "rows"%string \/ method = "percentage"%string.

(** A point on ring [k] of the [rows] method in a circular bed: the ring of
    radius [radius / rows * (k + 0.5)]. *)
Definition onRowRing (radius rows : R) (p : Point) : Prop :=
  exists k : Z, (0 <= k)%Z /\ IZR k < rows /\
                onRing (radius / rows * (IZR k + 0.5)) p.

(** The number of positions held by a list of plant groups. *)
Definition plantCount (groups : list PlantGroup) : nat :=
  list_sum (map (fun group =>
                   match g_positions group with
                   | Some positions => List.length positions
                   | None => 0%nat
                   end) groups).

(** The groups of an optional list of groups. *)
Definition groupsOf (existingPlantGroups : option (list PlantGroup)) : list PlantGroup :=
  match existingPlantGroups with Some groups => groups | None => [] end.

(** The number of points of the grid: rows times columns. *)
Definition gridCapacity (w h s : R) : nat :=
  (Z.to_nat (floorZ (h / s)) * Z.to_nat (floorZ (w / s)))%nat.

(** The number of points of the hexagonal pattern (current revision): the
    rows of even index hold [floor((w - s/2)/s)] points and those of odd
    index [floor((w - s)/s)]. *)
Definition hexCapacity (w h s : R) : nat :=
  let rows := Z.to_nat (floorZ (h / (s * sqrt 3 / 2))) in
  (((rows + 1) / 2) * Z.to_nat (floorZ ((w - s / 2) / s))
   + (rows / 2) * Z.to_nat (floorZ ((w - s) / s)))%nat.

(** The number of points of the hexagonal pattern of the earlier revision,
    which counts floor((w - offset)/s) columns in a row: the rows of even
    index hold [floor(w/s)] points and those of odd index
    [floor((w - s/2)/s)]. *)
Definition hexCapacityV1 (w h s : R) : nat :=
  let rows := Z.to_nat (floorZ (h / (s * sqrt 3 / 2))) in
  (((rows + 1) / 2) * Z.to_nat (floorZ (w / s))
   + (rows / 2) * Z.to_nat (floorZ ((w - s / 2) / s)))%nat.

(** A point with real coordinates in the box [x0, x1] x [y0, y1]. *)
Definition inBox (x0 x1 y0 y1 : R) (p : Point) : Prop :=
  exists x y : R, p = mkPoint (Fin x) (Fin y) /\ x0 <= x <= x1 /\ y0 <= y <= y1.

(** [ordered key ps qs]: the points of both lists have real coordinates,
    and [key] is no larger on a point of [ps] than on a point of [qs]. *)
Definition ordered (key : R -> R -> R) (ps qs : list Point) : Prop :=
  forall p q, In p ps -> In q qs ->
    exists x1 y1 x2 y2 : R,
      p = mkPoint (Fin x1) (Fin y1) /\ q = mkPoint (Fin x2) (Fin y2) /\
      key x1 y1 <= key x2 y2.

(** The region-mode positions of group [i] of a bed, at full density. *)
Definition regionPositions (width height radius : num) (isCircle isHorizontal : bool)
  (groups : list PlantGroup) (bs : list R) (i : nat) : outcome (list Point) :=
  PlantPlacer.placeInRegion width height (g_spacing (nth i groups (mkGroup NaN None)))
    isCircle radius isHorizontal (getRegionBounds (bedWith groups bs) (Z.of_nat i)).

(** The even division of a bed of [n] groups: the cut points
    1/n, ..., (n-1)/n. *)
Definition evenCuts (n : nat) : list R :=
  map (fun i => IZR (Z.of_nat i) / IZR (Z.of_nat n)) (seq 1 (n - 1)).

(** The full-density positions of region [layerIndex] of a bed of the
    application, for a spacing. *)
Definition regionOf (bed : GardenPlanner.BedState) (spacing : num) (layerIndex : nat)
  : outcome (list Point) :=
  let width := GardenPlanner.or_zero (GardenPlanner.width bed) in
  let height := GardenPlanner.or_zero (GardenPlanner.height bed) in
  let radius := GardenPlanner.or_zero (GardenPlanner.radius bed) in
  PlantPlacer.placeInRegion width height spacing
    (String.eqb (GardenPlanner.type bed) "circle") radius (width >? height)%num
    (getRegionBounds (GardenPlanner.asBed (Some bed)) (Z.of_nat layerIndex)).

(** A bed of the application whose dimensions are real numbers, whose
    groups have a real spacing above 0 and whose boundaries, if any, are
    real numbers. *)
Definition plantable (bed : GardenPlanner.BedState) (groups : list GardenPlanner.Group)
  : Prop :=
  GardenPlanner.plantGroups bed = Some groups /\
  (exists w h r : R,
      GardenPlanner.or_zero (GardenPlanner.width bed) = Fin w /\
      GardenPlanner.or_zero (GardenPlanner.height bed) = Fin h /\
      GardenPlanner.or_zero (GardenPlanner.radius bed) = Fin r) /\
  Forall (fun group => exists s : R, GardenPlanner.spacing group = Fin s /\ 0 < s) groups /\
  match GardenPlanner.regionBoundaries bed with
  | None => True
  | Some boundaries => exists bs : list R, boundaries = map Fin bs
  end.

(** Group [i] of a bed holds the first positions of the full-density
    placement [full] of its region: as many as its quantity asks for, and
    [maxQuantity] is the number of positions of [full]. *)
Definition settledGroup (bed : GardenPlanner.BedState) (i : nat)
  (group : GardenPlanner.Group) : Prop :=
  exists (full : list Point) (q : num),
    regionOf bed (GardenPlanner.spacing group) i = Returns full /\
    GardenPlanner.maxQuantity group = Some (length_of full) /\
    GardenPlanner.quantity group = Some q /\
    GardenPlanner.positions group = Some (slice0 full (Math_min q (length_of full))).

Definition settled (bed : GardenPlanner.BedState) (groups : list GardenPlanner.Group)
  : Prop :=
  GardenPlanner.plantGroups bed = Some groups /\
  forall i group, nth_error groups i = Some group -> settledGroup bed i group.

(** The state in which [recalculateAllPlantPositions] places the groups:
    the bed with its boundaries initialised where they were missing or of
    the wrong number. *)
Definition withBoundaries (bed : GardenPlanner.BedState) (groups : list GardenPlanner.Group)
  : option GardenPlanner.BedState :=
  if match GardenPlanner.regionBoundaries bed with
     | None => true
     | Some boundaries =>
         negb (Z.of_nat (List.length boundaries) =? Z.of_nat (List.length groups) - 1)%Z
     end
  then GardenPlanner.initializeRegionBoundaries (Some bed)
  else Some bed.

(** A bed of 96 x 48 with two groups, neither placed yet. *)
Definition exampleGroups : list GardenPlanner.Group :=
  [GardenPlanner.mkPlant "kale" "green" 12 None None None;
   GardenPlanner.mkPlant "leek" "blue" 6 (Some (Fin 4)) None None].

Definition exampleBed : GardenPlanner.BedState :=
  GardenPlanner.mkBedState "rectangle" (Some (Fin 96)) (Some (Fin 48)) None
    (Some exampleGroups) None.

(** The length along which a divider of a bed moves, and the signed length
    of a drag by [(dx, dy)] along it. *)
Definition dragExtent (isCircle : bool) (w h r : R) : R :=
  if isCircle then r else if Rltb h w then h else w.

Definition dragAmount (isCircle : bool) (w h dx dy : R) : R :=
  if isCircle then sqrt (dx * dx + dy * dy) * (if Rltb 0 (dx + dy) then 1 else -1)
  else if Rltb h w then dy else dx.

(** The boundary set [bs] with cut point [index] replaced by [v]. *)
Definition replaced (bs : list R) (index : nat) (v : R) : list R :=
  firstn index bs ++ v :: skipn (S index) bs.

(** A view of the canvas with real offset [(ox, oy)] and real scale [s]. *)
Definition realView (this : GardenCanvas.Canvas) (ox oy s : R) : Prop :=
  GardenCanvas.offsetX this = Fin ox /\ GardenCanvas.offsetY this = Fin oy /\
  GardenCanvas.scale this = Fin s.

(** Two points with real coordinates that differ by at most [tol] in each
    coordinate. *)
Definition nearBy (tol : R) (p q : Point) : Prop :=
  exists px py qx qy : R,
    p = mkPoint (Fin px) (Fin py) /\ q = mkPoint (Fin qx) (Fin qy) /\
    Rabs (px - qx) <= tol /\ Rabs (py - qy) <= tol.

(** A point of the screen with real coordinates within the given margin of
    a canvas of [W] by [H] pixels. *)
Definition onScreen (W H margin : R) (p : Point) : Prop :=
  exists sx sy : R, p = mkPoint (Fin sx) (Fin sy) /\
    margin <= sx <= W - margin /\ margin <= sy <= H - margin.

(** A rectangular or circular bed with a real centre and real, positive
    dimensions, and the box [x0, x1] x [y0, y1] around it. *)
Definition hasBox (bed : GardenCanvas.CanvasBed) (x0 x1 y0 y1 : R) : Prop :=
  exists cx cy : R,
    GardenCanvas.x bed = Fin cx /\ GardenCanvas.y bed = Fin cy /\
    ((GardenCanvas.type bed = "rectangle"%string /\
      exists w h : R,
        GardenCanvas.width bed = Fin w /\ GardenCanvas.height bed = Fin h /\
        0 < w /\ 0 < h /\
        x0 = cx - w / 2 /\ x1 = cx + w / 2 /\ y0 = cy - h / 2 /\ y1 = cy + h / 2) \/
     (GardenCanvas.type bed = "circle"%string /\
      exists r : R,
        GardenCanvas.radius bed = Fin r /\ 0 < r /\
        x0 = cx - r /\ x1 = cx + r /\ y0 = cy - r /\ y1 = cy + r)).

(** A canvas of 800 by 600 pixels in its initial view, and two beds: a
    rectangle of 96 by 48 at the origin and a circle of radius 24 beside
    it. *)
Definition exampleCanvas : GardenCanvas.Canvas :=
  GardenCanvas.mkCanvas (Fin 400) (Fin 300) (Fin 1) (Fin 0.1) (Fin 3) (Fin 800) (Fin 600).

Definition exampleRectangle : GardenCanvas.CanvasBed :=
  GardenCanvas.mkCanvasBed "rectangle" (Fin 0) (Fin 0) (Fin 96) (Fin 48) NaN (Fin 0)
    (Some exampleGroups) (Some [Fin 0.5]).

Definition exampleCircle : GardenCanvas.CanvasBed :=
  GardenCanvas.mkCanvasBed "circle" (Fin 100) (Fin 0) NaN NaN (Fin 24) (Fin 0)
    None None.

(** The canvas finds the point at offset [p] from the centre of the bed
    inside the bed. *)
Definition hitAt (bed : GardenCanvas.CanvasBed) (p : Point) : Prop :=
  GardenCanvas.isPointInBed (GardenCanvas.x bed + pos_x p)%num
                            (GardenCanvas.y bed + pos_y p)%num bed = true.

(** Two points with real coordinates at a distance of at least [s], and a
    list of positions any two of which (at different places of the list)
    are that far apart. *)
Definition farApart (s : R) (p q : Point) : Prop :=
  exists px py qx qy : R,
    p = mkPoint (Fin px) (Fin py) /\ q = mkPoint (Fin qx) (Fin qy) /\
    s <= distR px py qx qy.

Definition spaced (s : R) (pts : list Point) : Prop :=
  ForallOrdPairs (farApart s) pts.

(** * Properties *)

(** ** Numbers *)

Lemma Rltb_true (a b : R) : Rltb a b = true <-> a < b.
Proof. unfold Rltb; destruct (Rlt_dec a b); split; intros; try easy. Qed.

Lemma Rltb_false (a b : R) : Rltb a b = false <-> b <= a.
Proof. unfold Rltb; destruct (Rlt_dec a b); split; intros; try easy; lra. Qed.

Lemma Rleb_true (a b : R) : Rleb a b = true <-> a <= b.
Proof. unfold Rleb; destruct (Rle_dec a b); split; intros; try easy. Qed.

Lemma Rleb_false (a b : R) : Rleb a b = false <-> b < a.
Proof. unfold Rleb; destruct (Rle_dec a b); split; intros; try easy; lra. Qed.

Lemma Reqb_true (a b : R) : Reqb a b = true <-> a = b.
Proof. unfold Reqb; destruct (Req_dec_T a b); split; intros; try easy. Qed.

Lemma Reqb_false (a b : R) : Reqb a b = false <-> a <> b.
Proof. unfold Reqb; destruct (Req_dec_T a b); split; intros; try easy. Qed.

Lemma ndiv_fin (a b : R) : b <> 0 -> ndiv (Fin a) (Fin b) = Fin (a / b).
Proof. intros Hb; unfold ndiv; now rewrite (proj2 (Reqb_false b 0) Hb). Qed.

Lemma floorZ_spec (r : R) : IZR (floorZ r) <= r < IZR (floorZ r) + 1.
Proof. unfold floorZ; destruct (base_Int_part r); lra. Qed.

Lemma floorZ_unique (r : R) (z : Z) : IZR z <= r < IZR z + 1 -> floorZ r = z.
Proof. intros H; unfold floorZ; symmetry; apply Int_part_spec; lra. Qed.

Lemma floorZ_IZR (z : Z) : floorZ (IZR z) = z.
Proof. apply floorZ_unique; lra. Qed.

Lemma floorZ_le (a b : R) : a <= b -> (floorZ a <= floorZ b)%Z.
Proof.
  intros Hab.
  destruct (floorZ_spec a) as [Ha _], (floorZ_spec b) as [_ Hb].
  apply Z.lt_succ_r, lt_IZR; rewrite succ_IZR; lra.
Qed.

Lemma floorZ_ge (r : R) (z : Z) : IZR z <= r -> (z <= floorZ r)%Z.
Proof. intros H; rewrite <- (floorZ_IZR z); now apply floorZ_le. Qed.

Lemma floorZ_lt (r : R) (z : Z) : r < IZR z -> (floorZ r < z)%Z.
Proof. intros H; destruct (floorZ_spec r); apply lt_IZR; lra. Qed.

Lemma ceilZ_IZR (z : Z) : ceilZ (IZR z) = z.
Proof. unfold ceilZ; rewrite <- opp_IZR; fold (floorZ (IZR (- z))); rewrite floorZ_IZR; lia. Qed.

Lemma lt_ceilZ (r : R) (k : Z) : (k < ceilZ r)%Z <-> IZR k < r.
Proof.
  unfold ceilZ; fold (floorZ (- r)).
  destruct (floorZ_spec (- r)) as [H1 H2].
  split; intros H.
  - assert (floorZ (- r) + 1 <= - k)%Z as Hz by lia.
    apply IZR_le in Hz; rewrite plus_IZR, opp_IZR in Hz; lra.
  - assert (floorZ (- r) < - k)%Z; [|lia].
    apply lt_IZR; rewrite opp_IZR; lra.
Qed.

(** ** Loops *)

Lemma iterate_Forall {A : Type} (P : A -> Prop) (body : Z -> outcome (list A)) (n : nat) :
  forall i : Z,
    (forall k, (i <= k < i + Z.of_nat n)%Z ->
               exists lk, body k = Returns lk /\ Forall P lk) ->
    exists l, iterate body i n = Returns l /\ Forall P l.
Proof.
  induction n as [|n IH]; intros i Hbody; cbn [iterate].
  - exists []; auto.
  - destruct (Hbody i) as (lk & Hk & HP); [lia|].
    destruct (IH (i + 1)%Z) as (l & Hl & HPl).
    { intros k Hk'; apply Hbody; lia. }
    rewrite Hk, Hl; cbn [bind]; exists (lk ++ l); split; [reflexivity|].
    apply Forall_app; auto.
Qed.

Lemma for_lt_Forall {A : Type} (P : A -> Prop) (r : R) (body : Z -> outcome (list A)) :
  (forall k, (0 <= k)%Z -> IZR k < r ->
             exists lk, body k = Returns lk /\ Forall P lk) ->
  exists l, for_lt (Fin r) body = Returns l /\ Forall P l.
Proof.
  intros Hbody; cbn [for_lt]; apply iterate_Forall.
  intros k Hk; apply Hbody; [lia|].
  apply lt_ceilZ; lia.
Qed.

Lemma push_Forall {A : Type} (P : A -> Prop) (a : A) :
  P a -> exists lk, push a = Returns lk /\ Forall P lk.
Proof. intros H; exists [a]; split; [reflexivity | now constructor]. Qed.

(** ** Containment in a rectangle *)

Lemma isInRectangle_inRect (w h : R) (p : Point) :
  PlantPlacer.isInRectangle p (Fin w) (Fin h) = true <-> inRect w h p.
Proof.
  unfold PlantPlacer.isInRectangle, inRect; rewrite !ndiv_fin by lra.
  destruct p as [[x| | |] [y| | |]]; cbn [pos_x pos_y Math_abs nle andb];
    rewrite ?andb_true_iff, ?Rleb_true, ?andb_false_r;
    (split; [intros H | intros (x' & y' & E & H); inversion E; subst]);
    try discriminate; try tauto; try (destruct H; discriminate).
  exists x, y; tauto.
Qed.

Ltac num_simpl :=
  repeat first
    [ rewrite ndiv_fin by lra
    | progress cbn [nneg nadd nsub nmul Math_floor ofZ Math_abs bind push] ].

Lemma grid_inRect (w h s : R) :
  0 < s ->
  exists pts, PlantPlacer.gridPattern w h s = Returns pts /\ Forall (inRect w h) pts.
Proof.
  intros Hs; unfold PlantPlacer.gridPattern; cbv zeta.
  num_simpl.
  pose proof (floorZ_spec (w / s)) as Hc.
  pose proof (floorZ_spec (h / s)) as Hr.
  assert (w / s * s = w) as Ew by (field; lra).
  assert (h / s * s = h) as Eh by (field; lra).
  apply for_lt_Forall; intros row Hrow0 Hrow.
  apply for_lt_Forall; intros col Hcol0 Hcol.
  num_simpl; apply push_Forall.
  apply lt_IZR, Zlt_le_succ, IZR_le in Hrow, Hcol; rewrite succ_IZR in Hrow, Hcol.
  apply IZR_le in Hrow0, Hcol0.
  eexists _, _; split; [reflexivity|].
  split; apply Rabs_le; nra.
Qed.

Lemma sqrt3_bounds : 1 < sqrt 3 < 2.
Proof.
  split.
  - rewrite <- sqrt_1 at 1; apply sqrt_lt_1; lra.
  - assert (sqrt 3 < sqrt (2 * 2)) as H by (apply sqrt_lt_1; lra).
    rewrite sqrt_square in H by lra; exact H.
Qed.

Lemma Math_sqrt_fin (r : R) : 0 <= r -> Math_sqrt (Fin r) = Fin (sqrt r).
Proof. intros H; cbn [Math_sqrt]; now rewrite (proj2 (Rltb_false r 0) H). Qed.

Lemma rem2_cases (row : Z) : (0 <= row)%Z -> Z.rem row 2 = 0%Z \/ Z.rem row 2 = 1%Z.
Proof. intros H; rewrite Z.rem_mod_nonneg by lia; pose proof (Z.mod_pos_bound row 2); lia. Qed.

Ltac hex_simpl :=
  repeat first
    [ rewrite Math_sqrt_fin by lra
    | rewrite ndiv_fin by (pose proof sqrt3_bounds; nra)
    | progress cbn [nneg nadd nsub nmul Math_floor ofZ Math_abs bind push] ].

Lemma hex_inRect (w h s : R) :
  0 < s ->
  exists pts, PlantPlacer.hexagonalPattern w h s = Returns pts /\ Forall (inRect w h) pts.
Proof.
  intros Hs; pose proof sqrt3_bounds as H3.
  unfold PlantPlacer.hexagonalPattern; cbv zeta.
  hex_simpl.
  set (vs := s * sqrt 3 / 2).
  assert (0 < vs) as Hvs by (unfold vs; nra).
  assert (s <= vs + s * (sqrt 3 - 1) / 2 + s / 2) as Hsv by (unfold vs; nra).
  pose proof (floorZ_spec (h / vs)) as Hr.
  assert (h / vs * vs = h) as Eh by (field; lra).
  apply for_lt_Forall; intros row Hrow0 Hrow.
  hex_simpl.
  set (offset := IZR (Z.rem row 2) * (s / 2)).
  assert (0 <= offset <= s / 2) as Hoff.
  { unfold offset; destruct (rem2_cases row Hrow0) as [E|E]; rewrite E; lra. }
  set (q := (w + - (s / 2) + - offset) / s).
  pose proof (floorZ_spec q) as Hc.
  assert (q * s = w - s / 2 - offset) as Eq by (unfold q; field; lra).
  apply for_lt_Forall; intros col Hcol0 Hcol.
  hex_simpl; apply push_Forall.
  apply lt_IZR, Zlt_le_succ, IZR_le in Hrow, Hcol; rewrite succ_IZR in Hrow, Hcol.
  apply IZR_le in Hrow0, Hcol0.
  eexists _, _; split; [reflexivity|].
  split; apply Rabs_le.
  - nra.
  - unfold vs in *; nra.
Qed.

Lemma gridV1_inRect (w h s : R) :
  0 < s ->
  exists pts, PlantPlacerV1.gridPattern w h s = Returns pts /\ Forall (inRect w h) pts.
Proof.
  intros Hs; unfold PlantPlacerV1.gridPattern; cbv zeta.
  num_simpl.
  pose proof (floorZ_spec (w / s)) as Hc.
  pose proof (floorZ_spec (h / s)) as Hr.
  assert (w / s * s = w) as Ew by (field; lra).
  assert (h / s * s = h) as Eh by (field; lra).
  apply for_lt_Forall; intros row Hrow0 Hrow.
  apply for_lt_Forall; intros col Hcol0 Hcol.
  num_simpl; apply push_Forall.
  apply lt_IZR, Zlt_le_succ, IZR_le in Hrow, Hcol; rewrite succ_IZR in Hrow, Hcol.
  apply IZR_le in Hrow0, Hcol0.
  eexists _, _; split; [reflexivity|].
  split; apply Rabs_le; nra.
Qed.

Lemma hexV1_inRect (w h s : R) :
  0 < s ->
  exists pts, PlantPlacerV1.hexagonalPattern w h s = Returns pts /\ Forall (inRect w h) pts.
Proof.
  intros Hs; pose proof sqrt3_bounds as H3.
  unfold PlantPlacerV1.hexagonalPattern; cbv zeta.
  hex_simpl.
  set (vs := s * sqrt 3 / 2).
  assert (0 < vs) as Hvs by (unfold vs; nra).
  pose proof (floorZ_spec (h / vs)) as Hr.
  assert (h / vs * vs = h) as Eh by (field; lra).
  apply for_lt_Forall; intros row Hrow0 Hrow.
  hex_simpl.
  set (offset := IZR (Z.rem row 2) * (s / 2)).
  assert (0 <= offset <= s / 2) as Hoff.
  { unfold offset; destruct (rem2_cases row Hrow0) as [E|E]; rewrite E; lra. }
  set (q := (w + - offset) / s).
  pose proof (floorZ_spec q) as Hc.
  assert (q * s = w - offset) as Eq by (unfold q; field; lra).
  apply for_lt_Forall; intros col Hcol0 Hcol.
  hex_simpl; apply push_Forall.
  apply lt_IZR, Zlt_le_succ, IZR_le in Hrow, Hcol; rewrite succ_IZR in Hrow, Hcol.
  apply IZR_le in Hrow0, Hcol0.
  eexists _, _; split; [reflexivity|].
  split; apply Rabs_le; nra.
Qed.

(** ** Containment in a disc *)

Lemma withinCircle_inDisc (r s : R) (p : Point) :
  PlantPlacer.withinCircle (Fin r) (Fin s) p = true <-> inDisc r s p.
Proof.
  unfold PlantPlacer.withinCircle, inDisc; cbv zeta; rewrite ndiv_fin by lra.
  destruct p as [[x| | |] [y| | |]];
    cbn [pos_x pos_y nmul nadd nsub nneg inf_scaled Math_sqrt nle];
    try (split; [discriminate | intros (x' & y' & E & _); discriminate]).
  rewrite (proj2 (Rltb_false (x * x + y * y) 0)) by nra.
  cbn [nle]; rewrite Rleb_true.
  split.
  - intros H; exists x, y; split; [reflexivity | lra].
  - intros (x' & y' & E & H); inversion E; subst; lra.
Qed.

Lemma yields_weaken (run : outcome (list Point)) (P Q : Point -> Prop) :
  (forall p, P p -> Q p) -> yields run P -> yields run Q.
Proof.
  intros HPQ (pts & E & H); exists pts; split; [exact E|].
  eapply Forall_impl; eauto.
Qed.

Lemma yields_filter (run : outcome (list Point)) (f : Point -> bool) (P Q : Point -> Prop) :
  (forall p, P p -> f p = true -> Q p) ->
  yields run P ->
  yields (positions <- run ;; Returns (filter f positions)) Q.
Proof.
  intros HQ (pts & E & H); exists (filter f pts); rewrite E; split; [reflexivity|].
  rewrite Forall_forall in *; intros p Hp; apply filter_In in Hp as [Hin Hf]; auto.
Qed.

Lemma placeInRectangle_inRect (w h s : R) (pattern : string) :
  0 < s -> yields (PlantPlacer.placeInRectangle w h s pattern) (inRect w h).
Proof.
  intros Hs; unfold PlantPlacer.placeInRectangle.
  destruct (is_hexagonal pattern); [now apply hex_inRect | now apply grid_inRect].
Qed.

Lemma placeInRectangleV1_inRect (w h s : R) (pattern : string) :
  0 < s -> yields (PlantPlacerV1.placeInRectangle w h s pattern) (inRect w h).
Proof.
  intros Hs; unfold PlantPlacerV1.placeInRectangle.
  destruct (is_hexagonal pattern); [now apply hexV1_inRect | now apply gridV1_inRect].
Qed.

Lemma placeInCircle_inDisc (radius s : R) (pattern : string) :
  0 < s -> yields (PlantPlacer.placeInCircle radius s pattern) (inDisc radius s).
Proof.
  intros Hs; unfold PlantPlacer.placeInCircle; cbv zeta; cbn [nmul].
  apply yields_filter with (P := inRect (radius * 2) (radius * 2)).
  - intros p _ Hp; now apply withinCircle_inDisc.
  - destruct (is_hexagonal pattern); [now apply hex_inRect | now apply grid_inRect].
Qed.

Lemma placeInCircleV1_inDisc (radius s : R) (pattern : string) :
  0 < s -> yields (PlantPlacerV1.placeInCircle radius s pattern) (inDisc radius s).
Proof.
  intros Hs; unfold PlantPlacerV1.placeInCircle; cbv zeta; cbn [nmul].
  apply yields_filter with (P := inRect (radius * 2) (radius * 2)).
  - intros p _ Hp; now apply withinCircle_inDisc.
  - destruct (is_hexagonal pattern); [now apply hexV1_inRect | now apply gridV1_inRect].
Qed.

(** C1. For every container and every spacing > 0, each rectangle generator
    ([gridPattern], [hexagonalPattern], and [placeInRectangle] for any
    pattern) returns, and every returned point has |x| <= width/2 and
    |y| <= height/2; [placeInCircle] returns, and every returned point lies
    at Euclidean distance at most radius - spacing/2 from the origin.  This
    holds in both revisions of the class. *)
Theorem C1_generated_points_are_contained
  (width height radius spacing : R) (pattern : string) :
  0 < spacing ->
  (yields (PlantPlacer.gridPattern width height spacing) (inRect width height) /\
   yields (PlantPlacer.hexagonalPattern width height spacing) (inRect width height) /\
   yields (PlantPlacer.placeInRectangle width height spacing pattern) (inRect width height) /\
   yields (PlantPlacer.placeInCircle radius spacing pattern) (inDisc radius spacing)) /\
  (yields (PlantPlacerV1.gridPattern width height spacing) (inRect width height) /\
   yields (PlantPlacerV1.hexagonalPattern width height spacing) (inRect width height) /\
   yields (PlantPlacerV1.placeInRectangle width height spacing pattern) (inRect width height) /\
   yields (PlantPlacerV1.placeInCircle radius spacing pattern) (inDisc radius spacing)).
Proof.
  intros Hs; repeat split.
  - now apply grid_inRect.
  - now apply hex_inRect.
  - now apply placeInRectangle_inRect.
  - now apply placeInCircle_inDisc.
  - now apply gridV1_inRect.
  - now apply hexV1_inRect.
  - now apply placeInRectangleV1_inRect.
  - now apply placeInCircleV1_inDisc.
Qed.

Lemma C1_witness :
  0 < 12 /\
  yields (PlantPlacer.gridPattern 48 96 12) (inRect 48 96) /\
  yields (PlantPlacer.placeInCircle 24 12 "hexagonal") (inDisc 24 12).
Proof.
  pose proof (C1_generated_points_are_contained 48 96 24 12 "hexagonal") as H.
  split; [lra|].
  destruct H as [(Hg & _ & _ & Hc) _]; [lra|].
  split; assumption.
Defined.

(** ** The layered conflict filter *)

Lemma Math_max_fin (a b : R) : Math_max (Fin a) (Fin b) = Fin (Rmax a b).
Proof.
  cbn [Math_max nle]; unfold Rmax, Rleb; now destruct (Rle_dec a b).
Qed.

Lemma Math_min_fin (a b : R) : Math_min (Fin a) (Fin b) = Fin (Rmin a b).
Proof.
  cbn [Math_min nle]; unfold Rmin, Rleb; now destruct (Rle_dec a b).
Qed.

Lemma distanceTo_fin (cx cy qx qy : R) (s : num) :
  PlantPlacer.distanceTo (mkPoint (Fin cx) (Fin cy)) (mkPlaced (Fin qx) (Fin qy) s)
  = Fin (distR cx cy qx qy).
Proof.
  unfold PlantPlacer.distanceTo, Math_pow2, distR.
  cbn [pos_x pos_y ex_x ex_y nsub nneg nadd nmul].
  rewrite Math_sqrt_fin; [reflexivity|].
  apply Rplus_le_le_0_compat; apply Rle_0_sqr.
Qed.


Lemma filterByInterLayerSpacing_incl (candidates : list Point) (s : num)
  (previousLayers : option (list PlantGroup)) :
  incl (PlantPlacer.filterByInterLayerSpacing candidates s previousLayers) candidates.
Proof.
  unfold PlantPlacer.filterByInterLayerSpacing.
  destruct previousLayers as [[|l ls]|]; try apply incl_refl.
  destruct (Nat.eqb _ 0); [apply incl_refl|].
  intros p Hp; now apply filter_In in Hp.
Qed.


(** ** Strips *)

Lemma limitRows_fin (method : string) (value : num) (n : R) :
  exists m : R, PlantPlacer.limitRows method value (Fin n) = Fin m.
Proof.
  unfold PlantPlacer.limitRows, ngt.
  destruct value as [v| | |]; cbn [nlt Math_min nle];
    rewrite ?andb_false_r; try (now exists n).
  - destruct (is_method method "rows" && Rltb 0 v); [|now exists n].
    destruct (Rleb v n); eauto.
  - destruct (is_method method "rows" && true); now exists n.
Qed.

Lemma nil_Forall {A : Type} (P : A -> Prop) :
  exists lk : list A, Returns [] = Returns lk /\ Forall P lk.
Proof. exists []; split; [reflexivity | constructor]. Qed.

Ltac strip_simpl :=
  unfold nge, ngt;
  repeat first
    [ rewrite Math_sqrt_fin by lra
    | rewrite ndiv_fin by (pose proof sqrt3_bounds; nra)
    | progress cbn [nneg nadd nsub nmul nle nlt Math_floor ofZ Math_abs bind push] ].

Lemma generateGridInHorizontalStrip_inStrip
  (w sh s top bottom : R) (method : string) (value : num) :
  s <> 0 ->
  yields (PlantPlacer.generateGridInHorizontalStrip w sh s top bottom method value)
         (inStripY top bottom).
Proof.
  intros Hs; unfold PlantPlacer.generateGridInHorizontalStrip; cbv zeta.
  strip_simpl.
  destruct (limitRows_fin method value (IZR (floorZ (sh / s)))) as [m ->].
  apply for_lt_Forall; intros row _ _.
  strip_simpl.
  match goal with |- context [if ?c then _ else _] => destruct c eqn:Hc end;
    [|apply nil_Forall].
  apply andb_true_iff in Hc as [H1 H2]; apply Rleb_true in H1, H2.
  apply for_lt_Forall; intros col _ _.
  strip_simpl; apply push_Forall.
  eexists _, _; split; [reflexivity | lra].
Qed.

Lemma generateHexInHorizontalStrip_inStrip
  (w sh s top bottom : R) (method : string) (value : num) :
  s <> 0 ->
  yields (PlantPlacer.generateHexInHorizontalStrip w sh s top bottom method value)
         (inStripY top bottom).
Proof.
  intros Hs; unfold PlantPlacer.generateHexInHorizontalStrip; cbv zeta.
  strip_simpl.
  destruct (limitRows_fin method value (IZR (floorZ (sh / (s * sqrt 3 / 2))))) as [m ->].
  apply for_lt_Forall; intros row _ _.
  strip_simpl.
  match goal with |- context [if ?c then _ else _] => destruct c eqn:Hc end;
    [|apply nil_Forall].
  apply andb_true_iff in Hc as [H1 H2]; apply Rleb_true in H1, H2.
  apply for_lt_Forall; intros col _ _.
  strip_simpl; apply push_Forall.
  eexists _, _; split; [reflexivity | lra].
Qed.



Lemma morePlants_Forall (P : Point -> Prop) (gridPositions hexPositions : list Point) :
  Forall P gridPositions -> Forall P hexPositions ->
  Forall P (PlantPlacer.morePlants gridPositions hexPositions).
Proof. intros Hg Hh; unfold PlantPlacer.morePlants; now destruct (_ <? _)%nat. Qed.

Lemma yields_morePlants (grid hex : outcome (list Point)) (P : Point -> Prop) :
  yields grid P -> yields hex P ->
  yields (gridPositions <- grid ;; hexPositions <- hex ;;
          Returns (PlantPlacer.morePlants gridPositions hexPositions)) P.
Proof.
  intros (g & -> & Hg) (x & -> & Hx); cbn [bind].
  eexists; split; [reflexivity | now apply morePlants_Forall].
Qed.

(** ** Rings *)

Ltac ring_simpl :=
  repeat first
    [ rewrite Math_max_fin
    | rewrite ndiv_fin by
        (try lra; match goal with |- context [Rmax ?a ?b] =>
                    pose proof (Rmax_l a b); lra end)
    | progress cbn [nneg nadd nsub nmul Math_floor Math_cos Math_sin Math_PI ofZ
                    bind push b_start b_end] ].

Lemma ringPositions_onSubRing (radius s a b : R) (limit : num -> num) :
  s <> 0 ->
  (forall n : R, exists m : R, limit (Fin n) = Fin m) ->
  yields (PlantPlacer.ringPositions radius s (mkBounds a b) limit)
         (onSubRing radius s a b).
Proof.
  intros Hs Hlimit; unfold PlantPlacer.ringPositions; cbv zeta.
  ring_simpl.
  apply for_lt_Forall; intros k Hk0 Hk.
  ring_simpl.
  match goal with |- context [limit (Fin ?n)] => destruct (Hlimit n) as [m ->] end.
  apply for_lt_Forall; intros i Hi0 Hi.
  apply IZR_le in Hi0.
  rewrite ndiv_fin by lra.
  ring_simpl; apply push_Forall.
  exists k; split; [exact Hk0|]; split.
  - unfold subRings; replace (radius * b - radius * a)
      with (radius * b + - (radius * a)) by ring; exact Hk.
  - eexists; unfold subRingRadius, subRings.
    replace (radius * b - radius * a) with (radius * b + - (radius * a)) by ring.
    reflexivity.
Qed.

Lemma onRing_dist (rho : R) (p : Point) :
  0 <= rho -> onRing rho p ->
  exists x y : R, p = mkPoint (Fin x) (Fin y) /\ sqrt (x * x + y * y) = rho.
Proof.
  intros Hrho (theta & ->); eexists _, _; split; [reflexivity|].
  replace (cos theta * rho * (cos theta * rho) + sin theta * rho * (sin theta * rho))
    with ((Rsqr (sin theta) + Rsqr (cos theta)) * (rho * rho)) by (unfold Rsqr; ring).
  rewrite sin2_cos2, Rmult_1_l; now apply sqrt_square.
Qed.

(** ** The layered path *)

Lemma firstn_incl {A : Type} (n : nat) (l : list A) : incl (firstn n l) l.
Proof.
  intros a Ha; rewrite <- (firstn_skipn n l); apply in_or_app; now left.
Qed.

Lemma slice0_incl {A : Type} (l : list A) (e : num) : incl (slice0 l e) l.
Proof.
  unfold slice0; destruct e as [r| | |]; try apply incl_refl; try apply incl_nil_l.
  cbv zeta; destruct (_ <? 0)%Z; apply firstn_incl.
Qed.

Lemma applyFillMethod_incl (positions : list Point) (method : string) (value : num) :
  incl (PlantPlacer.applyFillMethod positions method value) positions.
Proof.
  unfold PlantPlacer.applyFillMethod.
  repeat match goal with
         | |- context [if ?c then _ else _] => destruct c
         end; try apply incl_refl; apply slice0_incl.
Qed.

Lemma finishLayer_incl (positions : list Point) (spacing : num) (method : string)
  (value : num) (previousLayers : option (list PlantGroup)) :
  incl (PlantPlacer.finishLayer positions spacing method value previousLayers)
       (PlantPlacer.filterByInterLayerSpacing positions spacing previousLayers).
Proof.
  unfold PlantPlacer.finishLayer; cbv zeta.
  destruct (is_method method "rows"); [apply incl_refl | apply applyFillMethod_incl].
Qed.










(** ** Region bounds *)

Lemma element_map_Fin (bs : list R) (i : nat) :
  (i < List.length bs)%nat -> element (map Fin bs) (Z.of_nat i) = Fin (nth i bs 0).
Proof.
  intros Hi; unfold element.
  destruct (Z.ltb_spec (Z.of_nat i) 0); [lia|].
  rewrite Nat2Z.id, (nth_indep _ NaN (Fin 0)) by (now rewrite length_map).
  apply map_nth.
Qed.

Lemma getRegionBounds_eq (groups : list PlantGroup) (bs : list R) (i : nat) :
  (List.length bs + 1 = List.length groups)%nat ->
  (i < List.length groups)%nat ->
  getRegionBounds (bedWith groups bs) (Z.of_nat i)
  = mkBounds (Fin (regionStart bs i)) (Fin (regionEnd (List.length groups) bs i)).
Proof.
  intros Hlen Hi; unfold getRegionBounds, bedWith, regionEnd; cbn [plantGroups regionBoundaries].
  destruct (Z.eqb_spec (Z.of_nat (List.length groups)) 1) as [E1|E1].
  - assert (i = 0%nat) as -> by lia.
    assert ((S 0 =? List.length groups)%nat = true) as -> by (apply Nat.eqb_eq; lia).
    reflexivity.
  - f_equal.
    + destruct i as [|j]; [reflexivity|].
      destruct (Z.eqb_spec (Z.of_nat (S j)) 0); [lia|].
      replace (Z.of_nat (S j) - 1)%Z with (Z.of_nat j) by lia.
      cbn [regionStart]; apply element_map_Fin; lia.
    + destruct (Nat.eqb_spec (S i) (List.length groups)) as [E|E].
      * destruct (Z.eqb_spec (Z.of_nat i) (Z.of_nat (List.length groups) - 1)); [reflexivity | lia].
      * destruct (Z.eqb_spec (Z.of_nat i) (Z.of_nat (List.length groups) - 1)); [lia|].
        apply element_map_Fin; lia.
Qed.

Section Tiling.
Variables (n : nat) (bs : list R).
Hypothesis Hvalid : validBoundaries n bs.

Lemma boundary_range (i : nat) : (i < List.length bs)%nat -> 0 < nth i bs 0 < 1.
Proof.
  destruct Hvalid as (_ & Hrange & _); intros Hi.
  rewrite Forall_forall in Hrange; apply Hrange, nth_In, Hi.
Qed.

Lemma boundary_mono (i j : nat) :
  (i <= j)%nat -> (j < List.length bs)%nat -> nth i bs 0 <= nth j bs 0.
Proof.
  destruct Hvalid as (_ & _ & Hasc).
  induction 1 as [|j Hij IH]; intros Hj; [lra|].
  specialize (Hasc j Hj); specialize (IH ltac:(lia)); lra.
Qed.

Lemma region_nonempty (i : nat) :
  (i < n)%nat -> 0 <= regionStart bs i < regionEnd n bs i /\ regionEnd n bs i <= 1.
Proof.
  pose proof Hvalid as (Hlen & _ & Hasc); intros Hi; unfold regionEnd.
  destruct (Nat.eqb_spec (S i) n) as [E|E].
  - destruct i as [|j]; cbn [regionStart]; [lra|].
    pose proof (boundary_range j ltac:(lia)); lra.
  - pose proof (boundary_range i ltac:(lia)).
    destruct i as [|j]; cbn [regionStart]; [lra|].
    pose proof (boundary_range j ltac:(lia)).
    specialize (Hasc j ltac:(lia)); lra.
Qed.

Lemma region_adjacent (i : nat) :
  (S i < n)%nat -> regionEnd n bs i = regionStart bs (S i).
Proof.
  intros Hi; unfold regionEnd.
  destruct (Nat.eqb_spec (S i) n); [lia | reflexivity].
Qed.

Lemma region_ordered (i j : nat) :
  (i < j < n)%nat -> regionEnd n bs i <= regionStart bs j.
Proof.
  pose proof Hvalid as (Hlen & _ & _); intros Hij; unfold regionEnd.
  destruct (Nat.eqb_spec (S i) n); [lia|].
  destruct j as [|j]; [lia|]; cbn [regionStart].
  apply boundary_mono; lia.
Qed.

Lemma region_cover_from (x : R) (d k : nat) :
  (k + d + 1 = n)%nat -> regionStart bs k <= x <= 1 ->
  exists i, (i < n)%nat /\ regionStart bs i <= x <= regionEnd n bs i.
Proof.
  revert k; induction d as [|d IH]; intros k Hk Hx.
  - exists k; split; [lia|]; unfold regionEnd.
    destruct (Nat.eqb_spec (S k) n); [lra | lia].
  - destruct (Rle_dec x (regionEnd n bs k)) as [Hle|Hgt].
    + exists k; split; [lia | lra].
    + apply (IH (S k)); [lia|].
      rewrite <- region_adjacent by lia; lra.
Qed.

Lemma region_cover (x : R) :
  (1 <= n)%nat -> 0 <= x <= 1 ->
  exists i, (i < n)%nat /\ regionStart bs i <= x <= regionEnd n bs i.
Proof.
  intros Hn Hx; apply (region_cover_from x (n - 1) 0); [lia | exact Hx].
Qed.
End Tiling.

(** C3. For N >= 1 groups and a boundary set of N - 1 strictly ascending
    values in (0,1), [getRegionBounds] gives group i the bounds of the
    specification (start 0 for i = 0, else boundaries[i-1]; end 1 for the
    last group, else boundaries[i]), and these tile [0,1]: region 0 starts at
    0, the last region ends at 1, each region is a non-empty interval whose
    end is the start of the next, every point of [0,1] lies in a region, and
    a later region starts no earlier than an earlier one ends. *)
Theorem C3_region_bounds_tile_unit_interval (groups : list PlantGroup) (bs : list R) :
  let n := List.length groups in
  let region i := getRegionBounds (bedWith groups bs) (Z.of_nat i) in
  (1 <= n)%nat ->
  validBoundaries n bs ->
  (forall i, (i < n)%nat ->
     region i = mkBounds (Fin (regionStart bs i)) (Fin (regionEnd n bs i)) /\
     0 <= regionStart bs i < regionEnd n bs i /\ regionEnd n bs i <= 1) /\
  b_start (region 0%nat) = Fin 0 /\
  b_end (region (n - 1)%nat) = Fin 1 /\
  (forall i, (S i < n)%nat -> b_end (region i) = b_start (region (S i))) /\
  (forall x, 0 <= x <= 1 ->
     exists i, (i < n)%nat /\ regionStart bs i <= x <= regionEnd n bs i) /\
  (forall i j, (i < j < n)%nat -> regionEnd n bs i <= regionStart bs j).
Proof.
  intros n region Hn Hvalid.
  pose proof Hvalid as (Hlen & _).
  assert (forall i, (i < n)%nat ->
            region i = mkBounds (Fin (regionStart bs i)) (Fin (regionEnd n bs i))) as Hreg.
  { intros i Hi; apply getRegionBounds_eq; assumption. }
  repeat split.
  - now apply Hreg.
  - now apply (region_nonempty n bs Hvalid).
  - now apply (region_nonempty n bs Hvalid).
  - now apply (region_nonempty n bs Hvalid).
  - rewrite Hreg by lia; reflexivity.
  - rewrite Hreg by lia; cbn [b_end]; unfold regionEnd.
    destruct (Nat.eqb_spec (S (n - 1)) n); [reflexivity | lia].
  - intros i Hi; rewrite !Hreg by lia; cbn [b_start b_end].
    f_equal; now apply (region_adjacent n bs).
  - intros x Hx; now apply (region_cover n bs).
  - intros i j Hij; now apply (region_ordered n bs Hvalid).
Qed.

Lemma C3_witness :
  let groups := [mkGroup 12 None; mkGroup 12 None; mkGroup 6 None] in
  let bs := [0.25; 0.75] in
  validBoundaries 3 bs /\
  getRegionBounds (bedWith groups bs) 1%Z = mkBounds (Fin 0.25) (Fin 0.75) /\
  b_end (getRegionBounds (bedWith groups bs) 0%Z)
  = b_start (getRegionBounds (bedWith groups bs) 1%Z).
Proof.
  intros groups bs.
  assert (validBoundaries 3 bs) as Hvalid.
  { split; [reflexivity|]; split.
    - repeat constructor; lra.
    - intros [|[|i]] Hi; cbn in Hi |- *; try lia; lra. }
  split; [exact Hvalid|].
  destruct (C3_region_bounds_tile_unit_interval groups bs) as (Hreg & _ & _ & Hadj & _);
    [cbn; lia | exact Hvalid |].
  split.
  - exact (proj1 (Hreg 1%nat ltac:(cbn; lia))).
  - exact (Hadj 0%nat ltac:(cbn; lia)).
Defined.

(** ** Region mode on a horizontal bed *)

Lemma placeInHorizontalRegion_inStrip (width height s a b : R) :
  s <> 0 ->
  yields (PlantPlacer.placeInHorizontalRegion width height s (mkBounds a b))
         (inStripY (- height / 2 + a * height)
                   (- height / 2 + a * height + height * (b - a))).
Proof.
  intros Hs; unfold PlantPlacer.placeInHorizontalRegion.
  cbn [b_start b_end]; num_simpl.
  apply yields_morePlants.
  - now apply generateGridInHorizontalStrip_inStrip.
  - now apply generateHexInHorizontalStrip_inStrip.
Qed.

(** C4. On a horizontal rectangular bed (width > height) holding two groups
    of spacing 12 whose regions are split at boundary 0.5, region-mode
    placement returns for the first group only points with y in
    [-height/2, 0] and for the second only points with y in [0, height/2]:
    no point of either group lies past the divider. *)
Theorem C4_two_groups_split_at_half (width height radius : R) (g1 g2 : PlantGroup) :
  height < width ->
  g_spacing g1 = Fin 12 ->
  g_spacing g2 = Fin 12 ->
  let bed := bedWith [g1; g2] [0.5] in
  let isHorizontal := (Fin width >? Fin height)%num in
  yields (PlantPlacer.placeInRegion width height (g_spacing g1) false radius
            isHorizontal (getRegionBounds bed 0%Z))
         (inStripY (- height / 2) 0) /\
  yields (PlantPlacer.placeInRegion width height (g_spacing g2) false radius
            isHorizontal (getRegionBounds bed 1%Z))
         (inStripY 0 (height / 2)).
Proof.
  intros Hwh -> -> bed isHorizontal.
  assert (isHorizontal = true) as -> by (apply Rltb_true; exact Hwh).
  change (getRegionBounds bed 0%Z) with (mkBounds (Fin 0) (Fin 0.5)).
  change (getRegionBounds bed 1%Z) with (mkBounds (Fin 0.5) (Fin 1)).
  unfold PlantPlacer.placeInRegion; split.
  - eapply yields_weaken; [|apply placeInHorizontalRegion_inStrip; lra].
    intros p (x & y & -> & Hy); exists x, y; split; [reflexivity | lra].
  - eapply yields_weaken; [|apply placeInHorizontalRegion_inStrip; lra].
    intros p (x & y & -> & Hy); exists x, y; split; [reflexivity | lra].
Qed.

Lemma C4_witness :
  let g := mkGroup 12 None in
  let bed := bedWith [g; g] [0.5] in
  (48 < 96 /\ g_spacing g = Fin 12) /\
  yields (PlantPlacer.placeInRegion 96 48 12 false 0 (Fin 96 >? Fin 48)%num
            (getRegionBounds bed 0%Z))
         (inStripY (- 48 / 2) 0).
Proof.
  intros g bed; split; [split; [lra | reflexivity]|].
  apply (C4_two_groups_split_at_half 96 48 0 g g); [lra | reflexivity | reflexivity].
Defined.

(** ** Counting the points of a loop *)

Lemma length_indices (n : nat) : forall i, List.length (indices i n) = n.
Proof. induction n; intros i; cbn; auto. Qed.

Lemma In_indices (n : nat) : forall i k, In k (indices i n) <-> (i <= k < i + Z.of_nat n)%Z.
Proof.
  induction n as [|n IH]; intros i k; cbn [indices In].
  - lia.
  - rewrite IH; lia.
Qed.

Lemma iterate_exact {A : Type} (body : Z -> outcome (list A)) (f : Z -> list A) (n : nat) :
  forall i,
    (forall k, (i <= k < i + Z.of_nat n)%Z -> body k = Returns (f k)) ->
    iterate body i n = Returns (flat_map f (indices i n)).
Proof.
  induction n as [|n IH]; intros i Hbody; cbn [iterate indices flat_map]; [reflexivity|].
  rewrite Hbody by lia.
  rewrite (IH (i + 1)%Z) by (intros k Hk; apply Hbody; lia).
  reflexivity.
Qed.

Lemma for_lt_exact {A : Type} (r : R) (body : Z -> outcome (list A)) (f : Z -> list A) :
  (forall k, (0 <= k)%Z -> IZR k < r -> body k = Returns (f k)) ->
  for_lt (Fin r) body = Returns (flat_map f (indices 0 (trips r))).
Proof.
  intros Hbody; cbn [for_lt]; apply iterate_exact.
  intros k Hk; apply Hbody; [lia|].
  apply lt_ceilZ; unfold trips in Hk; lia.
Qed.

Lemma trips_IZR (z : Z) : trips (IZR z) = Z.to_nat z.
Proof. unfold trips; now rewrite ceilZ_IZR. Qed.

Lemma In_trips (r : R) (k : Z) : In k (indices 0 (trips r)) <-> (0 <= k)%Z /\ IZR k < r.
Proof.
  rewrite In_indices, <- lt_ceilZ; unfold trips; lia.
Qed.

Lemma length_flat_map_const {A B : Type} (f : A -> list B) (c : nat) (l : list A) :
  (forall a, In a l -> List.length (f a) = c) ->
  List.length (flat_map f l) = (List.length l * c)%nat.
Proof.
  induction l as [|a l IH]; intros H; cbn [flat_map List.length]; [reflexivity|].
  rewrite length_app, (H a (or_introl eq_refl)).
  rewrite IH by (intros b Hb; apply H; now right); lia.
Qed.

Lemma length_flat_map_ge {A B : Type} (f : A -> list B) (c : nat) (l : list A) :
  (forall a, In a l -> (c <= List.length (f a))%nat) ->
  (List.length l * c <= List.length (flat_map f l))%nat.
Proof.
  induction l as [|a l IH]; intros H; cbn [flat_map List.length]; [lia|].
  rewrite length_app.
  specialize (H a (or_introl eq_refl)) as Ha.
  specialize (IH (fun b Hb => H b (or_intror Hb))); lia.
Qed.

Lemma half_succ_succ (n : nat) : ((n + 2) / 2 = n / 2 + 1)%nat.
Proof. replace (n + 2)%nat with (n + 1 * 2)%nat by lia; now rewrite Nat.div_add. Qed.

Lemma length_alternating {A : Type} (f : Z -> list A) (a b : nat) :
  (forall k, (0 <= k)%Z -> List.length (f k) = if Z.even k then a else b) ->
  forall (n : nat) (i : Z),
    (0 <= i)%Z ->
    List.length (flat_map f (indices i n))
    = if Z.even i then (((n + 1) / 2) * a + (n / 2) * b)%nat
      else ((n / 2) * a + ((n + 1) / 2) * b)%nat.
Proof.
  intros Hf; induction n as [|n IH]; intros i Hi.
  - cbn [indices flat_map List.length]; destruct (Z.even i); reflexivity.
  - cbn [indices flat_map]; rewrite length_app, Hf, (IH (i + 1)%Z) by lia.
    replace (i + 1)%Z with (Z.succ i) by lia; rewrite Z.even_succ, <- Z.negb_even.
    replace (S n + 1)%nat with (n + 2)%nat by lia; rewrite half_succ_succ.
    replace (S n) with (n + 1)%nat by lia.
    destruct (Z.even i); cbn [negb]; lia.
Qed.

Lemma rem2_even (row : Z) : (0 <= row)%Z -> Z.rem row 2 = if Z.even row then 0%Z else 1%Z.
Proof.
  intros H; rewrite Z.rem_mod_nonneg by lia.
  rewrite Zmod_even; reflexivity.
Qed.

Lemma for_lt_push (cols : R) (point : Z -> Point) :
  for_lt (Fin cols) (fun col => push (point col)) = Returns (rowOf point cols).
Proof. now apply for_lt_exact. Qed.

Lemma length_rowOf (point : Z -> Point) (cols : R) :
  List.length (rowOf point cols) = trips cols.
Proof.
  unfold rowOf; rewrite length_flat_map_const with (c := 1%nat) by reflexivity.
  rewrite length_indices; lia.
Qed.

Lemma gridPattern_exact (w h s : R) :
  s <> 0 -> PlantPlacer.gridPattern w h s = Returns (gridPoints w h s).
Proof.
  intros Hs; unfold PlantPlacer.gridPattern, gridPoints; cbv zeta.
  num_simpl.
  apply for_lt_exact; intros row _ _.
  rewrite <- for_lt_push; reflexivity.
Qed.

Lemma length_gridPoints (w h s : R) :
  List.length (gridPoints w h s)
  = (Z.to_nat (floorZ (h / s)) * Z.to_nat (floorZ (w / s)))%nat.
Proof.
  unfold gridPoints.
  rewrite length_flat_map_const with (c := Z.to_nat (floorZ (w / s))).
  - now rewrite length_indices, trips_IZR.
  - intros row _; now rewrite length_rowOf, trips_IZR.
Qed.

(** The example of the specification: a 48 x 96 rectangle with spacing 12
    holds 4 columns x 8 rows = 32 grid points. *)
Example grid_48_96_12 :
  exists pts, PlantPlacer.gridPattern 48 96 12 = Returns pts /\ List.length pts = 32%nat.
Proof.
  exists (gridPoints 48 96 12); split; [apply gridPattern_exact; lra|].
  rewrite length_gridPoints.
  assert (floorZ (96 / 12) = 8%Z) as -> by (apply floorZ_unique; lra).
  assert (floorZ (48 / 12) = 4%Z) as -> by (apply floorZ_unique; lra).
  reflexivity.
Qed.

Lemma hexagonalPattern_exact (w h s : R) :
  s <> 0 -> PlantPlacer.hexagonalPattern w h s = Returns (hexPoints w h s).
Proof.
  intros Hs; unfold PlantPlacer.hexagonalPattern, hexPoints; cbv zeta.
  hex_simpl.
  apply for_lt_exact; intros row _ _.
  hex_simpl.
  rewrite <- for_lt_push; reflexivity.
Qed.

Lemma gridPatternV1_exact (w h s : R) :
  s <> 0 -> PlantPlacerV1.gridPattern w h s = Returns (gridPointsV1 w h s).
Proof.
  intros Hs; unfold PlantPlacerV1.gridPattern, gridPointsV1; cbv zeta.
  num_simpl.
  apply for_lt_exact; intros row _ _.
  rewrite <- for_lt_push; reflexivity.
Qed.

Lemma hexagonalPatternV1_exact (w h s : R) :
  s <> 0 -> PlantPlacerV1.hexagonalPattern w h s = Returns (hexPointsV1 w h s).
Proof.
  intros Hs; unfold PlantPlacerV1.hexagonalPattern, hexPointsV1; cbv zeta.
  hex_simpl.
  apply for_lt_exact; intros row _ _.
  hex_simpl.
  rewrite <- for_lt_push; reflexivity.
Qed.

Lemma length_gridPointsV1 (w h s : R) :
  List.length (gridPointsV1 w h s)
  = (Z.to_nat (floorZ (h / s)) * Z.to_nat (floorZ (w / s)))%nat.
Proof.
  unfold gridPointsV1; cbv zeta.
  rewrite length_flat_map_const with (c := Z.to_nat (floorZ (w / s))).
  - now rewrite length_indices, trips_IZR.
  - intros row _; now rewrite length_rowOf, trips_IZR.
Qed.

Lemma sqrt3_tight : 1.7 < sqrt 3 < 1.8.
Proof.
  split.
  - assert (sqrt (1.7 * 1.7) < sqrt 3) as H by (apply sqrt_lt_1; lra).
    rewrite sqrt_square in H by lra; exact H.
  - assert (sqrt 3 < sqrt (1.8 * 1.8)) as H by (apply sqrt_lt_1; lra).
    rewrite sqrt_square in H by lra; exact H.
Qed.

Lemma hex_rows_ge_grid_rows (h s : R) :
  0 < s -> 0 <= h -> (floorZ (h / s) <= floorZ (h / (s * sqrt 3 / 2)))%Z.
Proof.
  intros Hs Hh; pose proof sqrt3_bounds as H3.
  apply floorZ_le; unfold Rdiv at 1 3.
  apply Rmult_le_compat_l; [exact Hh|].
  apply Rinv_le_contravar; nra.
Qed.

Lemma length_hexPoints (w h s : R) :
  List.length (hexPoints w h s) = hexCapacity w h s.
Proof.
  unfold hexPoints, hexCapacity; cbv zeta.
  rewrite trips_IZR.
  rewrite (length_alternating _ (Z.to_nat (floorZ ((w - s / 2) / s)))
             (Z.to_nat (floorZ ((w - s) / s)))) by
    (try lia; intros k Hk; rewrite length_rowOf, trips_IZR; unfold hexCols;
     rewrite (rem2_even k Hk); destruct (Z.even k); do 2 f_equal; lra).
  reflexivity.
Qed.

Lemma length_hexPointsV1 (w h s : R) :
  List.length (hexPointsV1 w h s) = hexCapacityV1 w h s.
Proof.
  unfold hexPointsV1, hexCapacityV1; cbv zeta.
  rewrite trips_IZR.
  rewrite (length_alternating _ (Z.to_nat (floorZ (w / s)))
             (Z.to_nat (floorZ ((w - s / 2) / s)))) by
    (try lia; intros k Hk; rewrite length_rowOf, trips_IZR; unfold hexColsV1;
     rewrite (rem2_even k Hk); destruct (Z.even k); do 2 f_equal; lra).
  reflexivity.
Qed.

(** A row shifted by half a spacing holds as many points as a grid row, or
    one fewer. *)
Lemma offset_row_cols (w s : R) :
  0 < s -> (floorZ (w / s) - 1 <= floorZ ((w - s / 2) / s) <= floorZ (w / s))%Z.
Proof.
  intros Hs.
  assert ((w - s / 2) / s = w / s - 1 / 2) as -> by (field; lra).
  pose proof (floorZ_spec (w / s)) as [Hc _].
  split.
  - apply floorZ_ge; rewrite minus_IZR; lra.
  - apply floorZ_le; lra.
Qed.

(** It holds as many when the width leaves at least half a spacing over. *)
Lemma offset_row_full (w s : R) :
  0 < s -> 1 / 2 <= w / s - IZR (floorZ (w / s)) ->
  floorZ ((w - s / 2) / s) = floorZ (w / s).
Proof.
  intros Hs Hfrac.
  assert ((w - s / 2) / s = w / s - 1 / 2) as -> by (field; lra).
  pose proof (floorZ_spec (w / s)) as [_ Hc].
  apply floorZ_unique; lra.
Qed.

Lemma halves_sum (n : nat) : ((n + 1) / 2 + n / 2 = n)%nat.
Proof.
  pose proof (Nat.div_mod_eq n 2); pose proof (Nat.div_mod_eq (n + 1) 2).
  pose proof (Nat.mod_upper_bound n 2 ltac:(lia)).
  pose proof (Nat.mod_upper_bound (n + 1) 2 ltac:(lia)).
  lia.
Qed.

(** C5 (amended). For every width, height and spacing > 0 (whether or not
    height >= spacing * sqrt 3), [hexagonalPattern] with the column count
    floor((width - offset)/spacing) of src/placement.js has
    R = floor(height / (spacing * sqrt 3 / 2)) rows, at least as many as
    [gridPattern]; its rows of even index hold floor(width/spacing) points,
    as many as a grid row, and its rows of odd index
    floor((width - spacing/2)/spacing), which is the same number or one
    fewer.  So it returns at least count(gridPattern) - floor(R/2) points,
    and at least count(gridPattern) when the width leaves at least half a
    spacing over (width/spacing - floor(width/spacing) >= 1/2); it need not
    return as many points as [gridPattern] otherwise. *)
Theorem C5_hexagonal_count_vs_grid_count (width height spacing : R) :
  0 < width -> 0 < height -> 0 < spacing ->
  let rows := Z.to_nat (floorZ (height / (spacing * sqrt 3 / 2))) in
  exists grid hex,
    PlantPlacerV1.gridPattern width height spacing = Returns grid /\
    PlantPlacerV1.hexagonalPattern width height spacing = Returns hex /\
    List.length grid = gridCapacity width height spacing /\
    List.length hex = hexCapacityV1 width height spacing /\
    (Z.to_nat (floorZ (height / spacing)) <= rows)%nat /\
    (floorZ (width / spacing) - 1 <= floorZ ((width - spacing / 2) / spacing)
     <= floorZ (width / spacing))%Z /\
    (List.length grid <= List.length hex + rows / 2)%nat /\
    (1 / 2 <= width / spacing - IZR (floorZ (width / spacing)) ->
     (List.length grid <= List.length hex)%nat).
Proof.
  intros Hw Hh Hs rows.
  exists (gridPointsV1 width height spacing), (hexPointsV1 width height spacing).
  rewrite gridPatternV1_exact, hexagonalPatternV1_exact by lra.
  rewrite length_gridPointsV1, length_hexPointsV1.
  pose proof (hex_rows_ge_grid_rows height spacing Hs ltac:(lra)) as Hrows.
  pose proof (offset_row_cols width spacing Hs) as Hcols.
  pose proof (halves_sum rows) as Hsum.
  unfold gridCapacity, hexCapacityV1; cbv zeta; fold rows.
  assert (Z.to_nat (floorZ (height / spacing)) <= rows)%nat as Hrows'
      by (unfold rows; lia).
  set (rg := Z.to_nat (floorZ (height / spacing))) in *.
  set (c := Z.to_nat (floorZ (width / spacing))).
  set (c' := Z.to_nat (floorZ ((width - spacing / 2) / spacing))).
  assert (c <= c' + 1)%nat as Hc by (unfold c, c'; lia).
  assert (rg * c <= rows * c)%nat as Hgrid by (apply Nat.mul_le_mono_r; exact Hrows').
  assert (rows * c = (rows + 1) / 2 * c + rows / 2 * c)%nat as Hsplit
      by (rewrite <- Nat.mul_add_distr_r, Hsum; reflexivity).
  assert (rows / 2 * c <= rows / 2 * c' + rows / 2)%nat as Hodd by nia.
  repeat split; try reflexivity; try lia.
  intros Hfrac.
  assert (c' = c) as -> by (unfold c, c'; now rewrite offset_row_full).
  lia.
Qed.

Lemma C5_witness :
  (0 < 48 /\ 0 < 96 /\ 0 < 12) /\
  exists grid hex,
    PlantPlacerV1.gridPattern 48 96 12 = Returns grid /\
    PlantPlacerV1.hexagonalPattern 48 96 12 = Returns hex /\
    (List.length grid
     <= List.length hex + Z.to_nat (floorZ (96 / (12 * sqrt 3 / 2))) / 2)%nat.
Proof.
  split; [lra|].
  destruct (C5_hexagonal_count_vs_grid_count 48 96 12) as (grid & hex & H); try lra.
  exists grid, hex; tauto.
Defined.

Lemma hexPoints_12_24_12 : hexPoints 12 24 12 = [].
Proof.
  pose proof sqrt3_tight as H3.
  unfold hexPoints.
  assert (floorZ (24 / (12 * sqrt 3 / 2)) = 2%Z) as ->.
  { apply floorZ_unique.
    assert (24 / (12 * sqrt 3 / 2) * sqrt 3 = 4) as E by (field; lra).
    nra. }
  rewrite trips_IZR; change (Z.to_nat 2) with 2%nat.
  cbn [indices flat_map Z.add Pos.add]; unfold rowOf, hexCols.
  change (Z.rem 0 2) with 0%Z; change (Z.rem 1 2) with 1%Z.
  assert (floorZ ((12 - 12 / 2 - IZR 0 * (12 / 2)) / 12) = 0%Z) as ->
      by (apply floorZ_unique; lra).
  assert (floorZ ((12 - 12 / 2 - IZR 1 * (12 / 2)) / 12) = 0%Z) as ->
      by (apply floorZ_unique; lra).
  rewrite trips_IZR; reflexivity.
Qed.

Lemma length_hexPointsV1_12_24_12 : List.length (hexPointsV1 12 24 12) = 1%nat.
Proof.
  pose proof sqrt3_tight as H3.
  unfold hexPointsV1.
  assert (floorZ (24 / (12 * sqrt 3 / 2)) = 2%Z) as ->.
  { apply floorZ_unique.
    assert (24 / (12 * sqrt 3 / 2) * sqrt 3 = 4) as E by (field; lra).
    nra. }
  rewrite trips_IZR; change (Z.to_nat 2) with 2%nat.
  cbn [indices flat_map Z.add Pos.add]; cbv zeta.
  rewrite !length_app, !length_rowOf, !trips_IZR; unfold hexColsV1.
  change (Z.rem 0 2) with 0%Z; change (Z.rem 1 2) with 1%Z.
  assert (floorZ ((12 - IZR 0 * (12 / 2)) / 12) = 1%Z) as ->
      by (apply floorZ_unique; lra).
  assert (floorZ ((12 - IZR 1 * (12 / 2)) / 12) = 0%Z) as ->
      by (apply floorZ_unique; lra).
  reflexivity.
Qed.

Lemma length_grid_12_24_12 :
  (Z.to_nat (floorZ (24 / 12)) * Z.to_nat (floorZ (12 / 12)))%nat = 2%nat.
Proof.
  assert (floorZ (24 / 12) = 2%Z) as -> by (apply floorZ_unique; lra).
  assert (floorZ (12 / 12) = 1%Z) as -> by (apply floorZ_unique; lra).
  reflexivity.
Qed.

(** C5 fails as stated: on a 12 x 24 bed with spacing 12 (so that
    height >= spacing * sqrt 3) [gridPattern] returns 2 points while
    [hexagonalPattern] returns none (one, in the earlier revision). *)
Lemma C5_counterexample :
  (0 < 12 /\ 0 < 24 /\ 24 >= 12 * sqrt 3) /\
  (exists g x,
      PlantPlacer.gridPattern 12 24 12 = Returns g /\
      PlantPlacer.hexagonalPattern 12 24 12 = Returns x /\
      List.length g = 2%nat /\ List.length x = 0%nat) /\
  (exists g x,
      PlantPlacerV1.gridPattern 12 24 12 = Returns g /\
      PlantPlacerV1.hexagonalPattern 12 24 12 = Returns x /\
      List.length g = 2%nat /\ List.length x = 1%nat).
Proof.
  pose proof sqrt3_tight as H3.
  split; [lra|]; split.
  - exists (gridPoints 12 24 12), (hexPoints 12 24 12).
    rewrite gridPattern_exact, hexagonalPattern_exact by lra.
    rewrite length_gridPoints, length_grid_12_24_12, hexPoints_12_24_12; auto.
  - exists (gridPointsV1 12 24 12), (hexPointsV1 12 24 12).
    rewrite gridPatternV1_exact, hexagonalPatternV1_exact by lra.
    rewrite length_gridPointsV1, length_grid_12_24_12, length_hexPointsV1_12_24_12; auto.
Qed.

(** The current revision counts
    floor((width - spacing/2 - offset)/spacing) columns in a row, half a
    spacing less than src/placement.js and the strip generators do: on the
    48 x 96 bed of the specification, with spacing 12, it returns 27 points
    where the earlier revision returns 32, as many as [gridPattern]. *)
Lemma hexagonalPattern_48_96_12 :
  exists current earlier grid,
    PlantPlacer.hexagonalPattern 48 96 12 = Returns current /\
    PlantPlacerV1.hexagonalPattern 48 96 12 = Returns earlier /\
    PlantPlacer.gridPattern 48 96 12 = Returns grid /\
    List.length current = 27%nat /\ List.length earlier = 32%nat /\
    List.length grid = 32%nat.
Proof.
  exists (hexPoints 48 96 12), (hexPointsV1 48 96 12), (gridPoints 48 96 12).
  rewrite hexagonalPattern_exact, hexagonalPatternV1_exact, gridPattern_exact by lra.
  rewrite length_hexPoints, length_hexPointsV1, length_gridPoints.
  unfold hexCapacity, hexCapacityV1.
  assert (floorZ (96 / (12 * sqrt 3 / 2)) = 9%Z) as ->.
  { pose proof sqrt3_tight as [H3 _].
    assert (sqrt 3 < sqrt (1.75 * 1.75)) as H by (apply sqrt_lt_1; lra).
    rewrite sqrt_square in H by lra.
    apply floorZ_unique.
    assert (96 / (12 * sqrt 3 / 2) * sqrt 3 = 16) as E by (field; lra).
    nra. }
  assert (floorZ ((48 - 12 / 2) / 12) = 3%Z) as -> by (apply floorZ_unique; lra).
  assert (floorZ ((48 - 12) / 12) = 3%Z) as -> by (apply floorZ_unique; lra).
  assert (floorZ (48 / 12) = 4%Z) as -> by (apply floorZ_unique; lra).
  assert (floorZ (96 / 12) = 8%Z) as -> by (apply floorZ_unique; lra).
  repeat split.
Qed.

(** ** The percentage fill method *)

Lemma filterAvailablePositions_defined (candidates : list Point)
  (existing : option (list PlantGroup)) (s : num) :
  PlantPlacer.filterAvailablePositions (Some candidates) existing s
  = Returns (Some (availableOf existing s candidates)).
Proof. unfold PlantPlacer.filterAvailablePositions, availableOf; now destruct existing as [[|]|]. Qed.

Lemma truncZ_IZR (z : Z) : truncZ (IZR z) = z.
Proof. unfold truncZ; destruct (Rleb 0 (IZR z)); [apply floorZ_IZR | apply ceilZ_IZR]. Qed.

Lemma Rmin_IZR (a b : Z) : Rmin (IZR a) (IZR b) = IZR (Z.min a b).
Proof.
  unfold Rmin; destruct (Rle_dec (IZR a) (IZR b)) as [H|H].
  - apply le_IZR in H; now rewrite Z.min_l.
  - assert (b < a)%Z by (apply lt_IZR; lra); rewrite Z.min_r by lia; reflexivity.
Qed.

Lemma firstn_min_length {A : Type} (n : nat) (l : list A) :
  firstn (Nat.min n (List.length l)) l = firstn n l.
Proof.
  destruct (Nat.le_ge_cases n (List.length l)) as [H|H].
  - now rewrite Nat.min_l.
  - rewrite Nat.min_r, firstn_all, firstn_all2 by lia; reflexivity.
Qed.

(** [l.slice(0, Math.min(c, l.length))] for an integer [c >= 0]. *)
Lemma slice0_min_length {A : Type} (l : list A) (c : Z) :
  (0 <= c)%Z ->
  slice0 l (Math_min (Fin (IZR c)) (length_of l)) = firstn (Z.to_nat c) l.
Proof.
  intros Hc; unfold length_of, ofZ; rewrite Math_min_fin, Rmin_IZR.
  unfold slice0; rewrite truncZ_IZR.
  destruct (Z.ltb_spec (Z.min c (Z.of_nat (List.length l))) 0); [lia|].
  rewrite Z2Nat.inj_min, Nat2Z.id; apply firstn_min_length.
Qed.

Lemma slice0_integer {A : Type} (l : list A) (c : Z) :
  (0 <= c)%Z -> slice0 l (Fin (IZR c)) = firstn (Z.to_nat c) l.
Proof.
  intros Hc; unfold slice0; rewrite truncZ_IZR.
  destruct (Z.ltb_spec c 0); [lia | reflexivity].
Qed.

Lemma percent_floor_nonneg {A : Type} (l : list A) (p : R) :
  0 <= p -> (0 <= floorZ (IZR (Z.of_nat (List.length l)) * (p / 100)))%Z.
Proof.
  intros Hp; apply floorZ_ge.
  assert (0 <= IZR (Z.of_nat (List.length l))) by (apply IZR_le; lia).
  apply Rmult_le_pos; [assumption | lra].
Qed.

Lemma applyFillMethod_percentage (positions : list Point) (p : R) :
  0 <= p ->
  PlantPlacer.applyFillMethod positions "percentage" (Fin p)
  = firstn (percentCount positions p) positions.
Proof.
  intros Hp; unfold PlantPlacer.applyFillMethod.
  change (is_method "percentage" "auto") with false.
  change (is_method "percentage" "count") with false.
  change (is_method "percentage" "percentage") with true.
  cbv iota zeta; unfold length_of; num_simpl.
  apply slice0_integer, percent_floor_nonneg, Hp.
Qed.

Lemma placeWithAwareness_percentage (width height spacing : num) (pattern : string)
  (p : R) (isCircle : bool) (radius : num) (existing : option (list PlantGroup))
  (candidates : list Point) :
  0 <= p ->
  PlantPlacer.allPositions width height spacing pattern isCircle radius = Returns candidates ->
  PlantPlacer.placeWithAwareness width height spacing pattern "percentage" (Fin p)
    isCircle radius existing
  = Returns (Some (firstn (percentCount candidates p) (availableOf existing spacing candidates))).
Proof.
  intros Hp Hcand; unfold PlantPlacer.placeWithAwareness.
  change (is_method "percentage" "auto") with false.
  change (is_method "percentage" "count") with false.
  change (is_method "percentage" "rows") with false.
  change (is_method "percentage" "percentage") with true.
  cbv iota; rewrite Hcand; cbn [bind].
  rewrite filterAvailablePositions_defined; cbn [bind]; cbv zeta.
  unfold PlantPlacer.sliceOf, length_of at 1; num_simpl.
  rewrite slice0_min_length by (apply percent_floor_nonneg, Hp); reflexivity.
Qed.

Lemma placeWithAwarenessV1_percentage (width height spacing : num) (pattern : string)
  (p : R) (isCircle : bool) (radius : num) (existing : option (list PlantGroup))
  (candidates : list Point) :
  0 <= p ->
  PlantPlacerV1.allPositions width height spacing pattern isCircle radius = Returns candidates ->
  PlantPlacerV1.placeWithAwareness width height spacing pattern "percentage" (Fin p)
    isCircle radius existing
  = Returns (Some (firstn (percentCount candidates p) (availableOf existing spacing candidates))).
Proof.
  intros Hp Hcand; unfold PlantPlacerV1.placeWithAwareness.
  change (is_method "percentage" "auto") with false.
  change (is_method "percentage" "count") with false.
  change (is_method "percentage" "rows") with false.
  change (is_method "percentage" "percentage") with true.
  cbv iota; rewrite Hcand; cbn [bind].
  rewrite filterAvailablePositions_defined; cbn [bind]; cbv zeta.
  unfold PlantPlacer.sliceOf, length_of at 1; num_simpl.
  rewrite slice0_min_length by (apply percent_floor_nonneg, Hp); reflexivity.
Qed.

Lemma allPositions_returns (width height radius spacing : R) (pattern : string)
  (isCircle : bool) :
  0 < spacing ->
  exists candidates,
    PlantPlacer.allPositions width height spacing pattern isCircle radius
    = Returns candidates.
Proof.
  intros Hs; unfold PlantPlacer.allPositions.
  destruct isCircle.
  - destruct (placeInCircle_inDisc radius spacing pattern Hs) as (c & E & _); eauto.
  - destruct (placeInRectangle_inRect width height spacing pattern Hs) as (c & E & _); eauto.
Qed.

Lemma allPositionsV1_returns (width height radius spacing : R) (pattern : string)
  (isCircle : bool) :
  0 < spacing ->
  exists candidates,
    PlantPlacerV1.allPositions width height spacing pattern isCircle radius
    = Returns candidates.
Proof.
  intros Hs; unfold PlantPlacerV1.allPositions.
  destruct isCircle.
  - destruct (placeInCircleV1_inDisc radius spacing pattern Hs) as (c & E & _); eauto.
  - destruct (placeInRectangleV1_inRect width height spacing pattern Hs) as (c & E & _); eauto.
Qed.

Lemma placeByPercentage_prefix (width height spacing : num) (pattern : string)
  (p : R) (isCircle : bool) (radius : num) (candidates : list Point) :
  0 <= p ->
  PlantPlacer.allPositions width height spacing pattern isCircle radius = Returns candidates ->
  PlantPlacer.placeByPercentage width height spacing (Fin p) pattern isCircle radius
  = Returns (firstn (percentCount candidates p) candidates).
Proof.
  intros Hp Hcand; unfold PlantPlacer.placeByPercentage.
  rewrite Hcand; cbn [bind]; cbv zeta.
  unfold length_of; num_simpl.
  now rewrite slice0_integer by (apply percent_floor_nonneg, Hp).
Qed.

Lemma roundOff_pos : 0 < roundOff.
Proof. unfold roundOff; apply Rinv_0_lt_compat; lra. Qed.

Lemma percentCount_share {A : Type} (l : list A) (p : R) :
  0 <= p -> percentShare (List.length l) p (percentCount l p).
Proof.
  intros Hp; unfold percentShare, percentCount; cbv zeta.
  set (len := IZR (Z.of_nat (List.length l))).
  assert (0 <= len) as Hlen by (apply IZR_le; lia).
  pose proof (percent_floor_nonneg l p Hp) as H0; fold len in H0.
  pose proof (floorZ_spec (len * (p / 100))) as [Hlo Hhi].
  pose proof roundOff_pos as Hr.
  assert (0 <= len * p / 100) as Hshare
      by (apply Rmult_le_pos; [apply Rmult_le_pos|]; lra).
  assert (0 <= len * p / 100 * roundOff) as Hslack by (apply Rmult_le_pos; lra).
  rewrite Z2Nat.id by exact H0.
  split; [lra|].
  intros H100.
  assert (Z.of_nat (List.length l) <= floorZ (len * (p / 100)))%Z; [|lia].
  apply floorZ_ge; fold len.
  assert (len * 1 <= len * (p / 100)); [|lra].
  apply Rmult_le_compat_l; lra.
Qed.

(** C6 (amended). For the percentage fill method with value p >= 0,
    [placeWithAwareness] returns the first k positions of the
    conflict-filtered candidates (all of them when fewer remain): a prefix
    of the filtered order of length min(k, filtered count).  Here k is the
    whole number that Math.floor(len * (p / 100)) gives for the candidate
    count len before the conflict filter: up to the rounding of the
    product, at most len * p / 100 and less than one below it, and at
    least len from 100 percent on.  [applyFillMethod] returns the first k
    of the n positions it is given, with k taken of n in the same way, and
    [placeByPercentage], which filters nothing, the first k candidates. *)
Theorem C6_percentage_prefix_of_filtered
  (width height radius spacing p : R) (pattern : string) (isCircle : bool)
  (existingPlantGroups : option (list PlantGroup)) :
  0 < spacing -> 0 <= p ->
  (exists candidates k,
      PlantPlacer.allPositions width height spacing pattern isCircle radius
      = Returns candidates /\
      percentShare (List.length candidates) p k /\
      PlantPlacer.placeWithAwareness width height spacing pattern "percentage" p
        isCircle radius existingPlantGroups
      = Returns (Some (firstn k (availableOf existingPlantGroups spacing candidates)))) /\
  (exists candidates k,
      PlantPlacerV1.allPositions width height spacing pattern isCircle radius
      = Returns candidates /\
      percentShare (List.length candidates) p k /\
      PlantPlacerV1.placeWithAwareness width height spacing pattern "percentage" p
        isCircle radius existingPlantGroups
      = Returns (Some (firstn k (availableOf existingPlantGroups spacing candidates)))) /\
  (forall positions, exists k,
      percentShare (List.length positions) p k /\
      PlantPlacer.applyFillMethod positions "percentage" p = firstn k positions) /\
  (exists candidates k,
      PlantPlacer.allPositions width height spacing pattern isCircle radius
      = Returns candidates /\
      percentShare (List.length candidates) p k /\
      PlantPlacer.placeByPercentage width height spacing p pattern isCircle radius
      = Returns (firstn k candidates)).
Proof.
  intros Hs Hp; repeat split.
  - destruct (allPositions_returns width height radius spacing pattern isCircle Hs)
      as (candidates & E).
    exists candidates, (percentCount candidates p).
    split; [exact E|]; split; [now apply percentCount_share|].
    now apply placeWithAwareness_percentage.
  - destruct (allPositionsV1_returns width height radius spacing pattern isCircle Hs)
      as (candidates & E).
    exists candidates, (percentCount candidates p).
    split; [exact E|]; split; [now apply percentCount_share|].
    now apply placeWithAwarenessV1_percentage.
  - intros positions; exists (percentCount positions p).
    split; [now apply percentCount_share | now apply applyFillMethod_percentage].
  - destruct (allPositions_returns width height radius spacing pattern isCircle Hs)
      as (candidates & E).
    exists candidates, (percentCount candidates p).
    split; [exact E|]; split; [now apply percentCount_share|].
    now apply placeByPercentage_prefix.
Qed.

Lemma C6_witness :
  (0 < 12 /\ 0 <= 50) /\
  forall positions, exists k,
    percentShare (List.length positions) 50 k /\
    PlantPlacer.applyFillMethod positions "percentage" 50 = firstn k positions.
Proof.
  split; [lra|].
  apply (C6_percentage_prefix_of_filtered 48 96 0 12 50 "grid" false None); lra.
Defined.

Lemma gridPoints_24_12_12 : gridPoints 24 12 12 = [mkPoint (-6) 0; mkPoint 6 0].
Proof.
  unfold gridPoints.
  assert (floorZ (24 / 12) = 2%Z) as -> by (apply floorZ_unique; lra).
  assert (floorZ (12 / 12) = 1%Z) as -> by (apply floorZ_unique; lra).
  unfold rowOf; rewrite !trips_IZR.
  change (Z.to_nat 2) with 2%nat; change (Z.to_nat 1) with 1%nat.
  cbn [indices flat_map Z.add Pos.add app].
  repeat f_equal; lra.
Qed.

Lemma distR_same (x y : R) : distR x y x y = 0.
Proof.
  unfold distR; replace ((x - x) * (x - x) + (y - y) * (y - y)) with 0 by ring.
  apply sqrt_0.
Qed.

Lemma distR_horizontal (x1 x2 y : R) : x2 <= x1 -> distR x1 y x2 y = x1 - x2.
Proof.
  intros H; unfold distR.
  replace ((x1 - x2) * (x1 - x2) + (y - y) * (y - y)) with ((x1 - x2) * (x1 - x2)) by ring.
  apply sqrt_square; lra.
Qed.

(** C6 fails as stated: on a 24 x 12 bed with spacing 12 the grid has two
    candidates; with an existing plant (spacing 12) on the first of them,
    the percentage method at 100% returns one position, not
    floor(2 * 100/100) = 2, and it is not a prefix of the candidate order. *)
Lemma C6_counterexample :
  let existing := Some [mkGroup 12 (Some [mkPoint (-6) 0])] in
  exists candidates result,
    PlantPlacer.allPositions 24 12 12 "grid" false 0 = Returns candidates /\
    PlantPlacer.placeWithAwareness 24 12 12 "grid" "percentage" 100 false 0 existing
    = Returns (Some result) /\
    floorZ (IZR (Z.of_nat (List.length candidates)) * (100 / 100)) = 2%Z /\
    List.length result = 1%nat /\
    result <> firstn 2 candidates.
Proof.
  intros existing.
  assert (PlantPlacer.allPositions 24 12 12 "grid" false 0
          = Returns [mkPoint (-6) 0; mkPoint 6 0]) as Hcand.
  { unfold PlantPlacer.allPositions.
    change (is_hexagonal "grid") with false; cbv iota.
    rewrite gridPattern_exact by lra; now rewrite gridPoints_24_12_12. }
  assert (floorZ (IZR (Z.of_nat 2) * (100 / 100)) = 2%Z) as Hcount.
  { apply floorZ_unique; cbn [Z.of_nat Pos.of_succ_nat Pos.succ]; lra. }
  assert (availableOf existing 12 [mkPoint (-6) 0; mkPoint 6 0] = [mkPoint 6 0]) as Havail.
  { unfold availableOf, existing, PlantPlacer.collectExisting, PlantPlacer.available.
    cbn [flat_map map g_positions g_spacing pos_x pos_y app filter forallb ex_spacing].
    rewrite !distanceTo_fin, distR_same, distR_horizontal by lra.
    num_simpl; cbn [nlt].
    rewrite (proj2 (Rltb_true 0 ((12 + 12) / 2))) by lra.
    rewrite (proj2 (Rltb_false (6 - -6) ((12 + 12) / 2))) by lra.
    reflexivity. }
  eexists _, _; split; [exact Hcand|]; split.
  - rewrite (placeWithAwareness_percentage _ _ _ _ 100 _ _ existing _ ltac:(lra) Hcand).
    unfold percentCount; cbn [List.length]; rewrite Hcount, Havail.
    reflexivity.
  - cbn [List.length]; split; [exact Hcount|].
    split; [reflexivity | discriminate].
Qed.

(** ** Circular beds *)

Lemma Rmax_IZR (a b : Z) : Rmax (IZR a) (IZR b) = IZR (Z.max a b).
Proof.
  unfold Rmax; destruct (Rle_dec (IZR a) (IZR b)) as [H|H].
  - apply le_IZR in H; now rewrite Z.max_r.
  - assert (b < a)%Z by (apply lt_IZR; lra); rewrite Z.max_l by lia; reflexivity.
Qed.

Section SubRings.
Variables radius s a b : R.
Hypothesis Hradius : 0 < radius.
Hypothesis Hs : 0 < s.
Hypothesis Hab : 0 <= a < b /\ b <= 1.

Lemma subRings_facts (k : Z) :
  (0 <= k)%Z -> IZR k < subRings radius s a b ->
  0 < radius * b - radius * a /\
  1 <= subRings radius s a b /\
  0 <= IZR k /\
  IZR k + 1 <= subRings radius s a b /\
  (s <= radius * b - radius * a ->
   subRings radius s a b * s <= radius * b - radius * a).
Proof.
  intros Hk0 Hk; unfold subRings in *.
  set (W := radius * b - radius * a) in *.
  assert (0 < W) as HW by (unfold W; nra).
  assert (Rmax 1 (IZR (floorZ (W / s))) = IZR (Z.max 1 (floorZ (W / s)))) as E
      by apply (Rmax_IZR 1).
  rewrite E in *.
  apply lt_IZR in Hk.
  repeat split.
  - exact HW.
  - apply IZR_le; lia.
  - apply IZR_le; lia.
  - rewrite <- plus_IZR; apply IZR_le; lia.
  - intros HsW.
    assert (1 <= floorZ (W / s))%Z as Hz.
    { apply floorZ_ge.
      apply Rmult_le_reg_r with (r := s); [exact Hs|].
      replace (W / s * s) with W by (field; lra); lra. }
    rewrite Z.max_r by lia.
    pose proof (floorZ_spec (W / s)) as [Hf _].
    apply Rmult_le_compat_r with (r := s) in Hf; [|lra].
    replace (W / s * s) with W in Hf by (field; lra); exact Hf.
Qed.

Lemma onSubRing_inAnnulus (p : Point) :
  onSubRing radius s a b p -> inAnnulus (radius * a) (radius * b) p.
Proof.
  intros (k & Hk0 & Hk & Hring).
  destruct (subRings_facts k Hk0 Hk) as (HW & Hn & Hk0' & Hk1 & _).
  unfold subRingRadius in Hring.
  set (n := subRings radius s a b) in *.
  set (W := radius * b - radius * a) in *.
  set (t := W / (n + 1)) in *.
  assert (t * (n + 1) = W) as Et by (unfold t; field; lra).
  assert (0 < t) as Ht by nra.
  assert (0 <= radius * a) as Hra by nra.
  assert (0 <= radius * a + t * (IZR k + 1)) as Hrho by nra.
  destruct (onRing_dist _ p Hrho Hring) as (x & y & -> & Ed).
  exists x, y; split; [reflexivity|].
  rewrite Ed; unfold W in *; nra.
Qed.

(** The outermost sub-ring keeps half a spacing from the outer edge of a
    ring that is at least one spacing wide. *)
Lemma onSubRing_inDisc (p : Point) :
  s <= radius * b - radius * a -> onSubRing radius s a b p -> inDisc (radius * b) s p.
Proof.
  intros HsW (k & Hk0 & Hk & Hring).
  destruct (subRings_facts k Hk0 Hk) as (HW & Hn & Hk0' & Hk1 & Hns).
  specialize (Hns HsW).
  unfold subRingRadius in Hring.
  set (n := subRings radius s a b) in *.
  set (W := radius * b - radius * a) in *.
  set (t := W / (n + 1)) in *.
  assert (t * (n + 1) = W) as Et by (unfold t; field; lra).
  assert (0 < t) as Ht by nra.
  assert (s <= 2 * t) as Hst.
  { apply Rmult_le_reg_r with (r := n + 1); [lra|]. nra. }
  assert (0 <= radius * a) as Hra by nra.
  assert (0 <= radius * a + t * (IZR k + 1)) as Hrho by nra.
  destruct (onRing_dist _ p Hrho Hring) as (x & y & -> & Ed).
  exists x, y; split; [reflexivity|].
  rewrite Ed; unfold W in *; nra.
Qed.
End SubRings.

Lemma yields_finishLayer_incl (run : outcome (list Point)) (P : Point -> Prop)
  (spacing : num) (method : string) (value : num)
  (previousLayers : option (list PlantGroup)) :
  yields run P ->
  yields (positions <- run ;;
          Returns (PlantPlacer.finishLayer positions spacing method value previousLayers)) P.
Proof.
  intros (pts & -> & H); cbn [bind]; eexists; split; [reflexivity|].
  rewrite Forall_forall in *; intros p Hp.
  apply H; eapply filterByInterLayerSpacing_incl, finishLayer_incl, Hp.
Qed.

Lemma placeInCircularRegion_onSubRing (radius s a b : R) :
  s <> 0 ->
  yields (PlantPlacer.placeInCircularRegion radius s (mkBounds a b))
         (onSubRing radius s a b).
Proof.
  intros Hs; unfold PlantPlacer.placeInCircularRegion.
  apply ringPositions_onSubRing; [exact Hs | intros n; now exists n].
Qed.

Lemma placeInCircularLayerWithBounds_onSubRing
  (radius s a b : R) (pattern method : string) (value layerIndex totalLayers : num)
  (previousLayers : option (list PlantGroup)) :
  s <> 0 ->
  yields (PlantPlacer.placeInCircularLayerWithBounds radius s pattern method value
            layerIndex totalLayers previousLayers (mkBounds a b))
         (onSubRing radius s a b).
Proof.
  intros Hs; unfold PlantPlacer.placeInCircularLayerWithBounds.
  apply yields_finishLayer_incl.
  apply ringPositions_onSubRing; [exact Hs | intros n; apply limitRows_fin].
Qed.

Lemma inDisc_wider (r r' s : R) (p : Point) : r <= r' -> inDisc r s p -> inDisc r' s p.
Proof.
  intros Hr (x & y & -> & H); exists x, y; split; [reflexivity | lra].
Qed.

(** C7 (amended). For every radius > 0, spacing > 0 and region bounds
    0 <= start < end <= 1: every point of [placeInCircle] lies at radial
    distance at most radius - spacing/2; every point of the annulus
    generators [placeInCircularRegion] and [placeInCircularLayerWithBounds]
    lies at a radial distance strictly between start * radius and
    end * radius, and, whenever the ring is at least one and a half
    spacings wide (radius * (end - start) >= 1.5 * spacing), at most
    end * radius - spacing/2, which is at most radius - spacing/2. *)
Theorem C7_circular_points_radial_bound
  (radius spacing a b : R) (pattern method : string)
  (value layerIndex totalLayers : num) (previousLayers : option (list PlantGroup)) :
  0 < radius -> 0 < spacing -> 0 <= a < b /\ b <= 1 ->
  let region := PlantPlacer.placeInCircularRegion radius spacing (mkBounds a b) in
  let layer := PlantPlacer.placeInCircularLayerWithBounds radius spacing pattern method
                 value layerIndex totalLayers previousLayers (mkBounds a b) in
  yields (PlantPlacer.placeInCircle radius spacing pattern) (inDisc radius spacing) /\
  yields (PlantPlacerV1.placeInCircle radius spacing pattern) (inDisc radius spacing) /\
  yields region (inAnnulus (radius * a) (radius * b)) /\
  yields layer (inAnnulus (radius * a) (radius * b)) /\
  (1.5 * spacing <= radius * (b - a) ->
   yields region (inDisc (radius * b) spacing) /\
   yields layer (inDisc (radius * b) spacing) /\
   yields region (inDisc radius spacing) /\ yields layer (inDisc radius spacing)).
Proof.
  intros Hr Hs Hab region layer.
  assert (yields region (onSubRing radius spacing a b)) as Hregion
      by (apply placeInCircularRegion_onSubRing; lra).
  assert (yields layer (onSubRing radius spacing a b)) as Hlayer
      by (apply placeInCircularLayerWithBounds_onSubRing; lra).
  split; [now apply placeInCircle_inDisc|].
  split; [now apply placeInCircleV1_inDisc|].
  split; [|split].
  - eapply yields_weaken; [|exact Hregion].
    intros p; now apply onSubRing_inAnnulus.
  - eapply yields_weaken; [|exact Hlayer].
    intros p; now apply onSubRing_inAnnulus.
  - intros Hwide.
    assert (spacing <= radius * b - radius * a) as Hwide' by lra.
    assert (radius * b <= radius) as Hb by nra.
    assert (yields region (inDisc (radius * b) spacing)) as Hr1.
    { eapply yields_weaken; [|exact Hregion].
      intros p; now apply onSubRing_inDisc. }
    assert (yields layer (inDisc (radius * b) spacing)) as Hl1.
    { eapply yields_weaken; [|exact Hlayer].
      intros p; now apply onSubRing_inDisc. }
    split; [exact Hr1|]; split; [exact Hl1|].
    split; (eapply yields_weaken; [|eassumption]);
      intros p; now apply inDisc_wider.
Qed.

Lemma C7_witness :
  (0 < 24 /\ 0 < 6 /\ (0 <= 0.5 < 1 /\ 1 <= 1) /\ 1.5 * 6 <= 24 * (1 - 0.5)) /\
  yields (PlantPlacer.placeInCircularRegion 24 6 (mkBounds 0.5 1)) (inDisc (24 * 1) 6).
Proof.
  split; [lra|].
  apply (C7_circular_points_radial_bound 24 6 0.5 1 "grid" "auto" 0 0 1 None); lra.
Defined.

Lemma trips_pos (r : R) : 0 < r -> exists n, trips r = S n.
Proof.
  intros Hr; assert (0 < ceilZ r)%Z as H by (now apply lt_ceilZ).
  unfold trips; exists (Z.to_nat (ceilZ r - 1)); lia.
Qed.

Lemma for_lt_head {A : Type} (P : A -> Prop) (r : R) (body : Z -> outcome (list A)) :
  0 < r ->
  (exists a l0, body 0%Z = Returns (a :: l0) /\ P a) ->
  (forall k, (0 <= k)%Z -> IZR k < r -> exists lk, body k = Returns lk) ->
  exists a rest, for_lt (Fin r) body = Returns (a :: rest) /\ P a.
Proof.
  intros Hr (a & l0 & H0 & HP) Hall; cbn [for_lt]; fold (trips r).
  destruct (trips_pos r Hr) as [n En]; rewrite En; cbn [iterate].
  rewrite H0; cbn [bind].
  destruct (iterate_Forall (fun _ => True) body n (0 + 1)%Z) as (rest & -> & _).
  { intros k Hk; destruct (Hall k) as [lk Hlk].
    - lia.
    - apply lt_ceilZ; unfold trips in En; lia.
    - exists lk; split; [exact Hlk | apply Forall_forall; auto]. }
  cbn [bind app]; eauto.
Qed.

Lemma placeInCircularRegion_first (radius s a b : R) :
  s <> 0 ->
  exists p rest,
    PlantPlacer.placeInCircularRegion radius s (mkBounds a b) = Returns (p :: rest) /\
    onRing (subRingRadius radius s a b 0) p.
Proof.
  intros Hs.
  unfold PlantPlacer.placeInCircularRegion, PlantPlacer.ringPositions; cbv zeta.
  ring_simpl.
  apply for_lt_head.
  - pose proof (Rmax_l 1 (IZR (floorZ ((radius * b + - (radius * a)) / s)))); lra.
  - ring_simpl.
    apply for_lt_head.
    + match goal with |- 0 < Rmax 1 ?x => pose proof (Rmax_l 1 x); lra end.
    + rewrite ndiv_fin
        by (match goal with |- Rmax 1 ?x <> 0 => pose proof (Rmax_l 1 x); lra end).
      ring_simpl; eexists _, _; split; [reflexivity|].
      eexists; unfold subRingRadius, subRings.
      replace (radius * b - radius * a) with (radius * b + - (radius * a)) by ring.
      reflexivity.
    + intros i Hi0 Hi; apply IZR_le in Hi0.
      rewrite ndiv_fin by lra; ring_simpl; eexists; reflexivity.
  - intros k _ _; ring_simpl.
    match goal with
    | |- exists lk, for_lt (Fin ?m) ?body = Returns lk =>
        destruct (for_lt_Forall (fun _ => True) m body) as (lk & E & _); [|eauto]
    end.
    intros i Hi0 Hi; apply IZR_le in Hi0.
    rewrite ndiv_fin by lra; ring_simpl; apply push_Forall; exact I.
Qed.

(** C7 fails as stated for the annulus generators: in a circular bed of
    radius 6 with spacing 12 (one group, whole bed), [placeInCircularRegion]
    places a plant at radial distance 3, beyond radius - spacing/2 = 0. *)
Lemma C7_counterexample :
  (0 < 6 /\ 0 < 12 /\ 0 <= 0 < 1 /\ 1 <= 1) /\
  exists pts x y,
    PlantPlacer.placeInCircularRegion 6 12 (mkBounds 0 1) = Returns pts /\
    In (mkPoint (Fin x) (Fin y)) pts /\
    sqrt (x * x + y * y) = 3 /\
    ~ sqrt (x * x + y * y) <= 6 - 12 / 2.
Proof.
  split; [lra|].
  destruct (placeInCircularRegion_first 6 12 0 1) as (p & rest & E & Hring); [lra|].
  assert (subRingRadius 6 12 0 1 0 = 3) as Erho.
  { unfold subRingRadius, subRings.
    assert (floorZ ((6 * 1 - 6 * 0) / 12) = 0%Z) as -> by (apply floorZ_unique; lra).
    rewrite Rmax_left by lra; lra. }
  rewrite Erho in Hring.
  destruct (onRing_dist 3 p ltac:(lra) Hring) as (x & y & -> & Ed).
  exists (mkPoint (Fin x) (Fin y) :: rest), x, y.
  split; [exact E|]; split; [now left|]; split; [exact Ed | lra].
Qed.

(** ** Degenerate inputs *)

Lemma flat_map_nil {A B : Type} (f : A -> list B) (l : list A) :
  (forall a, In a l -> f a = []) -> flat_map f l = [].
Proof.
  induction l as [|a l IH]; intros H; cbn [flat_map]; [reflexivity|].
  rewrite (H a (or_introl eq_refl)), IH by (intros b Hb; apply H; now right).
  reflexivity.
Qed.

Lemma trips_nonpos (z : Z) : (z <= 0)%Z -> trips (IZR z) = 0%nat.
Proof. intros H; rewrite trips_IZR; lia. Qed.

Lemma rowOf_nil (point : Z -> Point) (z : Z) : (z <= 0)%Z -> rowOf point (IZR z) = [].
Proof. intros H; unfold rowOf; now rewrite trips_nonpos. Qed.

Lemma floorZ_div_nonpos (a b : R) : 0 <= a -> b < 0 -> (floorZ (a / b) <= 0)%Z.
Proof.
  intros Ha Hb.
  assert (floorZ (a / b) < 1)%Z; [|lia].
  apply floorZ_lt.
  assert (a / b * b = a) as E by (field; lra).
  nra.
Qed.

Lemma floorZ_div_small (a b : R) : 0 <= a < b -> floorZ (a / b) = 0%Z.
Proof.
  intros H; apply floorZ_unique.
  assert (a / b * b = a) as E by (field; lra).
  change (IZR 0) with 0; split; nra.
Qed.

Lemma gridPoints_nil (w h s : R) :
  (floorZ (h / s) <= 0)%Z \/ (floorZ (w / s) <= 0)%Z -> gridPoints w h s = [].
Proof.
  intros [H|H]; unfold gridPoints.
  - now rewrite trips_nonpos.
  - apply flat_map_nil; intros row _; now apply rowOf_nil.
Qed.

Lemma gridPointsV1_nil (w h s : R) :
  (floorZ (h / s) <= 0)%Z \/ (floorZ (w / s) <= 0)%Z -> gridPointsV1 w h s = [].
Proof.
  intros [H|H]; unfold gridPointsV1; cbv zeta.
  - now rewrite trips_nonpos.
  - apply flat_map_nil; intros row _; now apply rowOf_nil.
Qed.

Lemma hexPoints_nil (w h s : R) :
  (floorZ (h / (s * sqrt 3 / 2)) <= 0)%Z -> hexPoints w h s = [].
Proof. intros H; unfold hexPoints; now rewrite trips_nonpos. Qed.

Lemma hexPointsV1_nil (w h s : R) :
  (floorZ (h / (s * sqrt 3 / 2)) <= 0)%Z -> hexPointsV1 w h s = [].
Proof. intros H; unfold hexPointsV1; now rewrite trips_nonpos. Qed.

Lemma slice0_nil {A : Type} (e : num) : slice0 (@nil A) e = [].
Proof.
  unfold slice0; destruct e; try reflexivity.
  cbv zeta; destruct (_ <? 0)%Z; apply firstn_nil.
Qed.

Lemma applyFillMethod_nil (method : string) (value : num) :
  PlantPlacer.applyFillMethod [] method value = [].
Proof.
  unfold PlantPlacer.applyFillMethod.
  repeat match goal with
         | |- context [if ?c then _ else _] => destruct c
         end; try reflexivity; apply slice0_nil.
Qed.

Lemma ndiv_by_zero (a b : R) : 0 < a -> b = 0 -> ndiv (Fin a) (Fin b) = PInf.
Proof.
  intros Ha Hb; unfold ndiv.
  now rewrite (proj2 (Reqb_true b 0) Hb), (proj2 (Rltb_true 0 a) Ha).
Qed.

Lemma hexPoints_no_cols (w h s : R) :
  0 < s -> w < s -> hexPoints w h s = [].
Proof.
  intros Hs Hw; unfold hexPoints.
  apply flat_map_nil; intros row Hrow; apply In_trips in Hrow as [Hrow _].
  apply rowOf_nil; unfold hexCols.
  assert (0 <= IZR (Z.rem row 2) * (s / 2)) as Hoff
      by (destruct (rem2_cases row Hrow) as [E|E]; rewrite E; lra).
  assert (floorZ ((w - s / 2 - IZR (Z.rem row 2) * (s / 2)) / s) < 1)%Z; [|lia].
  apply floorZ_lt.
  apply Rmult_lt_reg_r with (r := s); [exact Hs|].
  replace ((w - s / 2 - IZR (Z.rem row 2) * (s / 2)) / s * s)
    with (w - s / 2 - IZR (Z.rem row 2) * (s / 2)) by (field; lra).
  lra.
Qed.

Lemma hexPointsV1_no_cols (w h s : R) :
  0 < s -> w < s -> hexPointsV1 w h s = [].
Proof.
  intros Hs Hw; unfold hexPointsV1.
  apply flat_map_nil; intros row Hrow; apply In_trips in Hrow as [Hrow _].
  cbv zeta; apply rowOf_nil; unfold hexColsV1.
  assert (0 <= IZR (Z.rem row 2) * (s / 2)) as Hoff
      by (destruct (rem2_cases row Hrow) as [E|E]; rewrite E; lra).
  assert (floorZ ((w - IZR (Z.rem row 2) * (s / 2)) / s) < 1)%Z; [|lia].
  apply floorZ_lt.
  apply Rmult_lt_reg_r with (r := s); [exact Hs|].
  replace ((w - IZR (Z.rem row 2) * (s / 2)) / s * s)
    with (w - IZR (Z.rem row 2) * (s / 2)) by (field; lra).
  lra.
Qed.

Lemma floorZ_div_lt_one (a b : R) : 0 < b -> a < b -> (floorZ (a / b) <= 0)%Z.
Proof.
  intros Hb Hab.
  assert (floorZ (a / b) < 1)%Z; [|lia].
  apply floorZ_lt, Rmult_lt_reg_r with (r := b); [exact Hb|].
  replace (a / b * b) with a by (field; lra); lra.
Qed.

(** A quotient by zero whose dividend is not positive is [-Infinity] or
    [NaN]: a loop bounded by its floor does not run. *)
Lemma for_lt_floor_div_zero {A : Type} (a b : R) (body : Z -> outcome (list A)) :
  a <= 0 -> b = 0 -> for_lt (Math_floor (ndiv (Fin a) (Fin b))) body = Returns [].
Proof.
  intros Ha Hb; unfold ndiv.
  rewrite (proj2 (Reqb_true b 0) Hb), (proj2 (Rltb_false 0 a) Ha).
  now destruct (Rltb a 0).
Qed.

Lemma generatorsEmpty_no_rows (width height spacing : R) :
  spacing <> 0 ->
  (floorZ (height / spacing) <= 0)%Z ->
  (floorZ (height / (spacing * sqrt 3 / 2)) <= 0)%Z ->
  generatorsEmpty width height spacing.
Proof.
  intros Hs Hgrid Hhex; unfold generatorsEmpty.
  rewrite gridPattern_exact, hexagonalPattern_exact,
    gridPatternV1_exact, hexagonalPatternV1_exact by exact Hs.
  rewrite gridPoints_nil, gridPointsV1_nil, hexPoints_nil, hexPointsV1_nil by auto.
  auto.
Qed.

Lemma generatorsEmpty_no_cols (width height spacing : R) :
  0 < spacing -> width < spacing -> generatorsEmpty width height spacing.
Proof.
  intros Hs Hw; unfold generatorsEmpty.
  pose proof (floorZ_div_lt_one width spacing Hs Hw) as Hcols.
  rewrite gridPattern_exact, hexagonalPattern_exact,
    gridPatternV1_exact, hexagonalPatternV1_exact by lra.
  rewrite gridPoints_nil, gridPointsV1_nil, hexPoints_no_cols, hexPointsV1_no_cols by auto.
  auto.
Qed.

Lemma generatorsEmpty_zero_spacing (width height : R) :
  height <= 0 -> generatorsEmpty width height 0.
Proof.
  intros Hh; unfold generatorsEmpty.
  unfold PlantPlacer.gridPattern, PlantPlacer.hexagonalPattern,
    PlantPlacerV1.gridPattern, PlantPlacerV1.hexagonalPattern; cbv zeta.
  rewrite !Math_sqrt_fin by lra; cbn [nmul].
  rewrite !(ndiv_fin (0 * sqrt 3) 2) by lra.
  rewrite !(for_lt_floor_div_zero height) by lra.
  auto.
Qed.

(** C8 (amended). [gridPattern] and [hexagonalPattern] (both revisions)
    return the empty sequence, without signalling failure, on these
    degenerate inputs: spacing < 0 with height >= 0; spacing = 0 with
    height <= 0; spacing > 0 with a rectangle holding no row
    (height < spacing * sqrt 3 / 2) or no column (width < spacing).  The
    fill resolver returns the empty sequence on an empty candidate
    sequence, for every method and value. *)
Theorem C8_degenerate_inputs_yield_nothing (width height spacing : R) :
  (spacing < 0 /\ 0 <= height) \/
  (spacing = 0 /\ height <= 0) \/
  (0 < spacing /\ (height < spacing * sqrt 3 / 2 \/ width < spacing)) ->
  generatorsEmpty width height spacing /\
  (forall method value, PlantPlacer.applyFillMethod [] method value = []).
Proof.
  intros Hcase; pose proof sqrt3_bounds as H3.
  split; [|intros; apply applyFillMethod_nil].
  destruct Hcase as [(Hneg & Hh) | [(-> & Hh) | (Hpos & [Hh | Hw])]].
  - apply generatorsEmpty_no_rows; [lra | |].
    + now apply floorZ_div_nonpos.
    + apply floorZ_div_nonpos; [exact Hh | nra].
  - now apply generatorsEmpty_zero_spacing.
  - apply generatorsEmpty_no_rows; [lra | |].
    + apply floorZ_div_lt_one; [exact Hpos | nra].
    + apply floorZ_div_lt_one; [nra | exact Hh].
  - now apply generatorsEmpty_no_cols.
Qed.

Lemma C8_witness :
  ((-12 < 0 /\ 0 <= 96) \/
   (-12 = 0 /\ 96 <= 0) \/
   (0 < -12 /\ (96 < -12 * sqrt 3 / 2 \/ 48 < -12))) /\
  PlantPlacer.gridPattern 48 96 (-12) = Returns [] /\
  PlantPlacer.hexagonalPattern 48 96 (-12) = Returns [].
Proof.
  assert ((-12 < 0 /\ 0 <= 96) \/
          (-12 = 0 /\ 96 <= 0) \/
          (0 < -12 /\ (96 < -12 * sqrt 3 / 2 \/ 48 < -12))) as H by (left; lra).
  split; [exact H|].
  destruct (C8_degenerate_inputs_yield_nothing 48 96 (-12) H) as [(Hg & Hx & _) _].
  split; assumption.
Defined.

(** C8 fails as stated: with spacing 0 on a 48 x 96 bed the row bound is
    [floor(96/0) = +Infinity] and [gridPattern] never returns; with spacing
    -12 and width = height = -24 it returns four points. *)
Lemma C8_counterexample :
  (0 <= 0 /\ PlantPlacer.gridPattern 48 96 0 = Diverges /\
   PlantPlacer.hexagonalPattern 48 96 0 = Diverges) /\
  (-12 <= 0 /\
   exists pts, PlantPlacer.gridPattern (-24) (-24) (-12) = Returns pts /\
               List.length pts = 4%nat).
Proof.
  split; [split; [lra|split]|split; [lra|]].
  - unfold PlantPlacer.gridPattern; cbv zeta.
    rewrite (ndiv_by_zero 96 0) by lra; reflexivity.
  - unfold PlantPlacer.hexagonalPattern; cbv zeta.
    rewrite Math_sqrt_fin by lra; cbn [nmul].
    rewrite (ndiv_fin (0 * sqrt 3) 2) by lra.
    rewrite (ndiv_by_zero 96 (0 * sqrt 3 / 2)) by lra; reflexivity.
  - exists (gridPoints (-24) (-24) (-12)); split; [apply gridPattern_exact; lra|].
    rewrite length_gridPoints.
    assert (floorZ (-24 / -12) = 2%Z) as -> by (apply floorZ_unique; lra).
    reflexivity.
Qed.

(** ** A negative count *)

Lemma slice0_negative {A : Type} (l : list A) (n : Z) :
  (n < 0)%Z ->
  slice0 l (Math_min (Fin (IZR n)) (length_of l))
  = firstn (Z.to_nat (Z.of_nat (List.length l) + n)) l.
Proof.
  intros Hn; unfold length_of, ofZ; rewrite Math_min_fin, Rmin_IZR.
  rewrite Z.min_l by lia.
  unfold slice0; rewrite truncZ_IZR.
  destruct (Z.ltb_spec n 0); [reflexivity | lia].
Qed.

Lemma placeSpecificCount_negative (w h s : R) (n : Z) (radius : num) :
  s <> 0 -> (n < 0)%Z ->
  PlantPlacer.placeSpecificCount w h s (IZR n) "grid" false radius
  = Returns (firstn (Z.to_nat (Z.of_nat (List.length (gridPoints w h s)) + n))
                    (gridPoints w h s)).
Proof.
  intros Hs Hn; unfold PlantPlacer.placeSpecificCount, PlantPlacer.allPositions.
  change (is_hexagonal "grid") with false; cbv iota.
  rewrite gridPattern_exact by exact Hs; cbn [bind].
  now rewrite slice0_negative.
Qed.

Lemma placeSpecificCountV1_negative (w h s : R) (n : Z) (radius : num) :
  s <> 0 -> (n < 0)%Z ->
  PlantPlacerV1.placeSpecificCount w h s (IZR n) "grid" false radius
  = Returns (firstn (Z.to_nat (Z.of_nat (List.length (gridPointsV1 w h s)) + n))
                    (gridPointsV1 w h s)).
Proof.
  intros Hs Hn; unfold PlantPlacerV1.placeSpecificCount, PlantPlacerV1.allPositions.
  change (is_hexagonal "grid") with false; cbv iota.
  rewrite gridPatternV1_exact by exact Hs; cbn [bind].
  now rewrite slice0_negative.
Qed.

Lemma length_grid_48_96_12 :
  (Z.to_nat (floorZ (96 / 12)) * Z.to_nat (floorZ (48 / 12)))%nat = 32%nat.
Proof.
  assert (floorZ (96 / 12) = 8%Z) as -> by (apply floorZ_unique; lra).
  assert (floorZ (48 / 12) = 4%Z) as -> by (apply floorZ_unique; lra).
  reflexivity.
Qed.

(** C9, at the failing input: asked for -1 plants on a 48 x 96 bed with
    spacing 12 (32 grid positions), [placeSpecificCount] returns 31
    positions, not the empty sequence; so does the earlier revision. *)
Theorem C9_negative_count_returns_all_but_last :
  (exists pts,
      PlantPlacer.placeSpecificCount 48 96 12 (-1) "grid" false 0 = Returns pts /\
      List.length pts = 31%nat) /\
  (exists pts,
      PlantPlacerV1.placeSpecificCount 48 96 12 (-1) "grid" false 0 = Returns pts /\
      List.length pts = 31%nat).
Proof.
  split.
  - eexists; split; [apply (placeSpecificCount_negative 48 96 12 (-1)); [lra | lia]|].
    rewrite length_firstn, length_gridPoints, length_grid_48_96_12; reflexivity.
  - eexists; split; [apply (placeSpecificCountV1_negative 48 96 12 (-1)); [lra | lia]|].
    rewrite length_firstn, length_gridPointsV1, length_grid_48_96_12; reflexivity.
Qed.

(** ** Rows *)

Lemma length_rowsPoints (w s : R) (n : Z) (rowY colX : Z -> R) :
  List.length (rowsPoints w s n rowY colX)
  = (Z.to_nat n * Z.to_nat (floorZ (w / s)))%nat.
Proof.
  unfold rowsPoints.
  rewrite length_flat_map_const with (c := Z.to_nat (floorZ (w / s))).
  - now rewrite length_indices.
  - intros row _; now rewrite length_rowOf, trips_IZR.
Qed.

Lemma placeInRows_exact (w h s : R) (n : Z) (pattern : string) (radius : num) :
  s <> 0 -> (1 <= n)%Z ->
  PlantPlacer.placeInRows w h s (IZR n) pattern false radius
  = Returns (rowsPoints w s n
               (fun row => - h / 2 + h / IZR n / 2 + IZR row * (h / IZR n))
               (fun col => - w / 2 + s / 2 + IZR col * s)).
Proof.
  intros Hs Hn; unfold PlantPlacer.placeInRows, rowsPoints; cbv iota zeta.
  assert (IZR n <> 0) as Hn0 by (apply IZR_le in Hn; lra).
  rewrite !(ndiv_fin h (IZR n)) by exact Hn0.
  num_simpl.
  rewrite <- trips_IZR.
  apply for_lt_exact; intros row _ _.
  rewrite <- for_lt_push; reflexivity.
Qed.

Lemma placeInRowsV1_exact (w h s : R) (n : Z) (pattern : string) (radius : num) :
  s <> 0 -> (1 <= n)%Z ->
  PlantPlacerV1.placeInRows w h s (IZR n) pattern false radius
  = Returns (rowsPoints w s n
               (fun row => h / (IZR n + 1) * (IZR row + 1) - h / 2)
               (fun col => IZR col * s
                           + (w - (IZR (floorZ (w / s)) - 1) * s) / 2 - w / 2)).
Proof.
  intros Hs Hn; unfold PlantPlacerV1.placeInRows, rowsPoints; cbv iota zeta.
  assert (IZR n + 1 <> 0) as Hn0 by (apply IZR_le in Hn; lra).
  cbn [nadd].
  rewrite !(ndiv_fin h (IZR n + 1)) by exact Hn0.
  num_simpl.
  rewrite <- trips_IZR.
  apply for_lt_exact; intros row _ _.
  rewrite <- for_lt_push; reflexivity.
Qed.

(** C10. On a rectangular bed with width >= spacing > 0 and for every
    integer numRows >= 1, [placeInRows] returns exactly
    numRows * floor(width/spacing) points, whatever the height: row r holds
    floor(width/spacing) >= 1 points at height
    -height/2 + pitch/2 + r * pitch with pitch = height/numRows
    (pitch * (r + 1) - height/2 with pitch = height/(numRows + 1) in the
    earlier revision), and the pitch is below the spacing as soon as
    numRows * spacing > height. *)
Theorem C10_placeInRows_takes_row_count_literally
  (width height spacing : R) (numRows : Z) (pattern : string) (radius : num) :
  0 < spacing -> spacing <= width -> (1 <= numRows)%Z ->
  let cols := floorZ (width / spacing) in
  let pitch := height / IZR numRows in
  let pitchV1 := height / (IZR numRows + 1) in
  (exists pts,
      PlantPlacer.placeInRows width height spacing (IZR numRows) pattern false radius
      = Returns pts /\
      List.length pts = (Z.to_nat numRows * Z.to_nat cols)%nat /\
      pts = rowsPoints width spacing numRows
              (fun row => - height / 2 + pitch / 2 + IZR row * pitch)
              (fun col => - width / 2 + spacing / 2 + IZR col * spacing)) /\
  (exists pts,
      PlantPlacerV1.placeInRows width height spacing (IZR numRows) pattern false radius
      = Returns pts /\
      List.length pts = (Z.to_nat numRows * Z.to_nat cols)%nat /\
      pts = rowsPoints width spacing numRows
              (fun row => pitchV1 * (IZR row + 1) - height / 2)
              (fun col => IZR col * spacing
                          + (width - (IZR cols - 1) * spacing) / 2 - width / 2)) /\
  (1 <= cols)%Z /\
  (height < IZR numRows * spacing -> pitchV1 < spacing /\ pitch < spacing).
Proof.
  intros Hs Hw Hn cols pitch pitchV1.
  assert (0 < IZR numRows) as Hn0 by (apply IZR_le in Hn; lra).
  repeat split.
  - eexists; split; [apply placeInRows_exact; [lra | exact Hn]|].
    split; [apply length_rowsPoints | reflexivity].
  - eexists; split; [apply placeInRowsV1_exact; [lra | exact Hn]|].
    split; [apply length_rowsPoints | reflexivity].
  - apply floorZ_ge.
    apply Rmult_le_reg_r with (r := spacing); [exact Hs|].
    replace (width / spacing * spacing) with width by (field; lra); lra.
  - unfold pitchV1.
    apply Rmult_lt_reg_r with (r := IZR numRows + 1); [lra|].
    replace (height / (IZR numRows + 1) * (IZR numRows + 1)) with height by (field; lra).
    nra.
  - unfold pitch.
    apply Rmult_lt_reg_r with (r := IZR numRows); [lra|].
    replace (height / IZR numRows * IZR numRows) with height by (field; lra).
    nra.
Qed.

Lemma C10_witness :
  (0 < 12 /\ 12 <= 48 /\ (1 <= 20)%Z) /\
  exists pts,
    PlantPlacer.placeInRows 48 96 12 (IZR 20) "grid" false 0 = Returns pts /\
    List.length pts = (Z.to_nat 20 * Z.to_nat (floorZ (48 / 12)))%nat.
Proof.
  split; [split; [lra | split; [lra | lia]]|].
  destruct (C10_placeInRows_takes_row_count_literally 48 96 12 20 "grid" 0)
    as ((pts & E & Hlen & _) & _); [lra | lra | lia |].
  exists pts; split; assumption.
Defined.

(** ** Region mode places plants *)

Lemma for_lt_nonempty {A : Type} (r : R) (body : Z -> outcome (list A)) :
  0 < r ->
  (exists a l0, body 0%Z = Returns (a :: l0)) ->
  (forall k, (0 <= k)%Z -> IZR k < r -> exists lk, body k = Returns lk) ->
  exists a rest, for_lt (Fin r) body = Returns (a :: rest).
Proof.
  intros Hr (a & l0 & H0) Hall.
  destruct (for_lt_head (fun _ => True) r body Hr) as (a' & rest & E & _); eauto.
Qed.

Lemma floorZ_div_ge_one (a b : R) : 0 < b -> b <= a -> (1 <= floorZ (a / b))%Z.
Proof.
  intros Hb Hab; apply floorZ_ge.
  apply Rmult_le_reg_r with (r := b); [exact Hb|].
  replace (a / b * b) with a by (field; lra); lra.
Qed.

(** A strip at least one spacing high and wide gets at least one grid point. *)
Lemma generateGridInHorizontalStrip_nonempty (w sh s top : R) :
  0 < s -> s <= w -> s <= sh ->
  exists p rest,
    PlantPlacer.generateGridInHorizontalStrip w sh s top (Fin (top + sh)) "auto" 0
    = Returns (p :: rest).
Proof.
  intros Hs Hw Hsh; unfold PlantPlacer.generateGridInHorizontalStrip; cbv zeta.
  unfold PlantPlacer.limitRows; change (is_method "auto" "rows") with false; cbv iota.
  cbn [andb]; num_simpl.
  pose proof (floorZ_div_ge_one sh s Hs Hsh) as Hrows; apply IZR_le in Hrows.
  pose proof (floorZ_div_ge_one w s Hs Hw) as Hcols; apply IZR_le in Hcols.
  pose proof (floorZ_spec (sh / s)) as [Hr _].
  assert (sh / s * s = sh) as Eh by (field; lra).
  apply for_lt_nonempty; [lra | |].
  - strip_simpl.
    rewrite (proj2 (Rleb_true _ _)), (proj2 (Rleb_true _ _)) by nra.
    cbn [andb]; apply for_lt_nonempty; [lra | |].
    + eexists _, _; reflexivity.
    + intros; eexists; reflexivity.
  - intros k _ _; cbv beta.
    match goal with |- context [if ?c then _ else _] => destruct c end;
      [|eexists; reflexivity].
    rewrite for_lt_push; eexists; reflexivity.
Qed.

Lemma morePlants_nonempty (p : Point) (rest hexPositions : list Point) :
  exists q rest', PlantPlacer.morePlants (p :: rest) hexPositions = q :: rest'.
Proof.
  unfold PlantPlacer.morePlants.
  destruct (Nat.ltb_spec (List.length (p :: rest)) (List.length hexPositions)) as [H|H].
  - destruct hexPositions as [|q rest']; [cbn in H; lia | eauto].
  - eauto.
Qed.

(** On a 96 x 48 bed split at 0.5, the first of two groups of spacing 12 is
    given at least one position in its half. *)
Example first_group_of_split_bed_is_planted :
  let bed := bedWith [mkGroup 12 None; mkGroup 12 None] [0.5] in
  exists p rest,
    PlantPlacer.placeInRegion 96 48 12 false 0 true (getRegionBounds bed 0%Z)
    = Returns (p :: rest).
Proof.
  intros bed.
  change (getRegionBounds bed 0%Z) with (mkBounds (Fin 0) (Fin 0.5)).
  unfold PlantPlacer.placeInRegion, PlantPlacer.placeInHorizontalRegion.
  cbn [b_start b_end]; num_simpl.
  destruct (generateGridInHorizontalStrip_nonempty 96 (48 * (0.5 + - 0)) 12
              (- (48) / 2 + 0 * 48)) as (p & rest & ->); try lra.
  destruct (generateHexInHorizontalStrip_inStrip 96 (48 * (0.5 + - 0)) 12
              (- (48) / 2 + 0 * 48) (- (48) / 2 + 0 * 48 + 48 * (0.5 + - 0))
              "auto" 0) as (hexPositions & -> & _); [lra|].
  cbn [bind]; destruct (morePlants_nonempty p rest hexPositions) as (q & rest' & ->).
  eauto.
Qed.

(** * Further properties of the engine *)

(** ** The flat conflict filter *)








(** ** The rows method *)

Lemma placeInRows_circle_onRowRing (w h : num) (spacing rows radius : R)
  (pattern : string) :
  spacing <> 0 ->
  yields (PlantPlacer.placeInRows w h spacing rows pattern true radius)
         (onRowRing radius rows).
Proof.
  intros Hs; unfold PlantPlacer.placeInRows; cbv iota zeta.
  apply for_lt_Forall; intros k Hk0 Hk.
  pose proof (IZR_le _ _ Hk0) as Hk0'.
  rewrite !(ndiv_fin radius rows) by lra.
  ring_simpl.
  apply for_lt_Forall; intros i Hi0 Hi.
  apply IZR_le in Hi0.
  rewrite ndiv_fin by lra.
  ring_simpl; apply push_Forall.
  exists k; split; [exact Hk0|]; split; [exact Hk|].
  eexists; reflexivity.
Qed.

Lemma placeInRowsV1_circle_onRowRing (w h : num) (spacing rows radius : R)
  (pattern : string) :
  spacing <> 0 ->
  yields (PlantPlacerV1.placeInRows w h spacing rows pattern true radius)
         (onRowRing radius rows).
Proof.
  intros Hs; unfold PlantPlacerV1.placeInRows; cbv iota zeta.
  apply for_lt_Forall; intros k Hk0 Hk.
  pose proof (IZR_le _ _ Hk0) as Hk0'.
  rewrite !(ndiv_fin radius rows) by lra.
  ring_simpl.
  apply for_lt_Forall; intros i Hi0 Hi.
  apply IZR_le in Hi0.
  rewrite ndiv_fin by lra.
  ring_simpl; apply push_Forall.
  exists k; split; [exact Hk0|]; split; [exact Hk|].
  eexists; reflexivity.
Qed.






(** ** Placement with awareness of existing plants *)

Ltac method_simpl :=
  repeat match goal with
         | |- context [is_method ?a ?b] =>
             let v := eval vm_compute in (is_method a b) in
             change (is_method a b) with v
         end;
  cbv iota.







(** ** The count method *)

Lemma placeSpecificCount_prefix (width height spacing : num) (n : Z)
  (pattern : string) (isCircle : bool) (radius : num) (all : list Point) :
  (0 <= n)%Z ->
  PlantPlacer.allPositions width height spacing pattern isCircle radius = Returns all ->
  PlantPlacer.placeSpecificCount width height spacing (IZR n) pattern isCircle radius
  = Returns (firstn (Z.to_nat n) all).
Proof.
  intros Hn Hall; unfold PlantPlacer.placeSpecificCount.
  rewrite Hall; cbn [bind]; now rewrite slice0_min_length.
Qed.

Lemma placeSpecificCountV1_prefix (width height spacing : num) (n : Z)
  (pattern : string) (isCircle : bool) (radius : num) (all : list Point) :
  (0 <= n)%Z ->
  PlantPlacerV1.allPositions width height spacing pattern isCircle radius = Returns all ->
  PlantPlacerV1.placeSpecificCount width height spacing (IZR n) pattern isCircle radius
  = Returns (firstn (Z.to_nat n) all).
Proof.
  intros Hn Hall; unfold PlantPlacerV1.placeSpecificCount.
  rewrite Hall; cbn [bind]; now rewrite slice0_min_length.
Qed.

Lemma placeWithAwareness_count (width height spacing : num) (n : Z)
  (pattern : string) (isCircle : bool) (radius : num)
  (existing : option (list PlantGroup)) (all : list Point) :
  (0 <= n)%Z ->
  PlantPlacer.allPositions width height spacing pattern isCircle radius = Returns all ->
  PlantPlacer.placeWithAwareness width height spacing pattern "count" (IZR n)
    isCircle radius existing
  = Returns (Some (firstn (Z.to_nat n) (availableOf existing spacing all))).
Proof.
  intros Hn Hall; unfold PlantPlacer.placeWithAwareness; method_simpl.
  rewrite Hall; cbn [bind]; rewrite filterAvailablePositions_defined; cbn [bind].
  unfold PlantPlacer.sliceOf; now rewrite slice0_min_length.
Qed.

Lemma placeWithAwarenessV1_count (width height spacing : num) (n : Z)
  (pattern : string) (isCircle : bool) (radius : num)
  (existing : option (list PlantGroup)) (all : list Point) :
  (0 <= n)%Z ->
  PlantPlacerV1.allPositions width height spacing pattern isCircle radius = Returns all ->
  PlantPlacerV1.placeWithAwareness width height spacing pattern "count" (IZR n)
    isCircle radius existing
  = Returns (Some (firstn (Z.to_nat n) (availableOf existing spacing all))).
Proof.
  intros Hn Hall; unfold PlantPlacerV1.placeWithAwareness; method_simpl.
  rewrite Hall; cbn [bind]; rewrite filterAvailablePositions_defined; cbn [bind].
  unfold PlantPlacer.sliceOf; now rewrite slice0_min_length.
Qed.

(** X2. For an integer count n >= 0 and spacing > 0, [placeSpecificCount]
    returns the first n of all the positions of the bed (all of them when
    there are fewer): a prefix of length min(n, M); the [count] method of
    [placeWithAwareness] returns the first n of the positions left by the
    conflict filter.  Both revisions. *)
Theorem X2_count_keeps_a_prefix
  (width height radius spacing : R) (n : Z) (pattern : string) (isCircle : bool)
  (existing : option (list PlantGroup)) :
  0 < spacing -> (0 <= n)%Z ->
  (exists all,
      PlantPlacer.allPositions width height spacing pattern isCircle radius = Returns all /\
      PlantPlacer.placeSpecificCount width height spacing (IZR n) pattern isCircle radius
      = Returns (firstn (Z.to_nat n) all) /\
      List.length (firstn (Z.to_nat n) all) = Nat.min (Z.to_nat n) (List.length all) /\
      PlantPlacer.placeWithAwareness width height spacing pattern "count" (IZR n)
        isCircle radius existing
      = Returns (Some (firstn (Z.to_nat n) (availableOf existing spacing all)))) /\
  (exists all,
      PlantPlacerV1.allPositions width height spacing pattern isCircle radius = Returns all /\
      PlantPlacerV1.placeSpecificCount width height spacing (IZR n) pattern isCircle radius
      = Returns (firstn (Z.to_nat n) all) /\
      PlantPlacerV1.placeWithAwareness width height spacing pattern "count" (IZR n)
        isCircle radius existing
      = Returns (Some (firstn (Z.to_nat n) (availableOf existing spacing all)))).
Proof.
  intros Hs Hn; split.
  - destruct (allPositions_returns width height radius spacing pattern isCircle Hs)
      as (all & E).
    exists all; split; [exact E|]; split; [now apply placeSpecificCount_prefix|].
    split; [apply length_firstn | now apply placeWithAwareness_count].
  - destruct (allPositionsV1_returns width height radius spacing pattern isCircle Hs)
      as (all & E).
    exists all; split; [exact E|]; split; [now apply placeSpecificCountV1_prefix|].
    now apply placeWithAwarenessV1_count.
Qed.

Lemma X2_witness :
  (0 < 12 /\ (0 <= 10)%Z) /\
  exists all,
    PlantPlacer.allPositions 48 96 12 "grid" false 0 = Returns all /\
    PlantPlacer.placeSpecificCount 48 96 12 (IZR 10) "grid" false 0
    = Returns (firstn (Z.to_nat 10) all).
Proof.
  split; [split; [lra | lia]|].
  destruct (X2_count_keeps_a_prefix 48 96 0 12 10 "grid" false None)
    as ((all & E & Hc & _) & _); [lra | lia |].
  exists all; split; assumption.
Defined.

(** ** The fill resolver *)

Lemma slice0_prefix {A : Type} (l : list A) (e : num) :
  exists n, slice0 l e = firstn n l.
Proof.
  unfold slice0; destruct e as [r| | |].
  - cbv zeta; destruct (_ <? 0)%Z; eauto.
  - exists (List.length l); now rewrite firstn_all.
  - now exists 0%nat.
  - now exists 0%nat.
Qed.

Lemma applyFillMethod_other (positions : list Point) (method : string) (value : num) :
  method <> "count"%string -> method <> "percentage"%string ->
  PlantPlacer.applyFillMethod positions method value = positions.
Proof.
  intros Hc Hp; unfold PlantPlacer.applyFillMethod, is_method.
  apply String.eqb_neq in Hc, Hp; rewrite Hc, Hp.
  now destruct (String.eqb method "auto"), (String.eqb method "rows").
Qed.

Lemma applyFillMethod_count (positions : list Point) (n : Z) :
  (0 <= n)%Z ->
  PlantPlacer.applyFillMethod positions "count" (IZR n) = firstn (Z.to_nat n) positions.
Proof.
  intros Hn; unfold PlantPlacer.applyFillMethod; method_simpl.
  now apply slice0_min_length.
Qed.

(** X3. Whatever the method and the value (negative, fractional, infinite
    or NaN included), [applyFillMethod] returns a prefix of the positions it
    is given: it never reorders, skips or invents a position.  Every method
    other than [count] and [percentage] returns the positions unchanged, and
    [count] with an integer n >= 0 returns the first n. *)
Theorem X3_applyFillMethod_returns_a_prefix (positions : list Point) :
  (forall method value,
      exists n, PlantPlacer.applyFillMethod positions method value = firstn n positions) /\
  (forall method value,
      method <> "count"%string -> method <> "percentage"%string ->
      PlantPlacer.applyFillMethod positions method value = positions) /\
  (forall n : Z,
      (0 <= n)%Z ->
      PlantPlacer.applyFillMethod positions "count" (IZR n)
      = firstn (Z.to_nat n) positions).
Proof.
  split; [|split].
  - intros method value.
    destruct (string_dec method "count") as [->|Hc].
    + unfold PlantPlacer.applyFillMethod; method_simpl; apply slice0_prefix.
    + destruct (string_dec method "percentage") as [->|Hp].
      * unfold PlantPlacer.applyFillMethod; method_simpl; cbv zeta; apply slice0_prefix.
      * exists (List.length positions).
        rewrite applyFillMethod_other, firstn_all by assumption; reflexivity.
  - intros; now apply applyFillMethod_other.
  - intros; now apply applyFillMethod_count.
Qed.

Lemma X3_witness :
  ("rows"%string <> "count"%string /\ "rows"%string <> "percentage"%string) /\
  PlantPlacer.applyFillMethod [mkPoint 0 0; mkPoint 12 0] "rows" 1
  = [mkPoint 0 0; mkPoint 12 0].
Proof.
  assert ("rows"%string <> "count"%string /\ "rows"%string <> "percentage"%string) as H
      by (split; discriminate).
  split; [exact H|].
  destruct (X3_applyFillMethod_returns_a_prefix [mkPoint 0 0; mkPoint 12 0])
    as (_ & Hother & _).
  exact (Hother "rows"%string 1%num (proj1 H) (proj2 H)).
Defined.

(** ** More percent, more plants *)

Lemma percentCount_mono {A : Type} (l : list A) (p q : R) :
  p <= q -> (percentCount l p <= percentCount l q)%nat.
Proof.
  intros Hpq; unfold percentCount.
  assert (0 <= IZR (Z.of_nat (List.length l))) as Hlen by (apply IZR_le; lia).
  assert (floorZ (IZR (Z.of_nat (List.length l)) * (p / 100))
          <= floorZ (IZR (Z.of_nat (List.length l)) * (q / 100)))%Z; [|lia].
  apply floorZ_le, Rmult_le_compat_l; [exact Hlen | lra].
Qed.

Lemma percentCount_zero {A : Type} (l : list A) : percentCount l 0 = 0%nat.
Proof.
  unfold percentCount.
  replace (IZR (Z.of_nat (List.length l)) * (0 / 100)) with (IZR 0) by lra.
  now rewrite floorZ_IZR.
Qed.

Lemma percentCount_full {A : Type} (l : list A) (q : R) :
  100 <= q -> (List.length l <= percentCount l q)%nat.
Proof.
  intros Hq; unfold percentCount.
  assert (0 <= IZR (Z.of_nat (List.length l))) as Hlen by (apply IZR_le; lia).
  assert (Z.of_nat (List.length l)
          <= floorZ (IZR (Z.of_nat (List.length l)) * (q / 100)))%Z; [|lia].
  apply floorZ_ge; nra.
Qed.

Lemma firstn_firstn_le {A : Type} (a b : nat) (l : list A) :
  (a <= b)%nat -> firstn a (firstn b l) = firstn a l.
Proof. intros H; rewrite firstn_firstn; now rewrite Nat.min_l. Qed.

(** X4. [placeByPercentage] with 0 <= p <= q and spacing > 0: the result
    for p is a prefix of the result for q (more percent never removes or
    moves a plant); 0 percent places nothing, and 100 percent or more
    places every position of the bed. *)
Theorem X4_percentage_is_monotone
  (width height radius spacing p q : R) (pattern : string) (isCircle : bool) :
  0 < spacing -> 0 <= p <= q ->
  exists all atP atQ,
    PlantPlacer.allPositions width height spacing pattern isCircle radius = Returns all /\
    PlantPlacer.placeByPercentage width height spacing p pattern isCircle radius
    = Returns atP /\
    PlantPlacer.placeByPercentage width height spacing q pattern isCircle radius
    = Returns atQ /\
    atP = firstn (List.length atP) atQ /\
    (p = 0 -> atP = []) /\
    (100 <= q -> atQ = all).
Proof.
  intros Hs [Hp Hpq].
  destruct (allPositions_returns width height radius spacing pattern isCircle Hs)
    as (all & E).
  exists all, (firstn (percentCount all p) all), (firstn (percentCount all q) all).
  split; [exact E|].
  split; [apply placeByPercentage_prefix; [lra | exact E]|].
  split; [apply placeByPercentage_prefix; [lra | exact E]|].
  pose proof (percentCount_mono all p q Hpq) as Hmono.
  split; [|split].
  - rewrite length_firstn, firstn_firstn.
    replace (Nat.min (Nat.min (percentCount all p) (List.length all)) (percentCount all q))
      with (Nat.min (percentCount all p) (List.length all)) by lia.
    now rewrite firstn_min_length.
  - intros ->; now rewrite percentCount_zero.
  - intros Hq; apply firstn_all2, percentCount_full, Hq.
Qed.

Lemma X4_witness :
  (0 < 12 /\ 0 <= 25 <= 50) /\
  exists all atP atQ,
    PlantPlacer.allPositions 48 96 12 "grid" false 0 = Returns all /\
    PlantPlacer.placeByPercentage 48 96 12 25 "grid" false 0 = Returns atP /\
    PlantPlacer.placeByPercentage 48 96 12 50 "grid" false 0 = Returns atQ /\
    atP = firstn (List.length atP) atQ.
Proof.
  split; [lra|].
  destruct (X4_percentage_is_monotone 48 96 0 12 25 50 "grid" false)
    as (all & atP & atQ & E & EP & EQ & Hpre & _); [lra | lra |].
  exists all, atP, atQ; repeat split; assumption.
Defined.

(** ** Used space and capacity *)

Lemma plantCount_cons (g : PlantGroup) (gs : list PlantGroup) :
  plantCount (g :: gs)
  = (match g_positions g with
     | Some positions => List.length positions
     | None => 0%nat
     end + plantCount gs)%nat.
Proof. reflexivity. Qed.

Lemma usedSpace_fold (groups : list PlantGroup) :
  forall a : nat,
    fold_left (fun (sum : num) (group : PlantGroup) =>
                 nadd sum match g_positions group with
                          | Some positions => length_of positions
                          | None => ofZ 0
                          end) groups (ofZ (Z.of_nat a))
    = ofZ (Z.of_nat (a + plantCount groups)).
Proof.
  induction groups as [|g gs IH]; intros a; cbn [fold_left].
  - change (plantCount []) with 0%nat; now rewrite Nat.add_0_r.
  - rewrite plantCount_cons.
    replace (nadd (ofZ (Z.of_nat a))
                  match g_positions g with
                  | Some positions => length_of positions
                  | None => ofZ 0
                  end)
      with (ofZ (Z.of_nat
                   (a + match g_positions g with
                        | Some positions => List.length positions
                        | None => 0%nat
                        end))).
    + rewrite IH, Nat.add_assoc; reflexivity.
    + unfold length_of, ofZ; destruct (g_positions g); cbn [nadd];
        rewrite <- plus_IZR; apply f_equal, f_equal; lia.
Qed.

Lemma calculateUsedSpace_plantCount (existing : option (list PlantGroup)) :
  PlantPlacer.calculateUsedSpace existing = ofZ (Z.of_nat (plantCount (groupsOf existing))).
Proof.
  unfold PlantPlacer.calculateUsedSpace.
  destruct existing as [[|g gs]|]; try reflexivity.
  apply (usedSpace_fold (g :: gs) 0).
Qed.

Lemma plantCount_app (groups1 groups2 : list PlantGroup) :
  plantCount (groups1 ++ groups2) = (plantCount groups1 + plantCount groups2)%nat.
Proof. unfold plantCount; now rewrite map_app, list_sum_app. Qed.

(** X5. [calculateUsedSpace] returns the total number of positions of the
    groups it is given: a group without positions counts for nothing, no
    groups (null or an empty array) give 0, and the used space of two
    lists of groups put together is the sum of their used spaces. *)
Theorem X5_calculateUsedSpace_counts_positions :
  (forall existing,
      PlantPlacer.calculateUsedSpace existing
      = ofZ (Z.of_nat (plantCount (groupsOf existing)))) /\
  PlantPlacer.calculateUsedSpace None = ofZ 0 /\
  PlantPlacer.calculateUsedSpace (Some []) = ofZ 0 /\
  (forall spacing groups,
      PlantPlacer.calculateUsedSpace (Some (mkGroup spacing None :: groups))
      = PlantPlacer.calculateUsedSpace (Some groups)) /\
  (forall groups1 groups2,
      PlantPlacer.calculateUsedSpace (Some (groups1 ++ groups2))
      = nadd (PlantPlacer.calculateUsedSpace (Some groups1))
             (PlantPlacer.calculateUsedSpace (Some groups2))).
Proof.
  split; [apply calculateUsedSpace_plantCount|].
  split; [reflexivity|]; split; [reflexivity|]; split.
  - intros spacing groups; rewrite !calculateUsedSpace_plantCount; reflexivity.
  - intros groups1 groups2; rewrite !calculateUsedSpace_plantCount.
    cbn [groupsOf]; rewrite plantCount_app; unfold ofZ; cbn [nadd].
    now rewrite Nat2Z.inj_add, plus_IZR.
Qed.

Lemma placeWithAwareness_auto (width height spacing : num) (pattern : string)
  (value : num) (isCircle : bool) (radius : num)
  (existing : option (list PlantGroup)) (all : list Point) :
  PlantPlacer.allPositions width height spacing pattern isCircle radius = Returns all ->
  let remaining :=
    (Z.of_nat (List.length all) - Z.of_nat (plantCount (groupsOf existing)))%Z in
  let available := availableOf existing spacing all in
  PlantPlacer.placeWithAwareness width height spacing pattern "auto" value
    isCircle radius existing
  = Returns (Some (slice0 available (Math_min (Fin (IZR remaining)) (length_of available)))).
Proof.
  intros Hall remaining available.
  unfold PlantPlacer.placeWithAwareness; method_simpl.
  unfold PlantPlacer.calculateBedCapacity; rewrite Hall; cbn [bind].
  assert ((if isCircle then PlantPlacer.placeInCircle radius spacing pattern
           else PlantPlacer.placeInRectangle width height spacing pattern)
          = Returns all) as ->.
  { rewrite <- Hall; unfold PlantPlacer.allPositions, PlantPlacer.placeInRectangle.
    reflexivity. }
  cbn [bind]; rewrite filterAvailablePositions_defined; cbn [bind].
  unfold PlantPlacer.sliceOf; fold available.
  rewrite calculateUsedSpace_plantCount.
  unfold length_of at 1, ofZ at 1 2; cbn [nsub nneg nadd].
  rewrite <- opp_IZR, <- plus_IZR; reflexivity.
Qed.

(** X6. The [auto] method of [placeWithAwareness] (current revision), for
    spacing > 0 and whatever the value: with capacity the number of
    positions of the empty bed and used the number of plants already in the
    bed, it returns the first (capacity - used) of the positions left by the
    conflict filter when used <= capacity, so that the plants placed and the
    plants already there never exceed the capacity; when the bed is already
    over capacity it returns all but the last (used - capacity) of them. *)
Theorem X6_auto_fills_the_remaining_capacity
  (width height radius spacing : R) (pattern : string) (value : num)
  (isCircle : bool) (existing : option (list PlantGroup)) :
  0 < spacing ->
  exists all result,
    PlantPlacer.allPositions width height spacing pattern isCircle radius = Returns all /\
    PlantPlacer.placeWithAwareness width height spacing pattern "auto" value
      isCircle radius existing = Returns (Some result) /\
    let capacity := List.length all in
    let used := plantCount (groupsOf existing) in
    let available := availableOf existing spacing all in
    ((used <= capacity)%nat ->
     result = firstn (capacity - used) available /\
     (List.length result + used <= capacity)%nat) /\
    ((capacity < used)%nat ->
     result = firstn (List.length available - (used - capacity)) available).
Proof.
  intros Hs.
  destruct (allPositions_returns width height radius spacing pattern isCircle Hs)
    as (all & E).
  eexists all, _; split; [exact E|].
  split; [apply placeWithAwareness_auto, E|].
  cbv zeta; split.
  - intros Hused.
    rewrite slice0_min_length by lia.
    replace (Z.to_nat (Z.of_nat (List.length all)
                       - Z.of_nat (plantCount (groupsOf existing))))
      with (List.length all - plantCount (groupsOf existing))%nat by lia.
    split; [reflexivity|].
    rewrite length_firstn; lia.
  - intros Hover.
    rewrite slice0_negative by lia.
    f_equal; lia.
Qed.

Lemma X6_witness :
  0 < 12 /\
  exists all result,
    PlantPlacer.allPositions 48 96 12 "grid" false 0 = Returns all /\
    PlantPlacer.placeWithAwareness 48 96 12 "grid" "auto" 0 false 0 None
    = Returns (Some result).
Proof.
  split; [lra|].
  destruct (X6_auto_fills_the_remaining_capacity 48 96 0 12 "grid" 0 false None)
    as (all & result & E & Er & _); [lra|].
  exists all, result; split; assumption.
Defined.

(** ** A method that is not one of the four *)

Lemma is_method_unknown (method : string) :
  ~ knownMethod method ->
  is_method method "auto" = false /\ is_method method "count" = false /\
  is_method method "rows" = false /\ is_method method "percentage" = false.
Proof.
  intros H; unfold is_method, knownMethod in *.
  repeat split; apply String.eqb_neq; intros E; apply H; auto.
Qed.

(** X7. With a method other than auto, count, rows and percentage,
    [placeWithAwareness] generates no candidates at all: it returns
    [undefined] when there are no existing groups (null or an empty array)
    and raises a [TypeError] as soon as there is one, whatever the other
    arguments.  Both revisions. *)
Theorem X7_unknown_method_is_undefined_or_fails
  (width height spacing : num) (pattern method : string) (value : num)
  (isCircle : bool) (radius : num) :
  ~ knownMethod method ->
  (forall existing,
      existing = None \/ existing = Some [] ->
      PlantPlacer.placeWithAwareness width height spacing pattern method value
        isCircle radius existing = Returns None /\
      PlantPlacerV1.placeWithAwareness width height spacing pattern method value
        isCircle radius existing = Returns None) /\
  (forall group groups,
      PlantPlacer.placeWithAwareness width height spacing pattern method value
        isCircle radius (Some (group :: groups)) = Throws /\
      PlantPlacerV1.placeWithAwareness width height spacing pattern method value
        isCircle radius (Some (group :: groups)) = Throws).
Proof.
  intros Hm; destruct (is_method_unknown method Hm) as (Ha & Hc & Hr & Hp).
  unfold PlantPlacer.placeWithAwareness, PlantPlacerV1.placeWithAwareness.
  rewrite Ha, Hc, Hr, Hp; cbn [bind].
  split.
  - intros existing [-> | ->]; split; reflexivity.
  - intros group groups; split; reflexivity.
Qed.

Lemma X7_witness :
  ~ knownMethod "density" /\
  PlantPlacer.placeWithAwareness 48 96 12 "grid" "density" 3 false 0
    (Some [mkGroup 12 None]) = Throws.
Proof.
  assert (~ knownMethod "density") as H
      by (intros [E | [E | [E | E]]]; discriminate).
  split; [exact H|].
  destruct (X7_unknown_method_is_undefined_or_fails 48 96 12 "grid" "density" 3 false 0 H)
    as [_ Hthrows].
  exact (proj1 (Hthrows (mkGroup 12 None) [])).
Defined.

(** ** Capacity *)

Lemma calculateBedCapacity_length (width height spacing : num) (pattern : string)
  (isCircle : bool) (radius : num) (all : list Point) :
  PlantPlacer.allPositions width height spacing pattern isCircle radius = Returns all ->
  PlantPlacer.calculateBedCapacity width height spacing pattern isCircle radius
  = Returns (length_of all).
Proof. intros E; unfold PlantPlacer.calculateBedCapacity; now rewrite E. Qed.

(** X8. For spacing > 0, the capacity of a rectangular bed is
    floor(height/spacing) * floor(width/spacing) with the grid pattern, and
    with the hexagonal pattern ceil(rows/2) rows of floor((width -
    spacing/2)/spacing) plants and floor(rows/2) rows of
    floor((width - spacing)/spacing) plants, rows being
    floor(height / (spacing * sqrt 3 / 2)) (a negative count is 0); the
    capacity of a circular bed is at most that of the square around it. *)
Theorem X8_bed_capacity
  (width height radius spacing : R) (pattern : string) :
  0 < spacing ->
  (pattern <> "hexagonal"%string ->
   PlantPlacer.calculateBedCapacity width height spacing pattern false radius
   = Returns (ofZ (Z.of_nat (gridCapacity width height spacing)))) /\
  PlantPlacer.calculateBedCapacity width height spacing "hexagonal" false radius
  = Returns (ofZ (Z.of_nat (hexCapacity width height spacing))) /\
  (exists inCircle inSquare : nat,
      PlantPlacer.calculateBedCapacity width height spacing pattern true radius
      = Returns (ofZ (Z.of_nat inCircle)) /\
      PlantPlacer.calculateBedCapacity (Fin (radius * 2)) (Fin (radius * 2)) spacing
        pattern false radius
      = Returns (ofZ (Z.of_nat inSquare)) /\
      (inCircle <= inSquare)%nat).
Proof.
  intros Hs; split; [|split].
  - intros Hp.
    rewrite (calculateBedCapacity_length _ _ _ _ _ _ (gridPoints width height spacing)).
    + unfold length_of; now rewrite length_gridPoints.
    + unfold PlantPlacer.allPositions, is_hexagonal.
      apply String.eqb_neq in Hp; rewrite Hp.
      apply gridPattern_exact; lra.
  - rewrite (calculateBedCapacity_length _ _ _ _ _ _ (hexPoints width height spacing)).
    + unfold length_of; now rewrite length_hexPoints.
    + unfold PlantPlacer.allPositions.
      change (is_hexagonal "hexagonal") with true; cbv iota.
      apply hexagonalPattern_exact; lra.
  - assert (exists square,
               PlantPlacer.allPositions (Fin (radius * 2)) (Fin (radius * 2)) spacing
                 pattern false radius
               = Returns square) as (square & Esq)
        by (now apply allPositions_returns).
    exists (List.length (filter (PlantPlacer.withinCircle radius spacing) square)),
      (List.length square).
    split; [|split].
    + apply calculateBedCapacity_length.
      unfold PlantPlacer.allPositions, PlantPlacer.placeInCircle in *; cbv zeta.
      cbn [nmul]; rewrite Esq; reflexivity.
    + now apply calculateBedCapacity_length.
    + apply filter_length_le.
Qed.

Lemma X8_witness :
  (0 < 12 /\ "grid"%string <> "hexagonal"%string) /\
  PlantPlacer.calculateBedCapacity 48 96 12 "grid" false 0
  = Returns (ofZ (Z.of_nat (gridCapacity 48 96 12))).
Proof.
  assert (0 < 12 /\ "grid"%string <> "hexagonal"%string) as H
      by (split; [lra | discriminate]).
  split; [exact H|].
  exact (proj1 (X8_bed_capacity 48 96 0 12 "grid" (proj1 H)) (proj2 H)).
Defined.

(** ** Strips lie inside the bed *)

Lemma generateGridInHorizontalStrip_inBox
  (w sh s top bottom : R) (method : string) (value : num) :
  0 < s ->
  yields (PlantPlacer.generateGridInHorizontalStrip w sh s top bottom method value)
         (inBox (- w / 2) (w / 2) top bottom).
Proof.
  intros Hs; unfold PlantPlacer.generateGridInHorizontalStrip; cbv zeta.
  strip_simpl.
  destruct (limitRows_fin method value (IZR (floorZ (sh / s)))) as [m ->].
  pose proof (floorZ_spec (w / s)) as Hc.
  assert (w / s * s = w) as Ew by (field; lra).
  apply for_lt_Forall; intros row _ _.
  strip_simpl.
  match goal with |- context [if ?c then _ else _] => destruct c eqn:Hcond end;
    [|apply nil_Forall].
  apply andb_true_iff in Hcond as [H1 H2]; apply Rleb_true in H1, H2.
  apply for_lt_Forall; intros col Hcol0 Hcol.
  strip_simpl; apply push_Forall.
  apply lt_IZR, Zlt_le_succ, IZR_le in Hcol; rewrite succ_IZR in Hcol.
  apply IZR_le in Hcol0.
  eexists _, _; split; [reflexivity|]; split; [nra | lra].
Qed.

Lemma generateHexInHorizontalStrip_inBox
  (w sh s top bottom : R) (method : string) (value : num) :
  0 < s ->
  yields (PlantPlacer.generateHexInHorizontalStrip w sh s top bottom method value)
         (inBox (- w / 2) (w / 2) top bottom).
Proof.
  intros Hs; unfold PlantPlacer.generateHexInHorizontalStrip; cbv zeta.
  strip_simpl.
  destruct (limitRows_fin method value (IZR (floorZ (sh / (s * sqrt 3 / 2))))) as [m ->].
  apply for_lt_Forall; intros row Hrow0 _.
  strip_simpl.
  match goal with |- context [if ?c then _ else _] => destruct c eqn:Hcond end;
    [|apply nil_Forall].
  apply andb_true_iff in Hcond as [H1 H2]; apply Rleb_true in H1, H2.
  set (offset := IZR (Z.rem row 2) * (s / 2)) in *.
  assert (0 <= offset <= s / 2) as Hoff.
  { unfold offset; destruct (rem2_cases row Hrow0) as [E|E]; rewrite E; lra. }
  set (q := (w + - offset) / s).
  pose proof (floorZ_spec q) as Hc.
  assert (q * s = w - offset) as Eq by (unfold q; field; lra).
  apply for_lt_Forall; intros col Hcol0 Hcol.
  strip_simpl; apply push_Forall.
  apply lt_IZR, Zlt_le_succ, IZR_le in Hcol; rewrite succ_IZR in Hcol.
  apply IZR_le in Hcol0.
  eexists _, _; split; [reflexivity|]; split; [nra | lra].
Qed.

Lemma generateGridInVerticalStrip_inBox
  (sw h s left right : R) (method : string) (value : num) :
  0 < s ->
  yields (PlantPlacer.generateGridInVerticalStrip sw h s left right method value)
         (inBox left right (- h / 2) (h / 2)).
Proof.
  intros Hs; unfold PlantPlacer.generateGridInVerticalStrip; cbv zeta.
  strip_simpl.
  destruct (limitRows_fin method value (IZR (floorZ (sw / s)))) as [m ->].
  pose proof (floorZ_spec (h / s)) as Hr.
  assert (h / s * s = h) as Eh by (field; lra).
  apply for_lt_Forall; intros col _ _.
  strip_simpl.
  match goal with |- context [if ?c then _ else _] => destruct c eqn:Hcond end;
    [|apply nil_Forall].
  apply andb_true_iff in Hcond as [H1 H2]; apply Rleb_true in H1, H2.
  apply for_lt_Forall; intros row Hrow0 Hrow.
  strip_simpl; apply push_Forall.
  apply lt_IZR, Zlt_le_succ, IZR_le in Hrow; rewrite succ_IZR in Hrow.
  apply IZR_le in Hrow0.
  eexists _, _; split; [reflexivity|]; split; [lra | nra].
Qed.

Lemma generateHexInVerticalStrip_inBox
  (sw h s left right : R) (method : string) (value : num) :
  0 < s ->
  yields (PlantPlacer.generateHexInVerticalStrip sw h s left right method value)
         (inBox left right (- h / 2) (h / 2)).
Proof.
  intros Hs; pose proof sqrt3_bounds as H3.
  unfold PlantPlacer.generateHexInVerticalStrip; cbv zeta.
  hex_simpl.
  set (vs := s * sqrt 3 / 2).
  assert (0 < vs) as Hvs by (unfold vs; nra).
  pose proof (floorZ_spec (h / vs)) as Hr.
  assert (h / vs * vs = h) as Eh by (field; lra).
  apply for_lt_Forall; intros row Hrow0 Hrow.
  hex_simpl.
  match goal with
  | |- context [if ?c then Math_min value (Fin ?n) else _] =>
      assert (exists m : R, (if c then Math_min value (Fin n) else Fin n) = Fin m)
        as [m ->]
  end.
  { destruct (row =? 0)%Z; rewrite ?andb_false_r; [|eauto].
    rewrite andb_true_r; apply limitRows_fin. }
  strip_simpl.
  apply for_lt_Forall; intros col _ _.
  strip_simpl.
  match goal with |- context [if ?c then _ else _] => destruct c eqn:Hcond end;
    [|apply nil_Forall].
  apply andb_true_iff in Hcond as [H1 H2]; apply Rleb_true in H1, H2.
  apply push_Forall.
  apply lt_IZR, Zlt_le_succ, IZR_le in Hrow; rewrite succ_IZR in Hrow.
  apply IZR_le in Hrow0.
  eexists _, _; split; [reflexivity|]; split; [lra|].
  fold vs; nra.
Qed.

Lemma yields_layer_incl (grid hex : outcome (list Point)) (P : Point -> Prop)
  (spacing : num) (method : string) (value : num)
  (previousLayers : option (list PlantGroup)) :
  yields grid P -> yields hex P ->
  yields (gridPositions <- grid ;; hexPositions <- hex ;;
          let positions := PlantPlacer.morePlants gridPositions hexPositions in
          Returns (PlantPlacer.finishLayer positions spacing method value previousLayers))
         P.
Proof.
  intros (g & -> & Hg) (x & -> & Hx); cbn [bind]; cbv zeta.
  eexists; split; [reflexivity|].
  pose proof (morePlants_Forall P g x Hg Hx) as H.
  rewrite Forall_forall in *; intros p Hp.
  apply H; eapply filterByInterLayerSpacing_incl, finishLayer_incl, Hp.
Qed.

Lemma horizontal_region_inBox (w h s a b : R) (radius : num) :
  0 < s ->
  yields (PlantPlacer.placeInRegion w h s false radius true (mkBounds a b))
         (inBox (- w / 2) (w / 2) (- h / 2 + a * h) (- h / 2 + b * h)).
Proof.
  intros Hs; unfold PlantPlacer.placeInRegion, PlantPlacer.placeInHorizontalRegion.
  cbn [b_start b_end]; num_simpl.
  replace (- h / 2 + b * h) with (- h / 2 + a * h + h * (b + - a)) by ring.
  apply yields_morePlants.
  - now apply generateGridInHorizontalStrip_inBox.
  - now apply generateHexInHorizontalStrip_inBox.
Qed.

Lemma vertical_region_inBox (w h s a b : R) (radius : num) :
  0 < s ->
  yields (PlantPlacer.placeInRegion w h s false radius false (mkBounds a b))
         (inBox (- w / 2 + a * w) (- w / 2 + b * w) (- h / 2) (h / 2)).
Proof.
  intros Hs; unfold PlantPlacer.placeInRegion, PlantPlacer.placeInVerticalRegion.
  cbn [b_start b_end]; num_simpl.
  replace (- w / 2 + b * w) with (- w / 2 + a * w + w * (b + - a)) by ring.
  apply yields_morePlants.
  - now apply generateGridInVerticalStrip_inBox.
  - now apply generateHexInVerticalStrip_inBox.
Qed.

Lemma horizontal_layer_inBox (w h s a b : R) (pattern method : string)
  (value layerIndex totalLayers radius : num) (previousLayers : option (list PlantGroup)) :
  0 < s ->
  yields (PlantPlacer.placeInLayerWithBounds w h s pattern method value layerIndex
            totalLayers false radius true previousLayers (mkBounds a b))
         (inBox (- w / 2) (w / 2) (- h / 2 + a * h) (- h / 2 + b * h)).
Proof.
  intros Hs.
  unfold PlantPlacer.placeInLayerWithBounds, PlantPlacer.placeInHorizontalLayerWithBounds.
  cbn [b_start b_end]; num_simpl.
  replace (- h / 2 + b * h) with (- h / 2 + a * h + h * (b + - a)) by ring.
  apply yields_layer_incl.
  - now apply generateGridInHorizontalStrip_inBox.
  - now apply generateHexInHorizontalStrip_inBox.
Qed.

Lemma vertical_layer_inBox (w h s a b : R) (pattern method : string)
  (value layerIndex totalLayers radius : num) (previousLayers : option (list PlantGroup)) :
  0 < s ->
  yields (PlantPlacer.placeInLayerWithBounds w h s pattern method value layerIndex
            totalLayers false radius false previousLayers (mkBounds a b))
         (inBox (- w / 2 + a * w) (- w / 2 + b * w) (- h / 2) (h / 2)).
Proof.
  intros Hs.
  unfold PlantPlacer.placeInLayerWithBounds, PlantPlacer.placeInVerticalLayerWithBounds.
  cbn [b_start b_end]; num_simpl.
  replace (- w / 2 + b * w) with (- w / 2 + a * w + w * (b + - a)) by ring.
  apply yields_layer_incl.
  - now apply generateGridInVerticalStrip_inBox.
  - now apply generateHexInVerticalStrip_inBox.
Qed.

(** X9. On a rectangular bed, for spacing > 0: every position of a region
    or of a layer (region mode and layered path alike, whatever the fill
    method) lies within its own strip - between start and end of the bed's
    height on a horizontal bed, of its width on a vertical bed - and within
    the bed along the strip; so for bounds 0 <= start <= end <= 1 every
    position lies inside the bed. *)
Theorem X9_rectangular_regions_stay_in_their_strip
  (width height spacing a b : R) (pattern method : string)
  (value layerIndex totalLayers radius : num) (previousLayers : option (list PlantGroup)) :
  0 < spacing ->
  let stripH := inBox (- width / 2) (width / 2)
                      (- height / 2 + a * height) (- height / 2 + b * height) in
  let stripV := inBox (- width / 2 + a * width) (- width / 2 + b * width)
                      (- height / 2) (height / 2) in
  yields (PlantPlacer.placeInRegion width height spacing false radius true (mkBounds a b))
         stripH /\
  yields (PlantPlacer.placeInRegion width height spacing false radius false (mkBounds a b))
         stripV /\
  yields (PlantPlacer.placeInLayerWithBounds width height spacing pattern method value
            layerIndex totalLayers false radius true previousLayers (mkBounds a b))
         stripH /\
  yields (PlantPlacer.placeInLayerWithBounds width height spacing pattern method value
            layerIndex totalLayers false radius false previousLayers (mkBounds a b))
         stripV /\
  (0 <= width -> 0 <= height -> 0 <= a <= b /\ b <= 1 ->
   forall p, stripH p \/ stripV p -> inRect width height p).
Proof.
  intros Hs stripH stripV.
  split; [now apply horizontal_region_inBox|].
  split; [now apply vertical_region_inBox|].
  split; [now apply horizontal_layer_inBox|].
  split; [now apply vertical_layer_inBox|].
  intros Hw Hh Hab p [(x & y & -> & Hx & Hy) | (x & y & -> & Hx & Hy)];
    exists x, y; (split; [reflexivity|]); split; apply Rabs_le; nra.
Qed.

Lemma X9_witness :
  0 < 12 /\
  yields (PlantPlacer.placeInRegion 48 96 12 false 0 false (mkBounds 0.25 0.75))
         (inBox (- 48 / 2 + 0.25 * 48) (- 48 / 2 + 0.75 * 48) (- 96 / 2) (96 / 2)).
Proof.
  split; [lra|].
  apply (X9_rectangular_regions_stay_in_their_strip 48 96 12 0.25 0.75
           "grid" "auto" 0 0 1 0 None); lra.
Defined.

(** ** Regions of different groups do not interleave *)

Lemma group_spacing_nth (groups : list PlantGroup) (i : nat) :
  (forall g, In g groups -> exists s : R, g_spacing g = Fin s /\ 0 < s) ->
  (i < List.length groups)%nat ->
  exists s : R, g_spacing (nth i groups (mkGroup NaN None)) = Fin s /\ 0 < s.
Proof.
  intros H Hi; apply H, nth_In, Hi.
Qed.

Lemma ordered_of_boxes (ps qs : list Point) (key : R -> R -> R)
  (P Q : Point -> Prop) :
  Forall P ps -> Forall Q qs ->
  (forall p q, P p -> Q q ->
     exists x1 y1 x2 y2 : R,
       p = mkPoint (Fin x1) (Fin y1) /\ q = mkPoint (Fin x2) (Fin y2) /\
       key x1 y1 <= key x2 y2) ->
  ordered key ps qs.
Proof.
  intros HP HQ H p q Hp Hq; rewrite Forall_forall in HP, HQ.
  apply H; [apply HP, Hp | apply HQ, Hq].
Qed.

(** X10. On a bed of several groups with a valid boundary set and positive
    spacings, region-mode placement keeps the groups in order: for i < j
    both placements return, and no position of group i lies below (for a
    horizontal bed: has a larger y than), resp. to the right of (vertical
    bed), resp. farther from the centre than (circular bed) a position of
    group j. *)
Theorem X10_regions_keep_group_order
  (groups : list PlantGroup) (bs : list R) (width height radius : R) (i j : nat) :
  validBoundaries (List.length groups) bs ->
  (forall g, In g groups -> exists s : R, g_spacing g = Fin s /\ 0 < s) ->
  (i < j < List.length groups)%nat ->
  0 <= width -> 0 <= height -> 0 < radius ->
  forall (isCircle isHorizontal : bool),
  exists ps qs,
    regionPositions width height radius isCircle isHorizontal groups bs i = Returns ps /\
    regionPositions width height radius isCircle isHorizontal groups bs j = Returns qs /\
    ordered (if isCircle then fun x y => sqrt (x * x + y * y)
             else if isHorizontal then fun x y => y else fun x y => x) ps qs.
Proof.
  intros Hvalid Hsp Hij Hw Hh Hr isCircle isHorizontal.
  pose proof Hvalid as (Hlen & _).
  destruct (group_spacing_nth groups i Hsp ltac:(lia)) as (si & Esi & Hsi).
  destruct (group_spacing_nth groups j Hsp ltac:(lia)) as (sj & Esj & Hsj).
  pose proof (region_nonempty _ _ Hvalid i ltac:(lia)) as Hi.
  pose proof (region_nonempty _ _ Hvalid j ltac:(lia)) as Hj.
  pose proof (region_ordered _ _ Hvalid i j Hij) as Hord.
  unfold regionPositions.
  rewrite !getRegionBounds_eq by lia; rewrite Esi, Esj.
  set (ai := regionStart bs i) in *; set (bi := regionEnd (List.length groups) bs i) in *.
  set (aj := regionStart bs j) in *; set (bj := regionEnd (List.length groups) bs j) in *.
  destruct isCircle.
  - destruct (placeInCircularRegion_onSubRing radius si ai bi ltac:(lra)) as (ps & Eps & Hps).
    destruct (placeInCircularRegion_onSubRing radius sj aj bj ltac:(lra)) as (qs & Eqs & Hqs).
    exists ps, qs; unfold PlantPlacer.placeInRegion; cbn [andb].
    split; [exact Eps|]; split; [exact Eqs|].
    eapply ordered_of_boxes; [exact Hps | exact Hqs|].
    intros p q Hp Hq.
    apply (onSubRing_inAnnulus radius si ai bi Hr Hsi Hi) in Hp.
    apply (onSubRing_inAnnulus radius sj aj bj Hr Hsj Hj) in Hq.
    destruct Hp as (x1 & y1 & -> & Hp), Hq as (x2 & y2 & -> & Hq).
    exists x1, y1, x2, y2; repeat split; nra.
  - destruct isHorizontal.
    + destruct (horizontal_region_inBox width height si ai bi radius Hsi) as (ps & Eps & Hps).
      destruct (horizontal_region_inBox width height sj aj bj radius Hsj) as (qs & Eqs & Hqs).
      exists ps, qs; split; [exact Eps|]; split; [exact Eqs|].
      eapply ordered_of_boxes; [exact Hps | exact Hqs|].
      intros p q (x1 & y1 & -> & _ & Hp) (x2 & y2 & -> & _ & Hq).
      exists x1, y1, x2, y2; repeat split; nra.
    + destruct (vertical_region_inBox width height si ai bi radius Hsi) as (ps & Eps & Hps).
      destruct (vertical_region_inBox width height sj aj bj radius Hsj) as (qs & Eqs & Hqs).
      exists ps, qs; split; [exact Eps|]; split; [exact Eqs|].
      eapply ordered_of_boxes; [exact Hps | exact Hqs|].
      intros p q (x1 & y1 & -> & Hp & _) (x2 & y2 & -> & Hq & _).
      exists x1, y1, x2, y2; repeat split; nra.
Qed.

Lemma X10_witness :
  let groups := [mkGroup 12 None; mkGroup 6 None; mkGroup 12 None] in
  exists ps qs,
    regionPositions 96 48 24 false true groups [0.3; 0.6] 0 = Returns ps /\
    regionPositions 96 48 24 false true groups [0.3; 0.6] 2 = Returns qs /\
    ordered (fun x y => y) ps qs.
Proof.
  intros groups.
  apply (X10_regions_keep_group_order groups [0.3; 0.6] 96 48 24 0 2);
    try lra; try (cbn; lia).
  - split; [reflexivity|]; split.
    + repeat constructor; lra.
    + intros [|[|k]] Hk; cbn in *; try lia; lra.
  - intros g [<-|[<-|[<-|[]]]]; eexists; (split; [reflexivity | lra]).
Defined.

(** ** Rows stay inside the bed *)

Lemma placeInRows_rectangle_inRect (width height spacing : R) (n : Z) (radius : num)
  (pattern : string) :
  0 < spacing -> 0 <= height -> (1 <= n)%Z ->
  yields (PlantPlacer.placeInRows width height spacing (IZR n) pattern false radius)
         (inRect width height).
Proof.
  intros Hs Hh Hn; unfold PlantPlacer.placeInRows; cbv iota zeta.
  pose proof (IZR_le _ _ Hn) as Hn'.
  pose proof (floorZ_spec (width / spacing)) as Hc.
  assert (width / spacing * spacing = width) as Ew by (field; lra).
  apply for_lt_Forall; intros row Hrow0 Hrow.
  pose proof (IZR_le _ _ Hrow0) as Hrow0'.
  assert (IZR row + 1 <= IZR n) as Hrow'
    by (rewrite <- plus_IZR; apply IZR_le; apply lt_IZR in Hrow; lia).
  rewrite !(ndiv_fin height (IZR n)) by lra.
  num_simpl.
  apply for_lt_Forall; intros col Hcol0 Hcol.
  pose proof (IZR_le _ _ Hcol0) as Hcol0'.
  assert (IZR col + 1 <= IZR (floorZ (width / spacing))) as Hcol'
    by (rewrite <- plus_IZR; apply IZR_le; apply lt_IZR in Hcol; lia).
  num_simpl; apply push_Forall.
  eexists _, _; split; [reflexivity|].
  set (t := height / IZR n).
  assert (t * IZR n = height) as Et by (unfold t; field; lra).
  assert (0 <= t) as Ht by (unfold t, Rdiv; apply Rmult_le_pos; [lra | left; apply Rinv_0_lt_compat; lra]).
  split; apply Rabs_le; nra.
Qed.

Lemma placeInRowsV1_rectangle_inRect (width height spacing : R) (n : Z) (radius : num)
  (pattern : string) :
  0 < spacing -> 0 <= height -> (1 <= n)%Z ->
  yields (PlantPlacerV1.placeInRows width height spacing (IZR n) pattern false radius)
         (inRect width height).
Proof.
  intros Hs Hh Hn; unfold PlantPlacerV1.placeInRows; cbv iota zeta.
  pose proof (IZR_le _ _ Hn) as Hn'.
  pose proof (floorZ_spec (width / spacing)) as Hc.
  assert (width / spacing * spacing = width) as Ew by (field; lra).
  apply for_lt_Forall; intros row Hrow0 Hrow.
  pose proof (IZR_le _ _ Hrow0) as Hrow0'.
  assert (IZR row + 1 <= IZR n) as Hrow'
    by (rewrite <- plus_IZR; apply IZR_le; apply lt_IZR in Hrow; lia).
  cbn [nadd]; rewrite !(ndiv_fin height (IZR n + 1)) by lra.
  num_simpl.
  apply for_lt_Forall; intros col Hcol0 Hcol.
  pose proof (IZR_le _ _ Hcol0) as Hcol0'.
  assert (IZR col + 1 <= IZR (floorZ (width / spacing))) as Hcol'
    by (rewrite <- plus_IZR; apply IZR_le; apply lt_IZR in Hcol; lia).
  num_simpl; apply push_Forall.
  eexists _, _; split; [reflexivity|].
  set (t := height / (IZR n + 1)).
  assert (t * (IZR n + 1) = height) as Et by (unfold t; field; lra).
  assert (0 <= t) as Ht by (unfold t, Rdiv; apply Rmult_le_pos; [lra | left; apply Rinv_0_lt_compat; lra]).
  split; apply Rabs_le; nra.
Qed.

Lemma onRowRing_inAnnulus (radius : R) (n : Z) (p : Point) :
  0 < radius -> (1 <= n)%Z ->
  onRowRing radius (IZR n) p -> inAnnulus 0 radius p.
Proof.
  intros Hr Hn (k & Hk0 & Hk & Hring).
  pose proof (IZR_le _ _ Hn) as Hn'.
  pose proof (IZR_le _ _ Hk0) as Hk0'.
  assert (IZR k + 1 <= IZR n) as Hk'
    by (rewrite <- plus_IZR; apply IZR_le; apply lt_IZR in Hk; lia).
  set (t := radius / IZR n) in *.
  assert (t * IZR n = radius) as Et by (unfold t; field; lra).
  assert (0 < t) as Ht by (unfold t; apply Rdiv_lt_0_compat; lra).
  assert (t * (IZR k + 1) <= t * IZR n) as Hle by (apply Rmult_le_compat_l; lra).
  assert (0 <= t * IZR k) as Hk1 by (apply Rmult_le_pos; lra).
  assert (0 <= t * (IZR k + 0.5)) as Hrho by lra.
  destruct (onRing_dist _ p Hrho Hring) as (x & y & -> & E).
  exists x, y; split; [reflexivity|]; rewrite E; fold t; lra.
Qed.

(** X11. Fill method rows with an integer row count n >= 1 and spacing > 0
    stays inside the bed, in both revisions.  On a rectangle of height >= 0
    every position satisfies |x| <= width/2 and |y| <= height/2.  On a
    circle of radius > 0 every position lies strictly between the centre
    and the edge, at a distance above 0 and below the radius: the rings are
    radius/n apart and the first and the last keep half of that from the
    centre and from the edge, whatever the spacing; width, height and
    pattern play no part. *)
Theorem X11_rows_stay_inside_the_bed
  (width height spacing radius : R) (numRows : Z) (pattern : string) (w h r : num) :
  0 < spacing -> (1 <= numRows)%Z ->
  (0 <= height ->
   yields (PlantPlacer.placeInRows width height spacing (IZR numRows) pattern false r)
          (inRect width height) /\
   yields (PlantPlacerV1.placeInRows width height spacing (IZR numRows) pattern false r)
          (inRect width height)) /\
  (0 < radius ->
   yields (PlantPlacer.placeInRows w h spacing (IZR numRows) pattern true radius)
          (inAnnulus 0 radius) /\
   yields (PlantPlacerV1.placeInRows w h spacing (IZR numRows) pattern true radius)
          (inAnnulus 0 radius)).
Proof.
  intros Hs Hn; split.
  - intros Hh; split.
    + now apply placeInRows_rectangle_inRect.
    + now apply placeInRowsV1_rectangle_inRect.
  - intros Hr; split.
    + eapply yields_weaken; [|apply placeInRows_circle_onRowRing; lra].
      intros p Hp; apply (onRowRing_inAnnulus radius numRows); assumption.
    + eapply yields_weaken; [|apply placeInRowsV1_circle_onRowRing; lra].
      intros p Hp; apply (onRowRing_inAnnulus radius numRows); assumption.
Qed.

Lemma X11_witness :
  0 < 12 /\ (1 <= 3)%Z /\
  yields (PlantPlacer.placeInRows 0 0 12 (IZR 3) "grid" true 24) (inAnnulus 0 24).
Proof.
  split; [lra|]; split; [lia|].
  apply (X11_rows_stay_inside_the_bed 0 0 12 24 3 "grid" 0 0 0); [lra | lia | lra].
Defined.

(** * The application: groups, regions and quantities *)

Lemma forEach_nth {A : Type} (f : A -> Z -> outcome A) (l : list A) :
  forall (start : Z) (l' : list A),
    GardenPlanner.forEach f l start = Returns l' ->
    List.length l' = List.length l /\
    forall i a, nth_error l i = Some a ->
      exists b, nth_error l' i = Some b /\ f a (start + Z.of_nat i)%Z = Returns b.
Proof.
  induction l as [|a l IH]; intros start l' H; cbn [GardenPlanner.forEach] in H.
  - injection H as <-; split; [reflexivity|]; intros [|i] x Hx; discriminate.
  - destruct (f a start) as [b| |] eqn:Eb; cbn [bind] in H; try discriminate.
    destruct (GardenPlanner.forEach f l (start + 1)%Z) as [bs| |] eqn:Ebs;
      cbn [bind] in H; try discriminate.
    injection H as <-.
    destruct (IH _ _ Ebs) as (Hlen & Hnth).
    split; [cbn [List.length]; now rewrite Hlen|].
    intros [|i] x Hx; cbn [nth_error] in *.
    + injection Hx as <-; exists b; split; [reflexivity|].
      now replace (start + Z.of_nat 0)%Z with start by lia.
    + destruct (Hnth i x Hx) as (y & Hy & Ey); exists y; split; [exact Hy|].
      now replace (start + Z.of_nat (S i))%Z with (start + 1 + Z.of_nat i)%Z by lia.
Qed.

Lemma forEach_returns {A : Type} (f : A -> Z -> outcome A) (l : list A) :
  forall start : Z,
    (forall i a, nth_error l i = Some a ->
       exists b, f a (start + Z.of_nat i)%Z = Returns b) ->
    exists l', GardenPlanner.forEach f l start = Returns l'.
Proof.
  induction l as [|a l IH]; intros start H; cbn [GardenPlanner.forEach]; [now eexists|].
  destruct (H 0%nat a eq_refl) as (b & Eb).
  replace (start + Z.of_nat 0)%Z with start in Eb by lia; rewrite Eb; cbn [bind].
  destruct (IH (start + 1)%Z) as (bs & Ebs).
  - intros i x Hx; destruct (H (S i) x Hx) as (y & Ey); exists y.
    now replace (start + 1 + Z.of_nat i)%Z with (start + Z.of_nat (S i))%Z by lia.
  - rewrite Ebs; cbn [bind]; now eexists.
Qed.

Lemma forEach_fixed {A : Type} (f : A -> Z -> outcome A) (l : list A) :
  (forall a b i, f a i = Returns b -> f b i = Returns b) ->
  forall (start : Z) (l' : list A),
    GardenPlanner.forEach f l start = Returns l' ->
    GardenPlanner.forEach f l' start = Returns l'.
Proof.
  intros Hf; induction l as [|a l IH]; intros start l' H; cbn [GardenPlanner.forEach] in H.
  - injection H as <-; reflexivity.
  - destruct (f a start) as [b| |] eqn:Eb; cbn [bind] in H; try discriminate.
    destruct (GardenPlanner.forEach f l (start + 1)%Z) as [bs| |] eqn:Ebs;
      cbn [bind] in H; try discriminate.
    injection H as <-; cbn [GardenPlanner.forEach].
    now rewrite (Hf _ _ _ Eb), (IH _ _ Ebs).
Qed.

Lemma forEach_ext {A : Type} (f g : A -> Z -> outcome A) (l : list A) :
  (forall a i, f a i = g a i) ->
  forall start, GardenPlanner.forEach f l start = GardenPlanner.forEach g l start.
Proof.
  intros Hfg; induction l as [|a l IH]; intros start; cbn [GardenPlanner.forEach];
    [reflexivity|].
  now rewrite Hfg, IH.
Qed.

(** ** The even division *)

Lemma length_evenCuts (n : nat) : List.length (evenCuts n) = (n - 1)%nat.
Proof. unfold evenCuts; now rewrite length_map, length_seq. Qed.

Lemma nth_map_seq {A : Type} (f : nat -> A) (d : A) (len : nat) :
  forall a i, (i < len)%nat -> nth i (map f (seq a len)) d = f (a + i)%nat.
Proof.
  induction len as [|len IH]; intros a i Hi; [lia|].
  destruct i as [|i]; cbn [seq map nth].
  - now rewrite Nat.add_0_r.
  - rewrite IH by lia; f_equal; lia.
Qed.

Lemma nth_evenCuts (n i : nat) :
  (S i < n)%nat -> nth i (evenCuts n) 0 = (IZR (Z.of_nat i) + 1) / IZR (Z.of_nat n).
Proof.
  intros Hi; unfold evenCuts; rewrite nth_map_seq by lia.
  replace (Z.of_nat (1 + i)) with (Z.of_nat i + 1)%Z by lia.
  now rewrite plus_IZR.
Qed.

Lemma evenCuts_valid (n : nat) : (1 <= n)%nat -> validBoundaries n (evenCuts n).
Proof.
  intros Hn.
  assert (0 < IZR (Z.of_nat n)) as Hn' by (apply IZR_lt; lia).
  split; [rewrite length_evenCuts; lia|]; split.
  - apply Forall_forall; intros b Hb.
    unfold evenCuts in Hb; apply in_map_iff in Hb as (i & <- & Hi).
    apply in_seq in Hi.
    assert (0 < IZR (Z.of_nat i)) by (apply IZR_lt; lia).
    assert (IZR (Z.of_nat i) < IZR (Z.of_nat n)) by (apply IZR_lt; lia).
    split.
    + apply Rdiv_lt_0_compat; lra.
    + apply Rmult_lt_reg_r with (IZR (Z.of_nat n)); [lra|].
      unfold Rdiv; rewrite Rmult_assoc, Rinv_l by lra; lra.
  - rewrite length_evenCuts; intros i Hi.
    rewrite !nth_evenCuts by lia.
    rewrite Nat2Z.inj_succ, succ_IZR.
    unfold Rdiv; apply Rmult_lt_compat_r; [apply Rinv_0_lt_compat; lra | lra].
Qed.

Lemma regionStart_evenCuts (n i : nat) :
  (i < n)%nat -> regionStart (evenCuts n) i = IZR (Z.of_nat i) / IZR (Z.of_nat n).
Proof.
  intros Hi; destruct i as [|i]; cbn [regionStart].
  - cbn [Z.of_nat]; unfold Rdiv; now rewrite Rmult_0_l.
  - rewrite nth_evenCuts by lia; now rewrite Nat2Z.inj_succ, succ_IZR.
Qed.

Lemma regionEnd_evenCuts (n i : nat) :
  (i < n)%nat -> regionEnd n (evenCuts n) i = (IZR (Z.of_nat i) + 1) / IZR (Z.of_nat n).
Proof.
  intros Hi; unfold regionEnd.
  destruct (Nat.eqb_spec (S i) n) as [E|E].
  - subst n; rewrite Nat2Z.inj_succ, succ_IZR.
    assert (0 <= IZR (Z.of_nat i)) by (apply IZR_le; lia).
    field; lra.
  - apply nth_evenCuts; lia.
Qed.

Lemma initializeRegionBoundaries_even (bed : GardenPlanner.BedState)
  (groups : list GardenPlanner.Group) :
  GardenPlanner.plantGroups bed = Some groups ->
  GardenPlanner.initializeRegionBoundaries (Some bed)
  = Some (GardenPlanner.setBoundaries bed (Some (map Fin (evenCuts (List.length groups))))).
Proof.
  intros Hg; unfold GardenPlanner.initializeRegionBoundaries; rewrite Hg; cbv zeta.
  destruct (Nat.leb_spec (List.length groups) 1) as [Hn|Hn].
  - unfold evenCuts; replace (List.length groups - 1)%nat with 0%nat by lia; reflexivity.
  - do 3 f_equal; unfold evenCuts; rewrite map_map.
    apply map_ext; intros i; unfold ofZ; apply ndiv_fin.
    apply not_0_IZR; lia.
Qed.

Lemma asBed_bedWith (bed : GardenPlanner.BedState) (groups : list GardenPlanner.Group)
  (bs : list R) :
  GardenPlanner.plantGroups bed = Some groups ->
  GardenPlanner.regionBoundaries bed = Some (map Fin bs) ->
  GardenPlanner.asBed (Some bed) = bedWith (map GardenPlanner.asPlantGroup groups) bs.
Proof.
  intros Hg Hb; unfold GardenPlanner.asBed, bedWith; cbn [option_map].
  now rewrite Hg, Hb.
Qed.

Lemma getRegionBounds_app (bed : GardenPlanner.BedState)
  (groups : list GardenPlanner.Group) (bs : list R) (i : nat) :
  GardenPlanner.plantGroups bed = Some groups ->
  GardenPlanner.regionBoundaries bed = Some (map Fin bs) ->
  (List.length bs + 1 = List.length groups)%nat ->
  (i < List.length groups)%nat ->
  getRegionBounds (GardenPlanner.asBed (Some bed)) (Z.of_nat i)
  = mkBounds (Fin (regionStart bs i)) (Fin (regionEnd (List.length groups) bs i)).
Proof.
  intros Hg Hb Hlen Hi.
  rewrite (asBed_bedWith bed groups bs Hg Hb).
  rewrite getRegionBounds_eq by (rewrite length_map; lia).
  now rewrite length_map.
Qed.

(** X12. [initializeRegionBoundaries] on a bed of n >= 1 groups sets the
    boundaries to the cut points 1/n, ..., (n-1)/n, which form a valid
    boundary set; [getRegionBounds] then gives group i the region from i/n
    to (i+1)/n, so every group gets the same share of the bed. *)
Theorem X12_initial_boundaries_divide_evenly
  (bed : GardenPlanner.BedState) (groups : list GardenPlanner.Group) :
  GardenPlanner.plantGroups bed = Some groups ->
  groups <> [] ->
  let n := List.length groups in
  let selectedBed := GardenPlanner.initializeRegionBoundaries (Some bed) in
  selectedBed = Some (GardenPlanner.setBoundaries bed (Some (map Fin (evenCuts n)))) /\
  validBoundaries n (evenCuts n) /\
  forall i : nat, (i < n)%nat ->
    getRegionBounds (GardenPlanner.asBed selectedBed) (Z.of_nat i)
    = mkBounds (Fin (IZR (Z.of_nat i) / IZR (Z.of_nat n)))
               (Fin ((IZR (Z.of_nat i) + 1) / IZR (Z.of_nat n))).
Proof.
  intros Hg Hne n selectedBed.
  assert (1 <= n)%nat as Hn by (unfold n; destruct groups; [easy | cbn; lia]).
  unfold selectedBed; rewrite (initializeRegionBoundaries_even bed groups Hg).
  split; [reflexivity|]; split; [now apply evenCuts_valid|].
  intros i Hi.
  rewrite (getRegionBounds_app _ groups (evenCuts n)); try assumption;
    try reflexivity; [|rewrite length_evenCuts; lia].
  fold n; now rewrite regionStart_evenCuts, regionEnd_evenCuts.
Qed.

Lemma X12_witness :
  let group := GardenPlanner.mkPlant "kale" "green" 12 None None None in
  let bed := GardenPlanner.mkBedState "rectangle" (Some (Fin 96)) (Some (Fin 48)) None
               (Some [group; group; group]) None in
  getRegionBounds (GardenPlanner.asBed (GardenPlanner.initializeRegionBoundaries (Some bed)))
                  (Z.of_nat 1)
  = mkBounds (Fin (IZR (Z.of_nat 1) / IZR (Z.of_nat 3)))
             (Fin ((IZR (Z.of_nat 1) + 1) / IZR (Z.of_nat 3))).
Proof.
  intros group bed.
  apply (X12_initial_boundaries_divide_evenly bed [group; group; group]);
    [reflexivity | discriminate | cbn; lia].
Defined.

(** ** Recalculation *)

Lemma recalculateAllPlantPositions_eq (bed : GardenPlanner.BedState)
  (groups : list GardenPlanner.Group) :
  GardenPlanner.plantGroups bed = Some groups ->
  GardenPlanner.recalculateAllPlantPositions (Some bed)
  = (groups' <-
       GardenPlanner.forEach
         (GardenPlanner.recalculateGroup (withBoundaries bed groups)
            (GardenPlanner.or_zero (GardenPlanner.width bed))
            (GardenPlanner.or_zero (GardenPlanner.height bed))
            (String.eqb (GardenPlanner.type bed) "circle")
            (GardenPlanner.or_zero (GardenPlanner.radius bed))
            (GardenPlanner.or_zero (GardenPlanner.width bed)
             >? GardenPlanner.or_zero (GardenPlanner.height bed))%num)
         groups 0%Z ;;
     Returns (option_map (fun bed => GardenPlanner.setGroups bed groups')
                         (withBoundaries bed groups))).
Proof.
  intros Hg; unfold GardenPlanner.recalculateAllPlantPositions, withBoundaries.
  now rewrite Hg.
Qed.

Lemma withBoundaries_some (bed : GardenPlanner.BedState)
  (groups : list GardenPlanner.Group) :
  GardenPlanner.plantGroups bed = Some groups ->
  exists boundaries,
    withBoundaries bed groups
    = Some (GardenPlanner.setBoundaries bed (Some boundaries)) /\
    List.length boundaries = (List.length groups - 1)%nat /\
    (GardenPlanner.regionBoundaries bed = Some boundaries \/
     boundaries = map Fin (evenCuts (List.length groups))).
Proof.
  intros Hg; unfold withBoundaries.
  destruct (GardenPlanner.regionBoundaries bed) as [b|] eqn:Hb.
  - destruct (Z.eqb_spec (Z.of_nat (List.length b)) (Z.of_nat (List.length groups) - 1))
      as [E|E]; cbn [negb].
    + exists b; split; [|split; [lia | now left]].
      destruct bed; cbn in *; now subst.
    + rewrite (initializeRegionBoundaries_even bed groups Hg).
      eexists; split; [reflexivity|]; split; [|now right].
      now rewrite length_map, length_evenCuts.
  - rewrite (initializeRegionBoundaries_even bed groups Hg).
    eexists; split; [reflexivity|]; split; [|now right].
    now rewrite length_map, length_evenCuts.
Qed.

Lemma withBoundaries_stable (bed : GardenPlanner.BedState) (boundaries : list num)
  (groups : list GardenPlanner.Group) :
  List.length boundaries = (List.length groups - 1)%nat ->
  let bed' := GardenPlanner.setGroups
                (GardenPlanner.setBoundaries bed (Some boundaries)) groups in
  withBoundaries bed' groups = Some bed'.
Proof.
  intros Hlen bed'; unfold withBoundaries.
  change (GardenPlanner.regionBoundaries bed') with (Some boundaries); cbv beta iota.
  destruct (_ =? _)%Z eqn:E; cbn [negb]; [reflexivity|].
  apply Z.eqb_neq in E.
  assert (List.length groups = 0%nat) as Hn by lia.
  rewrite (initializeRegionBoundaries_even bed' groups eq_refl), Hn.
  destruct boundaries; [reflexivity | cbn in Hlen; lia].
Qed.

Lemma getRegionBounds_groups (bed : GardenPlanner.BedState)
  (groups groups' : list GardenPlanner.Group) (layerIndex : Z) :
  GardenPlanner.plantGroups bed = Some groups ->
  List.length groups' = List.length groups ->
  getRegionBounds (GardenPlanner.asBed (Some (GardenPlanner.setGroups bed groups')))
                  layerIndex
  = getRegionBounds (GardenPlanner.asBed (Some bed)) layerIndex.
Proof.
  intros Hg Hlen; unfold getRegionBounds, GardenPlanner.asBed.
  cbn [option_map GardenPlanner.setGroups GardenPlanner.plantGroups
       GardenPlanner.regionBoundaries plantGroups regionBoundaries].
  now rewrite Hg; cbn [option_map]; rewrite !length_map, Hlen.
Qed.

Lemma strict_eq_zero (q : num) : GardenPlanner.strict_eq q 0 = true -> q = Fin 0.
Proof.
  destruct q as [r| | |]; cbn [GardenPlanner.strict_eq]; try discriminate.
  unfold Reqb; destruct (Req_dec_T r 0); [now subst | discriminate].
Qed.

Lemma recalculateGroup_fixed (selectedBed : option GardenPlanner.BedState)
  (width height : num) (isCircle : bool) (radius : num) (isHorizontal : bool)
  (group group' : GardenPlanner.Group) (layerIndex : Z) :
  GardenPlanner.recalculateGroup selectedBed width height isCircle radius isHorizontal
    group layerIndex = Returns group' ->
  GardenPlanner.recalculateGroup selectedBed width height isCircle radius isHorizontal
    group' layerIndex = Returns group'.
Proof.
  unfold GardenPlanner.recalculateGroup; cbv zeta.
  destruct (PlantPlacer.placeInRegion _ _ (GardenPlanner.spacing group) _ _ _ _)
    as [full| |] eqn:E; cbn [bind]; try discriminate.
  intros H; injection H as <-.
  cbn [GardenPlanner.spacing GardenPlanner.quantity GardenPlanner.name
       GardenPlanner.color]; rewrite E; cbn [bind].
  set (q' := match GardenPlanner.quantity group with
             | Some q => if GardenPlanner.strict_eq q 0 then length_of full else q
             | None => length_of full
             end).
  assert ((if GardenPlanner.strict_eq q' 0 then length_of full else q') = q') as ->;
    [|reflexivity].
  destruct (GardenPlanner.strict_eq q' 0) eqn:Eq; [|reflexivity].
  unfold q' in *; destruct (GardenPlanner.quantity group) as [q|]; [|reflexivity].
  destruct (GardenPlanner.strict_eq q 0) eqn:Eq0; [reflexivity | congruence].
Qed.

(** X14. Recalculation is idempotent: running [recalculateAllPlantPositions]
    on the state it has produced changes nothing, neither boundaries nor
    quantities nor positions (and a run that does not return is followed
    by nothing). *)
Theorem X14_recalculation_is_idempotent (selectedBed : option GardenPlanner.BedState) :
  (selectedBed' <- GardenPlanner.recalculateAllPlantPositions selectedBed ;;
   GardenPlanner.recalculateAllPlantPositions selectedBed')
  = GardenPlanner.recalculateAllPlantPositions selectedBed.
Proof.
  destruct selectedBed as [bed|]; [|reflexivity].
  destruct (GardenPlanner.plantGroups bed) as [groups|] eqn:Hg.
  - rewrite (recalculateAllPlantPositions_eq bed groups Hg).
    destruct (withBoundaries_some bed groups Hg) as (b1 & -> & Hlen & _).
    set (callback := GardenPlanner.recalculateGroup _ _ _ _ _ _).
    destruct (GardenPlanner.forEach callback groups 0%Z) as [groups'| |] eqn:E;
      cbn [bind option_map]; try reflexivity.
    destruct (forEach_nth _ _ _ _ E) as (Hlen' & _).
    set (bed1 := GardenPlanner.setBoundaries bed (Some b1)) in *.
    assert (withBoundaries (GardenPlanner.setGroups bed1 groups') groups'
            = Some (GardenPlanner.setGroups bed1 groups')) as Hw
      by (apply withBoundaries_stable; rewrite Hlen'; exact Hlen).
    rewrite (recalculateAllPlantPositions_eq (GardenPlanner.setGroups bed1 groups')
               groups' eq_refl), Hw.
    change (GardenPlanner.width (GardenPlanner.setGroups bed1 groups'))
      with (GardenPlanner.width bed).
    change (GardenPlanner.height (GardenPlanner.setGroups bed1 groups'))
      with (GardenPlanner.height bed).
    change (GardenPlanner.radius (GardenPlanner.setGroups bed1 groups'))
      with (GardenPlanner.radius bed).
    change (GardenPlanner.type (GardenPlanner.setGroups bed1 groups'))
      with (GardenPlanner.type bed).
    rewrite (forEach_ext _ callback).
    + rewrite (forEach_fixed callback groups).
      * cbn [bind option_map]; reflexivity.
      * intros a b i; apply recalculateGroup_fixed.
      * exact E.
    + intros a i; unfold callback, GardenPlanner.recalculateGroup.
      rewrite (getRegionBounds_groups bed1 groups groups' i Hg Hlen').
      reflexivity.
  - unfold GardenPlanner.recalculateAllPlantPositions; rewrite Hg; cbn [bind].
    now rewrite Hg.
Qed.

Lemma placeInRegion_returns (w h r s a b : R) (isCircle isHorizontal : bool) :
  0 < s ->
  exists full,
    PlantPlacer.placeInRegion w h s isCircle r isHorizontal (mkBounds a b) = Returns full.
Proof.
  intros Hs; destruct isCircle; [|destruct isHorizontal].
  - destruct (placeInCircularRegion_onSubRing r s a b ltac:(lra)) as (full & E & _).
    now exists full.
  - destruct (horizontal_region_inBox w h s a b r Hs) as (full & E & _); now exists full.
  - destruct (vertical_region_inBox w h s a b r Hs) as (full & E & _); now exists full.
Qed.

Lemma recalculateGroup_result (selectedBed : option GardenPlanner.BedState)
  (width height : num) (isCircle : bool) (radius : num) (isHorizontal : bool)
  (group group' : GardenPlanner.Group) (layerIndex : Z) :
  GardenPlanner.recalculateGroup selectedBed width height isCircle radius isHorizontal
    group layerIndex = Returns group' ->
  exists full,
    PlantPlacer.placeInRegion width height (GardenPlanner.spacing group) isCircle radius
      isHorizontal (getRegionBounds (GardenPlanner.asBed selectedBed) layerIndex)
    = Returns full /\
    let q := match GardenPlanner.quantity group with
             | None => length_of full
             | Some q => if GardenPlanner.strict_eq q 0 then length_of full else q
             end in
    group' = GardenPlanner.mkPlant (GardenPlanner.name group) (GardenPlanner.color group)
               (GardenPlanner.spacing group) (Some q) (Some (length_of full))
               (Some (slice0 full (Math_min q (length_of full)))).
Proof.
  unfold GardenPlanner.recalculateGroup; cbv zeta.
  destruct (PlantPlacer.placeInRegion _ _ _ _ _ _ _) as [full| |]; cbn [bind];
    try discriminate.
  intros H; injection H as <-; now exists full.
Qed.

Lemma real_boundaries_in_use (bed : GardenPlanner.BedState)
  (groups : list GardenPlanner.Group) :
  plantable bed groups ->
  exists bs : list R,
    withBoundaries bed groups
    = Some (GardenPlanner.setBoundaries bed (Some (map Fin bs))) /\
    List.length bs = (List.length groups - 1)%nat /\
    (GardenPlanner.regionBoundaries bed = Some (map Fin bs) \/
     bs = evenCuts (List.length groups)).
Proof.
  intros (Hg & _ & _ & Hb).
  destruct (withBoundaries_some bed groups Hg) as (b1 & Hw & Hlen & [Hold | ->]).
  - rewrite Hold in Hb; destruct Hb as (bs & ->).
    exists bs; split; [exact Hw|]; split; [now rewrite length_map in Hlen | now left].
  - exists (evenCuts (List.length groups)); split; [exact Hw|].
    split; [apply length_evenCuts | now right].
Qed.

Lemma settledGroup_prefix (bed : GardenPlanner.BedState) (i : nat)
  (group : GardenPlanner.Group) :
  settledGroup bed i group ->
  exists (full : list Point) (k : nat),
    regionOf bed (GardenPlanner.spacing group) i = Returns full /\
    GardenPlanner.maxQuantity group = Some (length_of full) /\
    GardenPlanner.positions group = Some (firstn k full) /\
    (k <= List.length full)%nat.
Proof.
  intros (full & q & Hfull & Hmax & _ & Hpos).
  destruct (slice0_prefix full (Math_min q (length_of full))) as (k & Ek).
  exists full, (Nat.min k (List.length full)).
  rewrite firstn_min_length, <- Ek; repeat split; try assumption; lia.
Qed.

Lemma recalculateAllPlantPositions_settles (bed : GardenPlanner.BedState)
  (groups : list GardenPlanner.Group) :
  plantable bed groups ->
  exists (bs : list R) (groups' : list GardenPlanner.Group),
    let bed' := GardenPlanner.setGroups
                  (GardenPlanner.setBoundaries bed (Some (map Fin bs))) groups' in
    GardenPlanner.recalculateAllPlantPositions (Some bed) = Returns (Some bed') /\
    List.length bs = (List.length groups - 1)%nat /\
    (GardenPlanner.regionBoundaries bed = Some (map Fin bs) \/
     bs = evenCuts (List.length groups)) /\
    List.length groups' = List.length groups /\
    forall i group, nth_error groups i = Some group ->
      exists full,
        regionOf bed' (GardenPlanner.spacing group) i = Returns full /\
        let q := match GardenPlanner.quantity group with
                 | None => length_of full
                 | Some q => if GardenPlanner.strict_eq q 0 then length_of full else q
                 end in
        nth_error groups' i
        = Some (GardenPlanner.mkPlant (GardenPlanner.name group)
                  (GardenPlanner.color group) (GardenPlanner.spacing group) (Some q)
                  (Some (length_of full))
                  (Some (slice0 full (Math_min q (length_of full))))).
Proof.
  intros Hp; pose proof Hp as (Hg & (w & h & r & Ew & Eh & Er) & Hsp & _).
  destruct (real_boundaries_in_use bed groups Hp) as (bs & Hw & Hlen & Hor).
  rewrite (recalculateAllPlantPositions_eq bed groups Hg), Hw.
  set (bed1 := GardenPlanner.setBoundaries bed (Some (map Fin bs))) in *.
  set (callback := GardenPlanner.recalculateGroup _ _ _ _ _ _).
  destruct (forEach_returns callback groups 0%Z) as (groups' & E).
  { intros i group Hi; unfold callback, GardenPlanner.recalculateGroup; cbv zeta.
    assert (i < List.length groups)%nat as Hlt by (apply nth_error_Some; congruence).
    rewrite Z.add_0_l.
    rewrite (getRegionBounds_app bed1 groups bs i Hg eq_refl) by lia.
    rewrite Forall_forall in Hsp.
    destruct (Hsp group (nth_error_In _ _ Hi)) as (s & -> & Hs).
    rewrite Ew, Eh, Er.
    destruct (placeInRegion_returns w h r s (regionStart bs i)
                (regionEnd (List.length groups) bs i)
                (String.eqb (GardenPlanner.type bed) "circle") (Fin w >? Fin h)%num Hs)
      as (full & ->).
    cbn [bind]; now eexists. }
  destruct (forEach_nth _ _ _ _ E) as (Hlen' & Hnth).
  exists bs, groups'; cbv zeta; rewrite E; cbn [bind option_map].
  split; [reflexivity|]; split; [exact Hlen|]; split; [exact Hor|];
    split; [exact Hlen'|].
  intros i group Hi.
  destruct (Hnth i group Hi) as (group' & Hi' & Ecb).
  rewrite Z.add_0_l in Ecb.
  destruct (recalculateGroup_result _ _ _ _ _ _ _ _ _ Ecb) as (full & Efull & ->).
  exists full; split; [|exact Hi'].
  unfold regionOf; fold bed1.
  rewrite (getRegionBounds_groups bed1 groups groups' (Z.of_nat i) Hg Hlen').
  exact Efull.
Qed.

Lemma recalculateAllPlantPositions_settled
  (bed : GardenPlanner.BedState) (groups : list GardenPlanner.Group) :
  plantable bed groups ->
  exists (bed' : GardenPlanner.BedState) (groups' : list GardenPlanner.Group),
    GardenPlanner.recalculateAllPlantPositions (Some bed) = Returns (Some bed') /\
    settled bed' groups' /\
    map GardenPlanner.spacing groups' = map GardenPlanner.spacing groups.
Proof.
  intros Hp.
  destruct (recalculateAllPlantPositions_settles bed groups Hp)
    as (bs & groups' & Hrun & _ & _ & Hlen & Hnth).
  cbv zeta in Hrun, Hnth.
  set (bed' := GardenPlanner.setGroups _ groups') in *.
  assert (settled bed' groups') as Hsettled.
  { split; [reflexivity|]; intros i group' Hi'.
    assert (i < List.length groups)%nat as Hlt
      by (rewrite <- Hlen; apply nth_error_Some; congruence).
    destruct (nth_error groups i) as [group|] eqn:Hi;
      [|apply nth_error_None in Hi; lia].
    destruct (Hnth i group Hi) as (full & Hfull & Hi2).
    rewrite Hi' in Hi2; injection Hi2 as ->.
    now eexists full, _. }
  exists bed', groups'; split; [exact Hrun|]; split; [exact Hsettled|].
  apply nth_error_ext; intros i; rewrite !nth_error_map.
  destruct (nth_error groups i) as [group|] eqn:Hi.
  - destruct (Hnth i group Hi) as (full & _ & ->); reflexivity.
  - apply nth_error_None in Hi.
    assert (nth_error groups' i = None) as -> by (apply nth_error_None; lia).
    reflexivity.
Qed.

(** X13. On a bed with real dimensions, real boundaries (if any) and groups
    of positive real spacing, [recalculateAllPlantPositions] returns, keeps
    the number and the spacing of the groups, and leaves every group with
    the first positions of the full-density placement of its own region:
    [maxQuantity] is the size of that placement, the group holds a prefix
    of it, hence never more than [maxQuantity] positions. *)
Theorem X13_recalculation_settles_every_group
  (bed : GardenPlanner.BedState) (groups : list GardenPlanner.Group) :
  plantable bed groups ->
  exists (bed' : GardenPlanner.BedState) (groups' : list GardenPlanner.Group),
    GardenPlanner.recalculateAllPlantPositions (Some bed) = Returns (Some bed') /\
    settled bed' groups' /\
    map GardenPlanner.spacing groups' = map GardenPlanner.spacing groups /\
    forall i group, nth_error groups' i = Some group ->
      exists (full : list Point) (k : nat),
        regionOf bed' (GardenPlanner.spacing group) i = Returns full /\
        GardenPlanner.maxQuantity group = Some (length_of full) /\
        GardenPlanner.positions group = Some (firstn k full) /\
        (k <= List.length full)%nat.
Proof.
  intros Hp.
  destruct (recalculateAllPlantPositions_settled bed groups Hp)
    as (bed' & groups' & Hrun & Hsettled & Hspacing).
  exists bed', groups'.
  split; [exact Hrun|]; split; [exact Hsettled|]; split; [exact Hspacing|].
  intros i group Hi; apply settledGroup_prefix.
  destruct Hsettled as (_ & Hgroups); now apply Hgroups.
Qed.

Lemma or_zero_fin (r : R) : GardenPlanner.or_zero (Some (Fin r)) = Fin r.
Proof.
  unfold GardenPlanner.or_zero, GardenPlanner.falsy, Reqb.
  destruct (Req_dec_T r 0); [now subst | reflexivity].
Qed.

Lemma X13_witness :
  let bed := GardenPlanner.mkBedState "rectangle" (Some (Fin 96)) (Some (Fin 48)) None
               (Some [GardenPlanner.mkPlant "kale" "green" 12 None None None;
                      GardenPlanner.mkPlant "leek" "blue" 6 (Some (Fin 4)) None None])
               None in
  exists (bed' : GardenPlanner.BedState) (groups' : list GardenPlanner.Group),
    GardenPlanner.recalculateAllPlantPositions (Some bed) = Returns (Some bed') /\
    settled bed' groups' /\
    map GardenPlanner.spacing groups' = [Fin 12; Fin 6] /\
    forall i group, nth_error groups' i = Some group ->
      exists (full : list Point) (k : nat),
        regionOf bed' (GardenPlanner.spacing group) i = Returns full /\
        GardenPlanner.maxQuantity group = Some (length_of full) /\
        GardenPlanner.positions group = Some (firstn k full) /\
        (k <= List.length full)%nat.
Proof.
  intros bed.
  apply (X13_recalculation_settles_every_group bed
           [GardenPlanner.mkPlant "kale" "green" 12 None None None;
            GardenPlanner.mkPlant "leek" "blue" 6 (Some (Fin 4)) None None]).
  split; [reflexivity|]; split.
  - exists 96, 48, 0; repeat split; try apply or_zero_fin; reflexivity.
  - split; [|exact I].
    repeat constructor; eexists; (split; [reflexivity | lra]).
Defined.

(** ** Quantities *)

Lemma length_set_index {A : Type} (l : list A) (a : A) :
  forall i, List.length (GardenPlanner.set_index l i a) = List.length l.
Proof.
  induction l as [|b l IH]; intros [|i]; cbn [GardenPlanner.set_index List.length];
    try reflexivity.
  now rewrite IH.
Qed.

Lemma nth_error_set_index {A : Type} (l : list A) (a : A) :
  forall i, (i < List.length l)%nat ->
    nth_error (GardenPlanner.set_index l i a) i = Some a.
Proof.
  induction l as [|b l IH]; intros [|i] Hi; cbn [List.length] in Hi; try lia;
    cbn [GardenPlanner.set_index nth_error]; [reflexivity|].
  apply IH; lia.
Qed.

Lemma Forall_set_index {A : Type} (P : A -> Prop) (l : list A) (a : A) :
  Forall P l -> P a -> forall i, Forall P (GardenPlanner.set_index l i a).
Proof.
  intros Hl Ha; induction Hl as [|b l Hb Hl IH]; intros [|i];
    cbn [GardenPlanner.set_index]; constructor; auto.
Qed.

Lemma at_index_nat {A : Type} (l : list A) (i : nat) :
  GardenPlanner.at_index l (Z.of_nat i) = nth_error l i.
Proof.
  unfold GardenPlanner.at_index.
  destruct (Z.ltb_spec (Z.of_nat i) 0); [lia|]; now rewrite Nat2Z.id.
Qed.

Lemma plantable_setGroups (bed : GardenPlanner.BedState)
  (groups groups' : list GardenPlanner.Group) :
  plantable bed groups ->
  Forall (fun group => exists s : R, GardenPlanner.spacing group = Fin s /\ 0 < s) groups' ->
  plantable (GardenPlanner.setGroups bed groups') groups'.
Proof.
  intros (_ & Hdims & _ & Hb) Hsp; split; [reflexivity|].
  split; [exact Hdims|]; split; [exact Hsp | exact Hb].
Qed.

Lemma slice0_all {A : Type} (l : list A) :
  slice0 l (Math_min (length_of l) (length_of l)) = l.
Proof.
  unfold length_of at 1; unfold ofZ.
  rewrite slice0_min_length by lia.
  rewrite Nat2Z.id; apply firstn_all.
Qed.

(** X16. [updatePlantQuantity] on group [index] of a plantable bed returns;
    with [full] the full-density placement of the group's region afterwards:
    a quantity n >= 1 keeps the first min(n, |full|) positions; quantity 0
    counts as not set and refills the region (all of [full], and the
    quantity becomes |full|); a quantity that is not a number leaves the
    group without positions; a negative quantity -n drops the last n
    positions of [full]. *)
Theorem X16_quantity_edge_cases
  (bed : GardenPlanner.BedState) (groups : list GardenPlanner.Group)
  (index : nat) (parsed : num) :
  plantable bed groups ->
  (index < List.length groups)%nat ->
  exists (bed' : GardenPlanner.BedState) (groups' : list GardenPlanner.Group)
         (group' : GardenPlanner.Group) (full : list Point),
    GardenPlanner.updatePlantQuantity (Some bed) (Z.of_nat index) parsed
    = Returns (Some bed') /\
    GardenPlanner.plantGroups bed' = Some groups' /\
    nth_error groups' index = Some group' /\
    regionOf bed' (GardenPlanner.spacing group') index = Returns full /\
    GardenPlanner.maxQuantity group' = Some (length_of full) /\
    (forall n : Z, (1 <= n)%Z -> parsed = Fin (IZR n) ->
       GardenPlanner.positions group' = Some (firstn (Z.to_nat n) full) /\
       GardenPlanner.quantity group' = Some parsed) /\
    (parsed = Fin 0 ->
       GardenPlanner.positions group' = Some full /\
       GardenPlanner.quantity group' = Some (length_of full)) /\
    (parsed = NaN -> GardenPlanner.positions group' = Some []) /\
    (forall n : Z, (n < 0)%Z -> parsed = Fin (IZR n) ->
       GardenPlanner.positions group'
       = Some (firstn (Z.to_nat (Z.of_nat (List.length full) + n)) full)).
Proof.
  intros Hp Hi; pose proof Hp as (Hg & _ & Hsp & _).
  destruct (nth_error groups index) as [group|] eqn:Hgroup;
    [|apply nth_error_None in Hgroup; lia].
  unfold GardenPlanner.updatePlantQuantity.
  rewrite Hg, at_index_nat, Hgroup, Nat2Z.id.
  set (group1 := GardenPlanner.mkPlant _ _ _ (Some parsed) _ _).
  set (groups1 := GardenPlanner.set_index groups index group1).
  assert (plantable (GardenPlanner.setGroups bed groups1) groups1) as Hp1.
  { apply (plantable_setGroups bed groups groups1 Hp).
    apply Forall_set_index; [exact Hsp|].
    rewrite Forall_forall in Hsp; exact (Hsp group (nth_error_In _ _ Hgroup)). }
  destruct (recalculateAllPlantPositions_settles _ groups1 Hp1)
    as (bs & groups' & Hrun & _ & _ & _ & Hnth).
  cbv zeta in Hrun, Hnth.
  destruct (Hnth index group1 (nth_error_set_index groups group1 index Hi))
    as (full & Hfull & Hi').
  cbn [group1 GardenPlanner.quantity GardenPlanner.spacing GardenPlanner.name
       GardenPlanner.color] in Hi', Hfull.
  eexists _, groups', _, full.
  split; [exact Hrun|]; split; [reflexivity|]; split; [exact Hi'|].
  cbn [GardenPlanner.spacing GardenPlanner.maxQuantity GardenPlanner.positions
       GardenPlanner.quantity].
  split; [exact Hfull|]; split; [reflexivity|]; split; [|split; [|split]].
  - intros n Hn ->.
    assert (GardenPlanner.strict_eq (Fin (IZR n)) 0 = false) as ->.
    { cbn [GardenPlanner.strict_eq]; unfold Reqb.
      destruct (Req_dec_T (IZR n) 0) as [E|E]; [|reflexivity].
      apply eq_IZR in E; lia. }
    now rewrite slice0_min_length by lia.
  - intros ->.
    assert (GardenPlanner.strict_eq (Fin 0) 0 = true) as ->.
    { cbn [GardenPlanner.strict_eq]; unfold Reqb.
      destruct (Req_dec_T 0 0); [reflexivity | contradiction]. }
    now rewrite slice0_all.
  - intros ->; reflexivity.
  - intros n Hn ->.
    assert (GardenPlanner.strict_eq (Fin (IZR n)) 0 = false) as ->.
    { cbn [GardenPlanner.strict_eq]; unfold Reqb.
      destruct (Req_dec_T (IZR n) 0) as [E|E]; [|reflexivity].
      apply eq_IZR in E; lia. }
    now rewrite slice0_negative by lia.
Qed.

Lemma exampleBed_plantable : plantable exampleBed exampleGroups.
Proof.
  split; [reflexivity|]; split.
  - exists 96, 48, 0; repeat split; try apply or_zero_fin; reflexivity.
  - split; [|exact I].
    repeat constructor; eexists; (split; [reflexivity | lra]).
Qed.

Lemma X16_witness :
  exists (bed' : GardenPlanner.BedState) (groups' : list GardenPlanner.Group)
         (group' : GardenPlanner.Group) (full : list Point),
    GardenPlanner.updatePlantQuantity (Some exampleBed) (Z.of_nat 1) (Fin 0)
    = Returns (Some bed') /\
    GardenPlanner.plantGroups bed' = Some groups' /\
    nth_error groups' 1 = Some group' /\
    regionOf bed' (GardenPlanner.spacing group') 1 = Returns full /\
    GardenPlanner.positions group' = Some full.
Proof.
  destruct (X16_quantity_edge_cases exampleBed exampleGroups 1 (Fin 0)
              exampleBed_plantable ltac:(cbn; lia))
    as (bed' & groups' & group' & full & Hrun & Hg & Hi & Hfull & _ & _ & Hzero & _).
  exists bed', groups', group', full.
  repeat split; try assumption.
  exact (proj1 (Hzero eq_refl)).
Defined.

(** ** Adding and removing a group *)

Lemma valid_form (plantName : string) (s : R) :
  plantName <> ""%string -> 1 <= s ->
  (String.eqb plantName "" || GardenPlanner.falsy (Fin s) || (Fin s <? 1)%num)%bool = false.
Proof.
  intros Hname Hs.
  destruct (String.eqb_spec plantName ""); [contradiction|].
  cbn [GardenPlanner.falsy nlt orb]; unfold Reqb.
  destruct (Req_dec_T s 0); [lra|]; cbn [orb].
  apply Rltb_false; exact Hs.
Qed.

(** X15. The preview shown for a new plant is what saving it places.  On a
    plantable bed of n groups whose boundaries, if any, are n - 1 in
    number, for a plant name that is not empty and a spacing >= 1:
    [updateFillPreview] returns positions, [saveAddPlantToBed] returns a
    bed of n + 1 groups, and the new, last group holds exactly the
    previewed positions, with quantity and [maxQuantity] their number. *)
Theorem X15_preview_is_what_saving_places
  (bed : GardenPlanner.BedState) (groups : list GardenPlanner.Group)
  (plantName plantColor : string) (s : R) :
  plantable bed groups ->
  match GardenPlanner.regionBoundaries bed with
  | None => True
  | Some boundaries => List.length boundaries = (List.length groups - 1)%nat
  end ->
  plantName <> ""%string -> 1 <= s ->
  exists (pts : list Point) (bed' : GardenPlanner.BedState)
         (groups' : list GardenPlanner.Group),
    GardenPlanner.updateFillPreview (Some bed) plantName (Fin s) None
    = Returns (Some pts) /\
    GardenPlanner.saveAddPlantToBed (Some bed) plantName plantColor (Fin s) None
    = Returns (Some bed') /\
    GardenPlanner.plantGroups bed' = Some groups' /\
    List.length groups' = S (List.length groups) /\
    nth_error groups' (List.length groups)
    = Some (GardenPlanner.mkPlant plantName plantColor (Fin s) (Some (length_of pts))
              (Some (length_of pts)) (Some pts)).
Proof.
  intros Hp Hcount Hname Hs; pose proof Hp as (Hg & _ & Hsp & _).
  set (n := List.length groups) in *.
  set (new := GardenPlanner.mkPlant plantName plantColor (Fin s) (Some (Fin 0))
                (Some (Fin 0)) (Some [])).
  assert (plantable (GardenPlanner.setGroups bed (groups ++ [new])) (groups ++ [new]))
    as Hp2.
  { apply (plantable_setGroups bed groups _ Hp).
    apply Forall_app; split; [exact Hsp|].
    constructor; [|constructor]; exists s; split; [reflexivity | lra]. }
  destruct (recalculateAllPlantPositions_settles _ _ Hp2)
    as (bs & groups' & Hrun & Hlen & Hor & Hlen' & Hnth).
  cbv zeta in Hrun, Hnth.
  set (bedF := GardenPlanner.setGroups (GardenPlanner.setBoundaries _ _) groups') in *.
  rewrite length_app in Hlen, Hlen'; cbn [List.length] in Hlen, Hlen'; fold n in Hlen, Hlen'.
  assert (nth_error (groups ++ [new]) n = Some new) as Hnew
    by (unfold n; rewrite nth_error_app2, Nat.sub_diag by lia; reflexivity).
  destruct (Hnth n new Hnew) as (full & Hfull & Hi'); clear Hnth.
  cbn [new GardenPlanner.quantity GardenPlanner.spacing GardenPlanner.name
       GardenPlanner.color] in Hi', Hfull.
  assert (GardenPlanner.strict_eq (Fin 0) 0 = true) as E0.
  { cbn [GardenPlanner.strict_eq]; unfold Reqb.
    destruct (Req_dec_T 0 0); [reflexivity | contradiction]. }
  rewrite E0, slice0_all in Hi'.
  (* the boundaries in use after the save are the even ones, or none at all *)
  assert (regionStart bs n = IZR (Z.of_nat n) / IZR (Z.of_nat (S n)) /\
          regionEnd (S n) bs n = (IZR (Z.of_nat n) + 1) / IZR (Z.of_nat (S n)))
    as (Estart & Eend).
  { destruct Hor as [Hold | ->].
    - cbn [GardenPlanner.setGroups GardenPlanner.regionBoundaries] in Hold.
      rewrite Hold, length_map in Hcount.
      assert (n = 0%nat) as -> by lia.
      destruct bs; [|cbn in Hlen; lia].
      cbn [regionStart]; unfold regionEnd; cbn; split; field.
    - rewrite length_app; cbn [List.length]; fold n.
      replace (n + 1)%nat with (S n) by lia.
      rewrite regionStart_evenCuts, regionEnd_evenCuts by lia; now split. }
  exists full, bedF, groups'.
  split; [|split; [|split; [reflexivity|split; [lia | exact Hi']]]].
  - unfold GardenPlanner.updateFillPreview.
    rewrite (valid_form plantName s Hname Hs), Hg; cbv zeta; fold n.
    unfold regionOf in Hfull.
    rewrite (getRegionBounds_app bedF groups' bs n eq_refl eq_refl) in Hfull by lia.
    rewrite Hlen' in Hfull.
    replace (n + 1)%nat with (S n) in Hfull by lia.
    rewrite Estart, Eend in Hfull.
    cbn [bedF GardenPlanner.setGroups GardenPlanner.setBoundaries GardenPlanner.width
         GardenPlanner.height GardenPlanner.radius GardenPlanner.type] in Hfull.
    assert (IZR (Z.of_nat (S n)) <> 0) as Hn0 by (apply not_0_IZR; lia).
    unfold ofZ; cbn [nadd].
    replace (Z.of_nat n + 1)%Z with (Z.of_nat (S n)) by lia.
    rewrite !ndiv_fin by exact Hn0.
    rewrite Hfull; reflexivity.
  - unfold GardenPlanner.saveAddPlantToBed.
    rewrite (valid_form plantName s Hname Hs), Hg.
    exact Hrun.
Qed.

Lemma X15_witness :
  exists (pts : list Point) (bed' : GardenPlanner.BedState)
         (groups' : list GardenPlanner.Group),
    GardenPlanner.updateFillPreview (Some exampleBed) "chard" (Fin 8) None
    = Returns (Some pts) /\
    GardenPlanner.saveAddPlantToBed (Some exampleBed) "chard" "red" (Fin 8) None
    = Returns (Some bed') /\
    GardenPlanner.plantGroups bed' = Some groups' /\
    List.length groups' = 3%nat /\
    nth_error groups' 2
    = Some (GardenPlanner.mkPlant "chard" "red" (Fin 8) (Some (length_of pts))
              (Some (length_of pts)) (Some pts)).
Proof.
  apply (X15_preview_is_what_saving_places exampleBed exampleGroups "chard" "red" 8
           exampleBed_plantable I); [discriminate | lra].
Defined.

(** X17. [removePlantGroup] with an index of the array removes that group
    and resets the division of the bed: on a plantable bed the call
    returns, the other groups keep their order and spacing, the boundaries
    become the even cut points for the groups that remain, whatever they
    were before, and every group is settled in its new region. *)
Theorem X17_removal_resets_the_division
  (bed : GardenPlanner.BedState) (groups : list GardenPlanner.Group) (index : nat) :
  plantable bed groups ->
  (index < List.length groups)%nat ->
  exists (bed' : GardenPlanner.BedState) (groups' : list GardenPlanner.Group),
    GardenPlanner.removePlantGroup (Some bed) (Z.of_nat index) = Returns (Some bed') /\
    settled bed' groups' /\
    map GardenPlanner.spacing groups'
    = map GardenPlanner.spacing (firstn index groups ++ skipn (S index) groups) /\
    GardenPlanner.regionBoundaries bed'
    = Some (map Fin (evenCuts (List.length groups - 1))).
Proof.
  intros Hp Hi; pose proof Hp as (Hg & Hdims & Hsp & _).
  unfold GardenPlanner.removePlantGroup; rewrite Hg.
  assert (GardenPlanner.splice1 groups (Z.of_nat index)
          = firstn index groups ++ skipn (S index) groups) as ->.
  { unfold GardenPlanner.splice1; cbv zeta.
    destruct (Z.ltb_spec (Z.of_nat index) 0); [lia|].
    now rewrite Z.min_l, Nat2Z.id by lia. }
  set (rest := firstn index groups ++ skipn (S index) groups).
  assert (List.length rest = (List.length groups - 1)%nat) as Hrest.
  { unfold rest; rewrite length_app, length_firstn, length_skipn; lia. }
  set (bed0 := GardenPlanner.setBoundaries (GardenPlanner.setGroups bed rest) None).
  assert (plantable bed0 rest) as Hp0.
  { split; [reflexivity|]; split; [exact Hdims|]; split; [|exact I].
    rewrite Forall_forall in *; intros g Hin; apply Hsp.
    unfold rest in Hin; apply in_app_or in Hin as [Hin|Hin].
    - eapply firstn_incl, Hin.
    - rewrite <- (firstn_skipn (S index) groups); apply in_or_app; now right. }
  destruct (recalculateAllPlantPositions_settles bed0 rest Hp0)
    as (bs & groups' & Hrun & _ & [Hold | ->] & Hlen & Hnth); [discriminate|].
  cbv zeta in Hrun, Hnth.
  set (bed' := GardenPlanner.setGroups _ groups') in *.
  exists bed', groups'; split; [exact Hrun|]; split; [|split].
  - split; [reflexivity|]; intros i group' Hi'.
    assert (i < List.length rest)%nat as Hlt
      by (rewrite <- Hlen; apply nth_error_Some; congruence).
    destruct (nth_error rest i) as [group|] eqn:Hgi;
      [|apply nth_error_None in Hgi; lia].
    destruct (Hnth i group Hgi) as (full & Hfull & Hi2).
    rewrite Hi' in Hi2; injection Hi2 as ->.
    now eexists full, _.
  - apply nth_error_ext; intros i; rewrite !nth_error_map.
    destruct (nth_error rest i) as [group|] eqn:Hgi.
    + destruct (Hnth i group Hgi) as (full & _ & ->); reflexivity.
    + apply nth_error_None in Hgi.
      assert (nth_error groups' i = None) as -> by (apply nth_error_None; lia).
      reflexivity.
  - cbn [bed' GardenPlanner.setGroups GardenPlanner.setBoundaries
         GardenPlanner.regionBoundaries]; now rewrite Hrest.
Qed.

Lemma X17_witness :
  exists (bed' : GardenPlanner.BedState) (groups' : list GardenPlanner.Group),
    GardenPlanner.removePlantGroup (Some exampleBed) (Z.of_nat 0) = Returns (Some bed') /\
    settled bed' groups' /\
    map GardenPlanner.spacing groups'
    = map GardenPlanner.spacing (firstn 0 exampleGroups ++ skipn 1 exampleGroups) /\
    GardenPlanner.regionBoundaries bed'
    = Some (map Fin (evenCuts (List.length exampleGroups - 1))).
Proof.
  apply (X17_removal_resets_the_division exampleBed exampleGroups 0 exampleBed_plantable).
  cbn; lia.
Defined.

(** ** Dragging a divider *)

Lemma insert_ascending_perm (a : R) (l : list R) :
  Permutation (GardenPlanner.insert_ascending a l) (a :: l).
Proof.
  induction l as [|b l IH]; cbn [GardenPlanner.insert_ascending]; [reflexivity|].
  destruct (Rleb a b); [reflexivity|].
  etransitivity; [apply perm_skip, IH | apply perm_swap].
Qed.

Lemma insert_ascending_sorted (a : R) (l : list R) :
  Sorted Rle l -> Sorted Rle (GardenPlanner.insert_ascending a l).
Proof.
  induction 1 as [|b l Hl IH Hb]; cbn [GardenPlanner.insert_ascending].
  - repeat constructor.
  - destruct (Rleb a b) eqn:E.
    + apply Rleb_true in E.
      constructor; [constructor; assumption | constructor; exact E].
    + apply Rleb_false in E; constructor; [exact IH|].
      destruct Hb as [|c l Hbc]; cbn [GardenPlanner.insert_ascending].
      * constructor; lra.
      * destruct (Rleb a c); constructor; lra.
Qed.

Lemma sort_ascending_fin (l : list R) :
  GardenPlanner.sort_ascending (map Fin l)
  = Some (map Fin (fold_right GardenPlanner.insert_ascending [] l)).
Proof.
  unfold GardenPlanner.sort_ascending.
  assert (GardenPlanner.finite_values (map Fin l) = Some l) as ->; [|reflexivity].
  induction l as [|a l IH]; cbn [map GardenPlanner.finite_values]; [reflexivity|].
  now rewrite IH.
Qed.

Lemma sorted_fold (l : list R) :
  Sorted Rle (fold_right GardenPlanner.insert_ascending [] l) /\
  Permutation (fold_right GardenPlanner.insert_ascending [] l) l.
Proof.
  induction l as [|a l (Hs & Hp)]; cbn [fold_right]; [split; constructor|].
  split; [now apply insert_ascending_sorted|].
  etransitivity; [apply insert_ascending_perm | now apply perm_skip].
Qed.

Lemma set_index_fin (bs : list R) (v : R) :
  forall index, (index < List.length bs)%nat ->
    GardenPlanner.set_index (map Fin bs) index (Fin v) = map Fin (replaced bs index v).
Proof.
  unfold replaced; induction bs as [|b bs IH]; intros [|i] Hi; cbn [List.length] in Hi;
    try lia; cbn [map GardenPlanner.set_index firstn skipn app]; [reflexivity|].
  rewrite IH by lia; reflexivity.
Qed.

Lemma element_fin (bs : list R) (index : nat) :
  (index < List.length bs)%nat ->
  element (map Fin bs) (Z.of_nat index) = Fin (nth index bs 0).
Proof.
  intros Hi; unfold element.
  destruct (Z.ltb_spec (Z.of_nat index) 0); [lia|].
  rewrite Nat2Z.id, (nth_indep _ NaN (Fin 0)) by (rewrite length_map; exact Hi).
  apply map_nth.
Qed.

Lemma length_replaced (bs : list R) (index : nat) (v : R) :
  (index < List.length bs)%nat -> List.length (replaced bs index v) = List.length bs.
Proof.
  intros Hi; unfold replaced.
  rewrite length_app, length_firstn; cbn [List.length]; rewrite length_skipn; lia.
Qed.

Lemma nsub_fin (a b : R) : nsub (Fin a) (Fin b) = Fin (a - b).
Proof. reflexivity. Qed.

Lemma percentageDelta_fin (isCircle : bool) (w h r dx dy : R) :
  dragExtent isCircle w h r <> 0 ->
  (if isCircle then
     (Math_sqrt (Fin dx * Fin dx + Fin dy * Fin dy)
      * (if (Fin dx + Fin dy >? 0)%num then 1 else -1) / Fin r)%num
   else if (Fin w >? Fin h)%num then (Fin dy / Fin h)%num
   else (Fin dx / Fin w)%num)
  = Fin (dragAmount isCircle w h dx dy / dragExtent isCircle w h r).
Proof.
  unfold dragExtent, dragAmount, ngt; cbn [nlt nadd nmul].
  intros Hext; destruct isCircle.
  - rewrite Math_sqrt_fin by nra.
    destruct (Rltb 0 (dx + dy)); cbn [nmul nneg]; rewrite ndiv_fin by exact Hext;
      f_equal; f_equal; lra.
  - destruct (Rltb h w); now rewrite ndiv_fin.
Qed.

Lemma recalculateAllPlantPositions_keeps (bed bed' : GardenPlanner.BedState)
  (groups : list GardenPlanner.Group) (boundaries : list num) :
  GardenPlanner.plantGroups bed = Some groups ->
  GardenPlanner.regionBoundaries bed = Some boundaries ->
  (List.length boundaries + 1 = List.length groups)%nat ->
  GardenPlanner.recalculateAllPlantPositions (Some bed) = Returns (Some bed') ->
  GardenPlanner.regionBoundaries bed' = Some boundaries.
Proof.
  intros Hg Hb Hlen; rewrite (recalculateAllPlantPositions_eq bed groups Hg).
  assert (withBoundaries bed groups = Some bed) as ->.
  { unfold withBoundaries; rewrite Hb.
    destruct (Z.eqb_spec (Z.of_nat (List.length boundaries))
                         (Z.of_nat (List.length groups) - 1)); [reflexivity | lia]. }
  destruct (GardenPlanner.forEach _ groups 0%Z) as [groups'| |]; cbn [bind option_map];
    try discriminate.
  intros H; injection H as <-; exact Hb.
Qed.

(** X18. Dragging divider [index] of a plantable bed whose boundary set
    [bs] has one cut point per divider, by a real displacement along an
    extent that is not 0: the cut point moves by the dragged fraction of the
    extent and is clamped to [0.1, 0.9]; the new boundary set holds this
    value and the other cut points unchanged, in ascending order (so a
    divider dragged past its neighbour changes places with it, and two cut
    points may coincide); the groups are then settled in the new regions
    and the drag continues from the current point. *)
Theorem X18_divider_drag_clamps_and_sorts
  (bed : GardenPlanner.BedState) (groups : list GardenPlanner.Group) (bs : list R)
  (index : nat) (w h r sx sy px py : R) :
  plantable bed groups ->
  GardenPlanner.regionBoundaries bed = Some (map Fin bs) ->
  (List.length bs + 1 = List.length groups)%nat ->
  (index < List.length bs)%nat ->
  GardenPlanner.or_zero (GardenPlanner.width bed) = Fin w ->
  GardenPlanner.or_zero (GardenPlanner.height bed) = Fin h ->
  GardenPlanner.or_zero (GardenPlanner.radius bed) = Fin r ->
  let isCircle := String.eqb (GardenPlanner.type bed) "circle" in
  dragExtent isCircle w h r <> 0 ->
  let v := Rmax 0.1 (Rmin 0.9 (nth index bs 0
                               + dragAmount isCircle w h (px - sx) (py - sy)
                                 / dragExtent isCircle w h r)) in
  exists (bs' : list R) (bed' : GardenPlanner.BedState)
         (groups' : list GardenPlanner.Group),
    GardenPlanner.handleDividerDrag (Some bed) (Some index)
      (mkPoint (Fin sx) (Fin sy)) (mkPoint (Fin px) (Fin py))
    = Some (Returns (Some bed', mkPoint (Fin px) (Fin py))) /\
    GardenPlanner.regionBoundaries bed' = Some (map Fin bs') /\
    Permutation bs' (replaced bs index v) /\
    Sorted Rle bs' /\
    0.1 <= v <= 0.9 /\
    settled bed' groups' /\
    map GardenPlanner.spacing groups' = map GardenPlanner.spacing groups.
Proof.
  intros Hp Hb Hlen Hi Ew Eh Er isCircle Hext v.
  pose proof Hp as (Hg & Hdims & Hsp & _).
  set (bs' := fold_right GardenPlanner.insert_ascending [] (replaced bs index v)).
  destruct (sorted_fold (replaced bs index v)) as (Hsorted & Hperm); fold bs' in Hsorted, Hperm.
  set (bed2 := GardenPlanner.setBoundaries bed (Some (map Fin bs'))).
  assert (plantable bed2 groups) as Hp2.
  { split; [exact Hg|]; split; [exact Hdims|]; split; [exact Hsp|]; now exists bs'. }
  destruct (recalculateAllPlantPositions_settled bed2 groups Hp2)
    as (bed' & groups' & Hrun & Hsettled & Hspacing).
  assert (List.length bs' = List.length bs) as Hlen'
    by (rewrite (Permutation_length Hperm); now apply length_replaced).
  exists bs', bed', groups'.
  split; [|split; [|split; [exact Hperm|split; [exact Hsorted|split;
    [|split; [exact Hsettled | exact Hspacing]]]]]].
  - unfold GardenPlanner.handleDividerDrag; rewrite Hg, Hb; cbv zeta.
    cbn [pos_x pos_y]; rewrite !nsub_fin, Hb, Ew, Eh, Er.
    fold isCircle.
    rewrite (percentageDelta_fin isCircle w h r (px - sx) (py - sy) Hext).
    rewrite (element_fin bs index Hi); cbn [nadd].
    rewrite Math_min_fin, Math_max_fin; fold v.
    unfold GardenPlanner.store; rewrite length_map.
    destruct (Nat.ltb_spec index (List.length bs)); [|lia].
    rewrite (set_index_fin bs v index Hi), sort_ascending_fin; fold bs'.
    cbn [option_map]; fold bed2; rewrite Hrun; reflexivity.
  - apply (recalculateAllPlantPositions_keeps bed2 bed' groups (map Fin bs') Hg eq_refl);
      [rewrite length_map; lia | exact Hrun].
  - unfold v; split.
    + apply Rmax_l.
    + apply Rmax_lub; [lra | apply Rmin_l].
Qed.

Lemma X18_witness :
  let bed := GardenPlanner.setBoundaries exampleBed (Some (map Fin [0.5])) in
  exists (bs' : list R) (bed' : GardenPlanner.BedState)
         (groups' : list GardenPlanner.Group),
    GardenPlanner.handleDividerDrag (Some bed) (Some 0%nat)
      (mkPoint (Fin 0) (Fin 0)) (mkPoint (Fin 0) (Fin 12))
    = Some (Returns (Some bed', mkPoint (Fin 0) (Fin 12))) /\
    GardenPlanner.regionBoundaries bed' = Some (map Fin bs') /\
    Sorted Rle bs'.
Proof.
  intros bed.
  destruct (X18_divider_drag_clamps_and_sorts bed exampleGroups [0.5] 0 96 48 0 0 0 0 12)
    as (bs' & bed' & groups' & Hrun & Hb & _ & Hsorted & _).
  - split; [reflexivity|]; split.
    + exists 96, 48, 0; repeat split; try apply or_zero_fin; reflexivity.
    + split; [|now exists [0.5]].
      repeat constructor; eexists; (split; [reflexivity | lra]).
  - reflexivity.
  - reflexivity.
  - cbn; lia.
  - apply or_zero_fin.
  - apply or_zero_fin.
  - reflexivity.
  - cbn [bed exampleBed GardenPlanner.setBoundaries GardenPlanner.type String.eqb
         Ascii.eqb Bool.eqb]; unfold dragExtent, Rltb.
    destruct (Rlt_dec 48 96); lra.
  - now exists bs', bed', groups'.
Defined.

(** * The canvas: view and hit tests *)

Lemma nearBy_same (tol x y x' y' : R) :
  0 <= tol -> x = x' -> y = y' ->
  nearBy tol (mkPoint (Fin x) (Fin y)) (mkPoint (Fin x') (Fin y')).
Proof.
  intros Htol -> ->; exists x', y', x', y'; repeat split;
    rewrite Rminus_diag, Rabs_R0; exact Htol.
Qed.

Lemma sizes_nonneg (a b c d : R) : 0 <= Rabs a + Rabs b + Rabs c + Rabs d.
Proof.
  pose proof (Rabs_pos a); pose proof (Rabs_pos b);
    pose proof (Rabs_pos c); pose proof (Rabs_pos d); lra.
Qed.

(** X19. With a real offset and a real scale other than 0, [screenToWorld]
    and [worldToScreen] undo each other up to rounding: a screen point
    taken to the world and back lands within a billionth of the sizes of
    the point and the offset, and a world point taken to the screen and
    back within a billionth of the sizes of the point and of the offset
    divided by the scale.  (Over the real numbers both round trips are
    exact; the four floating-point operations of a round trip are not.) *)
Theorem X19_screen_and_world_round_trip
  (this : GardenCanvas.Canvas) (ox oy s px py : R) :
  realView this ox oy s -> s <> 0 ->
  let world := GardenCanvas.screenToWorld this (Fin px) (Fin py) in
  let screen := GardenCanvas.worldToScreen this (Fin px) (Fin py) in
  nearBy (roundOff * (Rabs px + Rabs py + Rabs ox + Rabs oy))
         (GardenCanvas.worldToScreen this (pos_x world) (pos_y world))
         (mkPoint (Fin px) (Fin py)) /\
  nearBy (roundOff * (Rabs px + Rabs py + Rabs (ox / s) + Rabs (oy / s)))
         (GardenCanvas.screenToWorld this (pos_x screen) (pos_y screen))
         (mkPoint (Fin px) (Fin py)).
Proof.
  intros (Ex & Ey & Es) Hs; cbv zeta.
  unfold GardenCanvas.worldToScreen, GardenCanvas.screenToWorld; cbn [pos_x pos_y].
  rewrite Ex, Ey, Es, !nsub_fin, !ndiv_fin by exact Hs.
  cbn [nmul nadd]; rewrite !nsub_fin, !ndiv_fin by exact Hs.
  pose proof roundOff_pos as Hr.
  split; apply nearBy_same;
    try (apply Rmult_le_pos; [lra | apply sizes_nonneg]);
    field; exact Hs.
Qed.

Lemma X19_witness :
  let this := GardenCanvas.mkCanvas (Fin 400) (Fin 300) (Fin 2) (Fin 0.1) (Fin 3)
                (Fin 800) (Fin 600) in
  let world := GardenCanvas.screenToWorld this (Fin 10) (Fin 20) in
  nearBy (roundOff * (Rabs 10 + Rabs 20 + Rabs 400 + Rabs 300))
         (GardenCanvas.worldToScreen this (pos_x world) (pos_y world))
         (mkPoint (Fin 10) (Fin 20)).
Proof.
  intros this.
  apply (X19_screen_and_world_round_trip this 400 300 2 10 20);
    [repeat split | lra].
Defined.

Lemma zoomAt_cases (this : GardenCanvas.Canvas) (ox oy s lo hi mx my delta : R) :
  realView this ox oy s ->
  GardenCanvas.minScale this = Fin lo -> GardenCanvas.maxScale this = Fin hi ->
  (lo <= s * delta <= hi /\
   GardenCanvas.zoomAt this (Fin mx) (Fin my) (Fin delta)
   = GardenCanvas.mkCanvas (Fin (mx - (mx - ox) * delta)) (Fin (my - (my - oy) * delta))
       (Fin (s * delta)) (Fin lo) (Fin hi)
       (GardenCanvas.canvas_width this) (GardenCanvas.canvas_height this)) \/
  (~ lo <= s * delta <= hi /\
   GardenCanvas.zoomAt this (Fin mx) (Fin my) (Fin delta) = this).
Proof.
  intros (Ex & Ey & Es) Elo Ehi; unfold GardenCanvas.zoomAt; cbv zeta.
  rewrite Ex, Ey, Es, Elo, Ehi; unfold nge; cbn [nmul nle nsub nadd nneg].
  destruct (Rleb lo (s * delta)) eqn:E1; cbn [andb].
  - destruct (Rleb (s * delta) hi) eqn:E2.
    + apply Rleb_true in E1, E2; left; split; [lra|].
      f_equal; f_equal; ring.
    + apply Rleb_false in E2; right; split; [lra | reflexivity].
  - apply Rleb_false in E1; right; split; [lra | reflexivity].
Qed.

(** X20. [zoomAt] with real arguments keeps the scale within its limits: a
    scale within [minScale, maxScale] stays within these limits.  The call
    either changes nothing at all or multiplies the scale by the factor: it
    multiplies when the product is within the limits, and changes nothing
    when the product is outside them by more than rounding (a billionth of
    the limit). *)
Theorem X20_zoom_keeps_the_scale_within_limits
  (this : GardenCanvas.Canvas) (ox oy s lo hi mx my delta : R) :
  realView this ox oy s ->
  GardenCanvas.minScale this = Fin lo -> GardenCanvas.maxScale this = Fin hi ->
  let zoomed := GardenCanvas.zoomAt this (Fin mx) (Fin my) (Fin delta) in
  (lo <= s <= hi ->
   exists s' : R, GardenCanvas.scale zoomed = Fin s' /\ lo <= s' <= hi) /\
  (zoomed = this \/
   GardenCanvas.scale zoomed = (GardenCanvas.scale this * Fin delta)%num) /\
  (lo <= s * delta <= hi ->
   GardenCanvas.scale zoomed = (GardenCanvas.scale this * Fin delta)%num) /\
  (s * delta < lo - roundOff * Rabs lo \/ hi + roundOff * Rabs hi < s * delta ->
   zoomed = this).
Proof.
  intros Hview Elo Ehi zoomed.
  pose proof Hview as (Ex & Ey & Es).
  pose proof roundOff_pos as Hr.
  assert (0 <= roundOff * Rabs lo) as Hlo
      by (apply Rmult_le_pos; [lra | apply Rabs_pos]).
  assert (0 <= roundOff * Rabs hi) as Hhi
      by (apply Rmult_le_pos; [lra | apply Rabs_pos]).
  destruct (zoomAt_cases this ox oy s lo hi mx my delta Hview Elo Ehi)
    as [(Hin & E) | (Hout & E)]; unfold zoomed; rewrite E; clear E.
  - split; [|split; [|split]].
    + intros _; now exists (s * delta).
    + right; now rewrite Es.
    + intros _; now rewrite Es.
    + intros [H|H]; lra.
  - split; [|split; [|split]].
    + intros H; exists s; split; assumption.
    + now left.
    + intros H; contradiction.
    + reflexivity.
Qed.

Lemma X20_witness :
  let this := GardenCanvas.mkCanvas (Fin 400) (Fin 300) (Fin 2) (Fin 0.1) (Fin 3)
                (Fin 800) (Fin 600) in
  let zoomed := GardenCanvas.zoomAt this (Fin 100) (Fin 50) (Fin 1.05) in
  GardenCanvas.scale zoomed = (GardenCanvas.scale this * Fin 1.05)%num.
Proof.
  intros this.
  apply (X20_zoom_keeps_the_scale_within_limits this 400 300 2 0.1 3 100 50 1.05);
    try reflexivity; [repeat split | lra].
Defined.

(** X27. [zoomAt] zooms about the mouse: with real arguments, a real scale
    other than 0 and a factor other than 0, the world point under the mouse
    is the same after the call as before, up to rounding: it moves by at
    most a billionth of the sizes of the mouse position and the offset,
    taken to the world at the old and at the new scale.  (Over the real
    numbers it does not move at all.) *)
Theorem X27_zoom_keeps_the_point_under_the_mouse
  (this : GardenCanvas.Canvas) (ox oy s lo hi mx my delta : R) :
  realView this ox oy s ->
  GardenCanvas.minScale this = Fin lo -> GardenCanvas.maxScale this = Fin hi ->
  s <> 0 -> delta <> 0 ->
  let zoomed := GardenCanvas.zoomAt this (Fin mx) (Fin my) (Fin delta) in
  nearBy (roundOff * (Rabs (mx / s) + Rabs (my / s) + Rabs (ox / s) + Rabs (oy / s)
                      + (Rabs (mx / (s * delta)) + Rabs (my / (s * delta))
                         + Rabs (ox / (s * delta)) + Rabs (oy / (s * delta)))))
         (GardenCanvas.screenToWorld zoomed (Fin mx) (Fin my))
         (GardenCanvas.screenToWorld this (Fin mx) (Fin my)).
Proof.
  intros Hview Elo Ehi Hs Hd zoomed.
  pose proof Hview as (Ex & Ey & Es).
  pose proof roundOff_pos as Hr.
  assert (0 <= roundOff * (Rabs (mx / s) + Rabs (my / s) + Rabs (ox / s) + Rabs (oy / s)
                      + (Rabs (mx / (s * delta)) + Rabs (my / (s * delta))
                         + Rabs (ox / (s * delta)) + Rabs (oy / (s * delta))))) as Htol.
  { apply Rmult_le_pos; [lra|].
    pose proof (sizes_nonneg (mx / s) (my / s) (ox / s) (oy / s)).
    pose proof (sizes_nonneg (mx / (s * delta)) (my / (s * delta))
                  (ox / (s * delta)) (oy / (s * delta))).
    lra. }
  destruct (zoomAt_cases this ox oy s lo hi mx my delta Hview Elo Ehi)
    as [(Hin & E) | (Hout & E)]; unfold zoomed; rewrite E; clear E;
    unfold GardenCanvas.screenToWorld; cbn [GardenCanvas.offsetX GardenCanvas.offsetY
        GardenCanvas.scale];
    rewrite ?Ex, ?Ey, ?Es, !nsub_fin, !ndiv_fin by (try exact Hs; nra);
    apply nearBy_same; try exact Htol; try reflexivity; field; split; assumption.
Qed.

Lemma X27_witness :
  let this := GardenCanvas.mkCanvas (Fin 400) (Fin 300) (Fin 2) (Fin 0.1) (Fin 3)
                (Fin 800) (Fin 600) in
  let zoomed := GardenCanvas.zoomAt this (Fin 100) (Fin 50) (Fin 1.05) in
  nearBy (roundOff * (Rabs (100 / 2) + Rabs (50 / 2) + Rabs (400 / 2) + Rabs (300 / 2)
                      + (Rabs (100 / (2 * 1.05)) + Rabs (50 / (2 * 1.05))
                         + Rabs (400 / (2 * 1.05)) + Rabs (300 / (2 * 1.05)))))
         (GardenCanvas.screenToWorld zoomed (Fin 100) (Fin 50))
         (GardenCanvas.screenToWorld this (Fin 100) (Fin 50)).
Proof.
  intros this.
  apply (X27_zoom_keeps_the_point_under_the_mouse this 400 300 2 0.1 3 100 50 1.05);
    try reflexivity; [repeat split | lra | lra].
Defined.

(** ** Fitting the view *)

Lemma hasBox_ordered (bed : GardenCanvas.CanvasBed) (x0 x1 y0 y1 : R) :
  hasBox bed x0 x1 y0 y1 -> x0 < x1 /\ y0 < y1.
Proof.
  intros (cx & cy & _ & _ & [(_ & w & h & _ & _ & Hw & Hh & -> & -> & -> & ->)
                            | (_ & r & _ & Hr & -> & -> & -> & ->)]); lra.
Qed.

Lemma hasBox_unique (bed : GardenCanvas.CanvasBed) (x0 x1 y0 y1 x0' x1' y0' y1' : R) :
  hasBox bed x0 x1 y0 y1 -> hasBox bed x0' x1' y0' y1' ->
  x0 = x0' /\ x1 = x1' /\ y0 = y0' /\ y1 = y1'.
Proof.
  intros (cx & cy & Ex & Ey & H) (cx' & cy' & Ex' & Ey' & H').
  rewrite Ex in Ex'; rewrite Ey in Ey'; injection Ex' as <-; injection Ey' as <-.
  destruct H as [(Ht & w & h & Ew & Eh & _ & _ & -> & -> & -> & ->)
                | (Ht & r & Er & _ & -> & -> & -> & ->)];
    destruct H' as [(Ht' & w' & h' & Ew' & Eh' & _ & _ & -> & -> & -> & ->)
                   | (Ht' & r' & Er' & _ & -> & -> & -> & ->)];
    try (rewrite Ht in Ht'; discriminate).
  - rewrite Ew in Ew'; rewrite Eh in Eh'; injection Ew' as <-; injection Eh' as <-.
    repeat split.
  - rewrite Er in Er'; injection Er' as <-; repeat split.
Qed.

Lemma growBounds_real (bed : GardenCanvas.CanvasBed) (x0 x1 y0 y1 a b c d : R) :
  hasBox bed x0 x1 y0 y1 ->
  GardenCanvas.growBounds (Fin a, Fin b, Fin c, Fin d) bed
  = (Fin (Rmin a x0), Fin (Rmax b x1), Fin (Rmin c y0), Fin (Rmax d y1)).
Proof.
  intros (cx & cy & Ex & Ey & [(Ht & w & h & Ew & Eh & _ & _ & -> & -> & -> & ->)
                              | (Ht & r & Er & _ & -> & -> & -> & ->)]);
    unfold GardenCanvas.growBounds; rewrite Ht, Ex, Ey; cbn [String.eqb Ascii.eqb Bool.eqb].
  - rewrite Ew, Eh, !ndiv_fin by lra.
    cbn [nadd]; rewrite !nsub_fin, !Math_min_fin, !Math_max_fin; reflexivity.
  - rewrite Er; cbn [nadd]; rewrite !nsub_fin, !Math_min_fin, !Math_max_fin; reflexivity.
Qed.

Lemma growBounds_first (bed : GardenCanvas.CanvasBed) (x0 x1 y0 y1 : R) :
  hasBox bed x0 x1 y0 y1 ->
  GardenCanvas.growBounds (PInf, NInf, PInf, NInf) bed = (Fin x0, Fin x1, Fin y0, Fin y1).
Proof.
  intros (cx & cy & Ex & Ey & [(Ht & w & h & Ew & Eh & _ & _ & -> & -> & -> & ->)
                              | (Ht & r & Er & _ & -> & -> & -> & ->)]);
    unfold GardenCanvas.growBounds; rewrite Ht, Ex, Ey; cbn [String.eqb Ascii.eqb Bool.eqb].
  - rewrite Ew, Eh, !ndiv_fin by lra.
    cbn [nadd]; rewrite !nsub_fin; reflexivity.
  - rewrite Er; cbn [nadd]; rewrite !nsub_fin; reflexivity.
Qed.

Lemma fold_growBounds_real (beds : list GardenCanvas.CanvasBed) :
  Forall (fun bed => exists x0 x1 y0 y1, hasBox bed x0 x1 y0 y1) beds ->
  forall a b c d : R,
  exists a' b' c' d' : R,
    fold_left GardenCanvas.growBounds beds (Fin a, Fin b, Fin c, Fin d)
    = (Fin a', Fin b', Fin c', Fin d') /\
    (a' <= a /\ b <= b' /\ c' <= c /\ d <= d') /\
    forall bed x0 x1 y0 y1, In bed beds -> hasBox bed x0 x1 y0 y1 ->
      a' <= x0 /\ x1 <= b' /\ c' <= y0 /\ y1 <= d'.
Proof.
  induction 1 as [|bed beds (x0 & x1 & y0 & y1 & Hbox) Hbeds IH]; intros a b c d.
  - exists a, b, c, d; split; [reflexivity|]; split; [lra|]; intros ? ? ? ? ? [].
  - cbn [fold_left]; rewrite (growBounds_real bed x0 x1 y0 y1 a b c d Hbox).
    destruct (IH (Rmin a x0) (Rmax b x1) (Rmin c y0) (Rmax d y1))
      as (a' & b' & c' & d' & E & (Ha & Hb & Hc & Hd) & Hin).
    pose proof (Rmin_l a x0); pose proof (Rmin_r a x0);
      pose proof (Rmax_l b x1); pose proof (Rmax_r b x1);
      pose proof (Rmin_l c y0); pose proof (Rmin_r c y0);
      pose proof (Rmax_l d y1); pose proof (Rmax_r d y1).
    exists a', b', c', d'; split; [exact E|]; split; [lra|].
    intros bed' x0' x1' y0' y1' [<- | Hbed] Hbox'.
    + destruct (hasBox_unique _ _ _ _ _ _ _ _ _ Hbox Hbox') as (<- & <- & <- & <-); lra.
    + now apply (Hin bed').
Qed.

Lemma fitToScreen_bounds (beds : list GardenCanvas.CanvasBed) :
  beds <> [] ->
  Forall (fun bed => exists x0 x1 y0 y1, hasBox bed x0 x1 y0 y1) beds ->
  exists minX maxX minY maxY : R,
    fold_left GardenCanvas.growBounds beds (PInf, NInf, PInf, NInf)
    = (Fin minX, Fin maxX, Fin minY, Fin maxY) /\
    minX < maxX /\ minY < maxY /\
    forall bed x0 x1 y0 y1, In bed beds -> hasBox bed x0 x1 y0 y1 ->
      minX <= x0 /\ x1 <= maxX /\ minY <= y0 /\ y1 <= maxY.
Proof.
  intros Hne Hall; destruct beds as [|bed beds]; [contradiction|].
  inversion Hall as [|? ? (x0 & x1 & y0 & y1 & Hbox) Hrest]; subst.
  cbn [fold_left]; rewrite (growBounds_first bed x0 x1 y0 y1 Hbox).
  destruct (fold_growBounds_real beds Hrest x0 x1 y0 y1)
    as (a' & b' & c' & d' & E & (Ha & Hb & Hc & Hd) & Hin).
  destruct (hasBox_ordered _ _ _ _ _ Hbox) as (Hx & Hy).
  exists a', b', c', d'; split; [exact E|]; split; [lra|]; split; [lra|].
  intros bed' x0' x1' y0' y1' [<- | Hbed] Hbox'.
  - destruct (hasBox_unique _ _ _ _ _ _ _ _ _ Hbox Hbox') as (<- & <- & <- & <-); lra.
  - now apply (Hin bed').
Qed.

Lemma fits_along (W margin lo hi c s p : R) :
  2 * margin < W -> lo < hi -> c = (lo + hi) / 2 ->
  0 < s -> s <= (W - margin * 2) / (hi - lo) ->
  lo <= p <= hi ->
  margin <= p * s + (W / 2 - c * s) <= W - margin.
Proof.
  intros HW Hlh -> Hs Hle Hp.
  assert (s * (hi - lo) <= W - margin * 2) as Hle'.
  { apply Rmult_le_compat_r with (r := hi - lo) in Hle; [|lra].
    unfold Rdiv in Hle; rewrite Rmult_assoc, Rinv_l, Rmult_1_r in Hle by lra; lra. }
  assert (0 <= (p - lo) * s) by (apply Rmult_le_pos; lra).
  assert (0 <= (hi - p) * s) by (apply Rmult_le_pos; lra).
  split; lra.
Qed.

(** X21. [fitToScreen] fits: on a canvas of more than 100 by 100 pixels,
    with a positive real [maxScale], and for beds that are rectangles or
    circles with real centres and positive real dimensions (at least one
    bed), the new scale is positive and at most [maxScale], and every point
    of the box around every bed is shown on the canvas at least 49 pixels
    from its border: the padding of 50 pixels that the method leaves, less
    one pixel of slack for the rounding of its operations (the edges of the
    box around all beds lie on the padding itself). *)
Theorem X21_fitToScreen_shows_every_bed
  (this : GardenCanvas.Canvas) (beds : list GardenCanvas.CanvasBed) (W H hi : R) :
  GardenCanvas.canvas_width this = Fin W -> GardenCanvas.canvas_height this = Fin H ->
  GardenCanvas.maxScale this = Fin hi ->
  100 < W -> 100 < H -> 0 < hi ->
  beds <> [] ->
  Forall (fun bed => exists x0 x1 y0 y1, hasBox bed x0 x1 y0 y1) beds ->
  let fitted := GardenCanvas.fitToScreen this beds in
  (exists s : R, GardenCanvas.scale fitted = Fin s /\ 0 < s <= hi) /\
  forall bed x0 x1 y0 y1 (px py : R),
    In bed beds -> hasBox bed x0 x1 y0 y1 ->
    x0 <= px <= x1 -> y0 <= py <= y1 ->
    onScreen W H 49 (GardenCanvas.worldToScreen fitted (Fin px) (Fin py)).
Proof.
  intros EW EH Ehi HW HH Hhi Hne Hall fitted.
  destruct (fitToScreen_bounds beds Hne Hall)
    as (minX & maxX & minY & maxY & E & Hx & Hy & Hin).
  set (sX := (W - 50 * 2) / (maxX - minX)).
  set (sY := (H - 50 * 2) / (maxY - minY)).
  set (s := Rmin (Rmin sX sY) hi).
  assert (fitted
          = GardenCanvas.mkCanvas (Fin (W / 2 - (minX + maxX) / 2 * s))
              (Fin (H / 2 - (minY + maxY) / 2 * s)) (Fin s)
              (GardenCanvas.minScale this) (Fin hi) (Fin W) (Fin H)) as Efit.
  { unfold fitted, GardenCanvas.fitToScreen.
    destruct beds as [|bed beds]; [contradiction|].
    rewrite E, EW, EH, Ehi; cbv beta iota zeta.
    cbn [nmul nadd]; rewrite !nsub_fin, !ndiv_fin by lra.
    rewrite !Math_min_fin; cbn [nmul]; rewrite !nsub_fin; reflexivity. }
  assert (0 < sX) as HsX by (unfold sX; apply Rdiv_lt_0_compat; lra).
  assert (0 < sY) as HsY by (unfold sY; apply Rdiv_lt_0_compat; lra).
  assert (0 < s) as Hs by (unfold s; repeat apply Rmin_glb_lt; assumption).
  assert (s <= sX) as HleX
    by (unfold s; eapply Rle_trans; [apply Rmin_l | apply Rmin_l]).
  assert (s <= sY) as HleY
    by (unfold s; eapply Rle_trans; [apply Rmin_l | apply Rmin_r]).
  split.
  - exists s; rewrite Efit; split; [reflexivity|]; split; [exact Hs | apply Rmin_r].
  - intros bed x0 x1 y0 y1 px py Hbed Hbox Hpx Hpy.
    destruct (Hin bed x0 x1 y0 y1 Hbed Hbox) as (H0 & H1 & H2 & H3).
    rewrite Efit; unfold GardenCanvas.worldToScreen;
      cbn [GardenCanvas.scale GardenCanvas.offsetX GardenCanvas.offsetY nmul nadd].
    eexists _, _; split; [reflexivity|].
    assert (50 <= px * s + (W / 2 - (minX + maxX) / 2 * s) <= W - 50)
      by (apply (fits_along W 50 minX maxX); try reflexivity; try assumption; lra).
    assert (50 <= py * s + (H / 2 - (minY + maxY) / 2 * s) <= H - 50)
      by (apply (fits_along H 50 minY maxY); try reflexivity; try assumption; lra).
    lra.
Qed.

Lemma exampleRectangle_box : hasBox exampleRectangle (-48) 48 (-24) 24.
Proof.
  exists 0, 0; split; [reflexivity|]; split; [reflexivity|]; left.
  split; [reflexivity|]; exists 96, 48; repeat split; try reflexivity; lra.
Qed.

Lemma exampleCircle_box : hasBox exampleCircle 76 124 (-24) 24.
Proof.
  exists 100, 0; split; [reflexivity|]; split; [reflexivity|]; right.
  split; [reflexivity|]; exists 24; repeat split; try reflexivity; lra.
Qed.

Lemma X21_witness :
  onScreen 800 600 49
    (GardenCanvas.worldToScreen
       (GardenCanvas.fitToScreen exampleCanvas [exampleRectangle; exampleCircle])
       (Fin 124) (Fin 24)).
Proof.
  apply (X21_fitToScreen_shows_every_bed exampleCanvas [exampleRectangle; exampleCircle]
           800 600 3) with (bed := exampleCircle) (x0 := 76) (x1 := 124)
                           (y0 := -24) (y1 := 24);
    try reflexivity; try lra.
  - discriminate.
  - repeat constructor.
    + exists (-48), 48, (-24), 24; apply exampleRectangle_box.
    + exists 76, 124, (-24), 24; apply exampleCircle_box.
  - right; left; reflexivity.
  - apply exampleCircle_box.
Defined.

(** X22. [fitBedToScreen] fits: on a canvas of more than 160 by 160
    pixels, for a rectangular or circular bed with a real centre and
    positive real dimensions, the new scale is positive and at most 10, the
    centre of the bed is shown within one pixel of the centre of the
    canvas, and every point of the box around the bed is shown at least 79
    pixels from the border of the canvas: the padding of 80 pixels that the
    method leaves, less one pixel of slack for the rounding of its
    operations (over the real numbers the centres coincide and the edges of
    the box lie on the padding itself). *)
Theorem X22_fitBedToScreen_centres_and_fits
  (this : GardenCanvas.Canvas) (bed : GardenCanvas.CanvasBed)
  (W H x0 x1 y0 y1 : R) :
  GardenCanvas.canvas_width this = Fin W -> GardenCanvas.canvas_height this = Fin H ->
  160 < W -> 160 < H ->
  hasBox bed x0 x1 y0 y1 ->
  let fitted := GardenCanvas.fitBedToScreen this (Some bed) in
  (exists s : R, GardenCanvas.scale fitted = Fin s /\ 0 < s <= 10) /\
  nearBy 1 (GardenCanvas.worldToScreen fitted (GardenCanvas.x bed) (GardenCanvas.y bed))
           (mkPoint (Fin (W / 2)) (Fin (H / 2))) /\
  forall px py : R, x0 <= px <= x1 -> y0 <= py <= y1 ->
    onScreen W H 79 (GardenCanvas.worldToScreen fitted (Fin px) (Fin py)).
Proof.
  intros EW EH HW HH Hbox fitted.
  destruct (hasBox_ordered _ _ _ _ _ Hbox) as (Hx & Hy).
  set (sX := (W - 80 * 2) / (x1 - x0)).
  set (sY := (H - 80 * 2) / (y1 - y0)).
  set (s := Rmin (Rmin sX sY) 10).
  assert (exists cx cy : R,
            GardenCanvas.x bed = Fin cx /\ GardenCanvas.y bed = Fin cy /\
            cx = (x0 + x1) / 2 /\ cy = (y0 + y1) / 2 /\
            fitted
            = GardenCanvas.mkCanvas (Fin (W / 2 - cx * s)) (Fin (H / 2 - cy * s)) (Fin s)
                (GardenCanvas.minScale this) (GardenCanvas.maxScale this) (Fin W) (Fin H))
    as (cx & cy & Ex & Ey & Ecx & Ecy & Efit).
  { destruct Hbox as (cx & cy & Ex & Ey &
      [(Ht & w & h & Ew & Eh & Hw & Hh & -> & -> & -> & ->)
      | (Ht & r & Er & Hr & -> & -> & -> & ->)]);
      exists cx, cy; (split; [exact Ex|]); (split; [exact Ey|]);
      (split; [lra|]); (split; [lra|]);
      unfold fitted, GardenCanvas.fitBedToScreen; rewrite Ht, Ex, Ey, EW, EH;
      cbn [String.eqb Ascii.eqb Bool.eqb]; cbv beta iota zeta.
    - rewrite Ew, Eh; cbn [nmul]; rewrite !nsub_fin, !ndiv_fin by lra.
      rewrite !Math_min_fin; cbn [nmul]; rewrite !nsub_fin.
      unfold s, sX, sY.
      replace (cx + w / 2 - (cx - w / 2)) with w by lra.
      replace (cy + h / 2 - (cy - h / 2)) with h by lra.
      reflexivity.
    - rewrite Er; cbn [nmul]; rewrite !nsub_fin, !ndiv_fin by lra.
      rewrite !Math_min_fin; cbn [nmul]; rewrite !nsub_fin.
      unfold s, sX, sY.
      replace (cx + r - (cx - r)) with (r * 2) by lra.
      replace (cy + r - (cy - r)) with (r * 2) by lra.
      reflexivity. }
  assert (0 < sX) as HsX by (unfold sX; apply Rdiv_lt_0_compat; lra).
  assert (0 < sY) as HsY by (unfold sY; apply Rdiv_lt_0_compat; lra).
  assert (0 < s) as Hs by (unfold s; repeat apply Rmin_glb_lt; try assumption; lra).
  assert (s <= sX) as HleX
    by (unfold s; eapply Rle_trans; [apply Rmin_l | apply Rmin_l]).
  assert (s <= sY) as HleY
    by (unfold s; eapply Rle_trans; [apply Rmin_l | apply Rmin_r]).
  split; [|split].
  - exists s; rewrite Efit; split; [reflexivity|]; split; [exact Hs | apply Rmin_r].
  - rewrite Efit, Ex, Ey; unfold GardenCanvas.worldToScreen;
      cbn [GardenCanvas.scale GardenCanvas.offsetX GardenCanvas.offsetY nmul nadd].
    apply nearBy_same; [lra | ring | ring].
  - intros px py Hpx Hpy.
    rewrite Efit; unfold GardenCanvas.worldToScreen;
      cbn [GardenCanvas.scale GardenCanvas.offsetX GardenCanvas.offsetY nmul nadd].
    eexists _, _; split; [reflexivity|].
    assert (80 <= px * s + (W / 2 - cx * s) <= W - 80)
      by (apply (fits_along W 80 x0 x1); try assumption; lra).
    assert (80 <= py * s + (H / 2 - cy * s) <= H - 80)
      by (apply (fits_along H 80 y0 y1); try assumption; lra).
    lra.
Qed.

Lemma X22_witness :
  onScreen 800 600 79
    (GardenCanvas.worldToScreen (GardenCanvas.fitBedToScreen exampleCanvas (Some exampleCircle))
       (Fin 76) (Fin (-24))).
Proof.
  apply (X22_fitBedToScreen_centres_and_fits exampleCanvas exampleCircle 800 600
           76 124 (-24) 24); try reflexivity; try lra.
  apply exampleCircle_box.
Defined.

(** ** Dividers *)

Lemma firstDivider_range (hit : num -> bool) (boundaries : list num) :
  forall k i, GardenCanvas.firstDivider hit boundaries k = Some i ->
    (k <= i < k + List.length boundaries)%nat /\
    hit (nth (i - k) boundaries NaN) = true /\
    forall j, (j < i - k)%nat -> hit (nth j boundaries NaN) = false.
Proof.
  induction boundaries as [|b rest IH]; intros k i H; cbn [GardenCanvas.firstDivider] in H;
    [discriminate|].
  destruct (hit b) eqn:Eb.
  - injection H as <-; cbn [List.length]; split; [lia|].
    rewrite Nat.sub_diag; split; [exact Eb | intros j Hj; lia].
  - destruct (IH _ _ H) as (Hr & Hhit & Hbefore); cbn [List.length]; split; [lia|].
    replace (i - k)%nat with (S (i - S k)) by lia; split; [exact Hhit|].
    intros [|j] Hj; [exact Eb | apply Hbefore; lia].
Qed.

(** X23. The divider that [getPlantDivider] reports is a divider of the
    bed: whenever it returns an index, the bed has at least two plant
    groups and a boundary set, and the index is an index of that boundary
    set - the index that [handleDividerDrag] then moves. *)
Theorem X23_reported_divider_exists
  (this : GardenCanvas.Canvas) (worldX worldY : num)
  (bed : option GardenCanvas.CanvasBed) (index : nat) (cursor : string) :
  GardenCanvas.getPlantDivider this worldX worldY bed = Some (index, cursor) ->
  exists b groups boundaries,
    bed = Some b /\
    GardenCanvas.plantGroups b = Some groups /\ (2 <= List.length groups)%nat /\
    GardenCanvas.regionBoundaries b = Some boundaries /\
    (index < List.length boundaries)%nat.
Proof.
  unfold GardenCanvas.getPlantDivider; intros H.
  destruct bed as [b|]; [|discriminate].
  destruct (GardenCanvas.plantGroups b) as [groups|] eqn:Hg; [|discriminate].
  destruct (Nat.leb_spec (List.length groups) 1) as [Hn|Hn]; [discriminate|].
  cbv zeta in H.
  exists b, groups.
  destruct (GardenCanvas.regionBoundaries b) as [boundaries|] eqn:Hb.
  - exists boundaries; repeat split; try assumption; try lia.
    destruct (String.eqb (GardenCanvas.type b) "circle");
      [|destruct (GardenCanvas.width b >? GardenCanvas.height b)%num];
      match type of H with
      | option_map _ (GardenCanvas.firstDivider ?hit _ _) = _ =>
          destruct (GardenCanvas.firstDivider hit boundaries 0) as [i|] eqn:E;
            [|discriminate];
          injection H as <- _; apply firstDivider_range in E; lia
      end.
  - destruct (String.eqb (GardenCanvas.type b) "circle");
      [|destruct (GardenCanvas.width b >? GardenCanvas.height b)%num];
      discriminate.
Qed.

Lemma exampleRectangle_divider :
  GardenCanvas.getPlantDivider exampleCanvas (Fin 0) (Fin 2) (Some exampleRectangle)
  = Some (0%nat, "ns-resize"%string).
Proof.
  unfold GardenCanvas.getPlantDivider, exampleRectangle, exampleCanvas, exampleGroups,
    GardenCanvas.transformPoint.
  cbn [GardenCanvas.plantGroups GardenCanvas.regionBoundaries GardenCanvas.type
       GardenCanvas.x GardenCanvas.y GardenCanvas.width GardenCanvas.height
       GardenCanvas.rotation GardenCanvas.scale List.length Nat.leb
       String.eqb Ascii.eqb Bool.eqb GardenCanvas.falsy].
  assert (Reqb 0 0 = true) as -> by (unfold Reqb; destruct (Req_dec_T 0 0); easy).
  cbv zeta; cbn [pos_x pos_y]; unfold ngt; cbn [nlt].
  assert (Rltb 48 96 = true) as -> by (apply Rltb_true; lra).
  cbn [GardenCanvas.firstDivider].
  rewrite !nsub_fin, !ndiv_fin by lra.
  cbn [nneg nmul nadd]; rewrite !ndiv_fin by lra; cbn [nadd]; rewrite !nsub_fin.
  cbn [Math_abs nle].
  repeat match goal with
         | |- context [Rleb (Rabs ?a) ?b] =>
             let E := fresh in
             assert (Rleb (Rabs a) b = true) as E by (apply Rleb_true, Rabs_le; lra);
             rewrite E; clear E
         end.
  reflexivity.
Qed.

Lemma X23_witness :
  exists b groups boundaries,
    Some exampleRectangle = Some b /\
    GardenCanvas.plantGroups b = Some groups /\ (2 <= List.length groups)%nat /\
    GardenCanvas.regionBoundaries b = Some boundaries /\
    (0 < List.length boundaries)%nat.
Proof.
  exact (X23_reported_divider_exists exampleCanvas (Fin 0) (Fin 2) (Some exampleRectangle)
           0 "ns-resize" exampleRectangle_divider).
Defined.

(** ** Planted positions and the hit test *)

Lemma hitAt_rectangle (bed : GardenCanvas.CanvasBed) (cx cy w h px py : R) :
  GardenCanvas.type bed = "rectangle"%string ->
  GardenCanvas.x bed = Fin cx -> GardenCanvas.y bed = Fin cy ->
  GardenCanvas.width bed = Fin w -> GardenCanvas.height bed = Fin h ->
  GardenCanvas.falsy (GardenCanvas.rotation bed) = true ->
  Rabs px <= w / 2 -> Rabs py <= h / 2 ->
  hitAt bed (mkPoint (Fin px) (Fin py)).
Proof.
  intros Ht Ex Ey Ew Eh Hrot Hx Hy.
  unfold hitAt, GardenCanvas.isPointInBed, GardenCanvas.transformPoint.
  rewrite Ht, Ex, Ey, Ew, Eh, Hrot; cbn [String.eqb Ascii.eqb Bool.eqb pos_x pos_y].
  cbv zeta; cbn [pos_x pos_y nadd]; rewrite !nsub_fin, !ndiv_fin by lra.
  cbn [Math_abs nle].
  replace (cx + px - cx) with px by ring.
  replace (cy + py - cy) with py by ring.
  now rewrite (proj2 (Rleb_true _ _) Hx), (proj2 (Rleb_true _ _) Hy).
Qed.

Lemma hitAt_circle (bed : GardenCanvas.CanvasBed) (cx cy r rot px py : R) :
  GardenCanvas.type bed = "circle"%string ->
  GardenCanvas.x bed = Fin cx -> GardenCanvas.y bed = Fin cy ->
  GardenCanvas.radius bed = Fin r ->
  GardenCanvas.rotation bed = Fin rot ->
  sqrt (px * px + py * py) <= r ->
  hitAt bed (mkPoint (Fin px) (Fin py)).
Proof.
  intros Ht Ex Ey Er Erot Hd.
  unfold hitAt, GardenCanvas.isPointInBed, GardenCanvas.transformPoint.
  rewrite Ht, Ex, Ey, Er, Erot; cbn [String.eqb Ascii.eqb Bool.eqb pos_x pos_y].
  cbv zeta; cbn [pos_x pos_y nadd]; rewrite !nsub_fin.
  replace (cx + px - cx) with px by ring.
  replace (cy + py - cy) with py by ring.
  destruct (GardenCanvas.falsy (Fin rot)); cbn [pos_x pos_y].
  - cbn [nmul nadd]; rewrite Math_sqrt_fin by nra.
    cbn [nle]; now apply Rleb_true.
  - unfold Math_PI; cbn [nmul nneg]; rewrite ndiv_fin by lra.
    cbn [Math_cos Math_sin nmul nadd]; rewrite !nsub_fin; cbn [nadd].
    cbn [nmul nadd].
    match goal with |- context [cos ?u] => set (t := u) end.
    pose proof (sin2_cos2 t) as H; unfold Rsqr in H.
    match goal with
    | |- context [Math_sqrt (Fin ?e)] =>
        replace e with ((px * px + py * py) * (sin t * sin t + cos t * cos t)) by ring
    end.
    rewrite H, Rmult_1_r.
    rewrite Math_sqrt_fin by nra.
    cbn [nle]; now apply Rleb_true.
Qed.

(** X24. Every position that region mode places is found inside its bed by
    the hit test of the canvas, at the position's offset from the centre of
    the bed: for spacing > 0 and region bounds 0 <= start < end <= 1, on a
    rectangular bed that is not rotated (horizontal or vertical division),
    and on a circular bed of radius > 0 whatever its rotation. *)
Theorem X24_planted_positions_pass_the_hit_test
  (bed : GardenCanvas.CanvasBed) (cx cy s a b : R) (isHorizontal : bool) :
  GardenCanvas.x bed = Fin cx -> GardenCanvas.y bed = Fin cy ->
  0 < s -> 0 <= a < b /\ b <= 1 ->
  (forall (w h : R) (radius : num),
     GardenCanvas.type bed = "rectangle"%string ->
     GardenCanvas.width bed = Fin w -> GardenCanvas.height bed = Fin h ->
     0 <= w -> 0 <= h ->
     GardenCanvas.falsy (GardenCanvas.rotation bed) = true ->
     yields (PlantPlacer.placeInRegion (Fin w) (Fin h) (Fin s) false radius isHorizontal
               (mkBounds (Fin a) (Fin b)))
            (hitAt bed)) /\
  (forall (r rot : R) (width height : num),
     GardenCanvas.type bed = "circle"%string ->
     GardenCanvas.radius bed = Fin r -> 0 < r ->
     GardenCanvas.rotation bed = Fin rot ->
     yields (PlantPlacer.placeInRegion width height (Fin s) true (Fin r) isHorizontal
               (mkBounds (Fin a) (Fin b)))
            (hitAt bed)).
Proof.
  intros Ex Ey Hs Hab; split.
  - intros w h radius Ht Ew Eh Hw Hh Hrot.
    assert (forall x0 x1 y0 y1 p,
              - w / 2 <= x0 -> x1 <= w / 2 -> - h / 2 <= y0 -> y1 <= h / 2 ->
              inBox x0 x1 y0 y1 p -> hitAt bed p) as Hbox.
    { intros x0 x1 y0 y1 p H0 H1 H2 H3 (px & py & -> & Hpx & Hpy).
      apply (hitAt_rectangle bed cx cy w h); try assumption; apply Rabs_le; lra. }
    destruct isHorizontal.
    + eapply yields_weaken; [|apply (horizontal_region_inBox w h s a b radius Hs)].
      intros p; apply Hbox; nra.
    + eapply yields_weaken; [|apply (vertical_region_inBox w h s a b radius Hs)].
      intros p; apply Hbox; nra.
  - intros r rot width height Ht Er Hr Erot.
    eapply yields_weaken;
      [|unfold PlantPlacer.placeInRegion;
        apply (placeInCircularRegion_onSubRing r s a b); lra].
    intros p Hp.
    apply (onSubRing_inAnnulus r s a b Hr Hs Hab) in Hp.
    destruct Hp as (px & py & -> & Hd).
    apply (hitAt_circle bed cx cy r rot); try assumption; nra.
Qed.

Lemma X24_witness :
  yields (PlantPlacer.placeInRegion (Fin 96) (Fin 48) (Fin 12) false NaN true
            (mkBounds (Fin 0) (Fin 0.5)))
         (hitAt exampleRectangle).
Proof.
  apply (X24_planted_positions_pass_the_hit_test exampleRectangle 0 0 12 0 0.5 true);
    try reflexivity; try lra.
  cbn [exampleRectangle GardenCanvas.rotation GardenCanvas.falsy]; unfold Reqb.
  destruct (Req_dec_T 0 0); easy.
Defined.

(** * The spacing within one group *)

Lemma ForallOrdPairs_app {A : Type} (R : A -> A -> Prop) (l1 l2 : list A) :
  ForallOrdPairs R l1 -> ForallOrdPairs R l2 ->
  (forall a b, In a l1 -> In b l2 -> R a b) ->
  ForallOrdPairs R (l1 ++ l2).
Proof.
  induction 1 as [|a l1 Ha Hl1 IH]; intros H2 H; cbn [app]; [exact H2|].
  constructor.
  - apply Forall_app; split; [exact Ha|].
    apply Forall_forall; intros b Hb; apply H; [now left | exact Hb].
  - apply IH; [exact H2|]; intros x y Hx Hy; apply H; [now right | exact Hy].
Qed.

Lemma ForallOrdPairs_flat_map {A B : Type} (R : B -> B -> Prop) (g : A -> list B)
  (l : list A) :
  NoDup l ->
  (forall a, In a l -> ForallOrdPairs R (g a)) ->
  (forall a a' b b', In a l -> In a' l -> a <> a' -> In b (g a) -> In b' (g a') -> R b b') ->
  ForallOrdPairs R (flat_map g l).
Proof.
  induction 1 as [|a l Ha Hl IH]; intros Hin Hout; cbn [flat_map]; [constructor|].
  apply ForallOrdPairs_app.
  - apply Hin; now left.
  - apply IH; [intros x Hx; apply Hin; now right|].
    intros x x' b b' Hx Hx'; apply Hout; now right.
  - intros b b' Hb Hb'; apply in_flat_map in Hb' as (a' & Ha' & Hb').
    apply (Hout a a'); try assumption; [now left | now right|].
    intros ->; contradiction.
Qed.

Lemma ForallOrdPairs_filter {A : Type} (R : A -> A -> Prop) (f : A -> bool) (l : list A) :
  ForallOrdPairs R l -> ForallOrdPairs R (filter f l).
Proof.
  induction 1 as [|a l Ha Hl IH]; cbn [filter]; [constructor|].
  destruct (f a); [|exact IH].
  constructor; [|exact IH].
  rewrite Forall_forall in *; intros b Hb; apply Ha.
  now apply filter_In in Hb.
Qed.

Lemma NoDup_indices (n : nat) : forall i, NoDup (indices i n).
Proof.
  induction n as [|n IH]; intros i; cbn [indices]; constructor; [|apply IH].
  rewrite In_indices; lia.
Qed.

Lemma spaced_rows (s : R) (point : Z -> Z -> Point) (cols : Z -> R) (rows : nat) :
  (forall row col row' col',
     (row, col) <> (row', col') -> (0 <= row)%Z -> (0 <= row')%Z ->
     farApart s (point row col) (point row' col')) ->
  spaced s (flat_map (fun row => rowOf (point row) (cols row)) (indices 0 rows)).
Proof.
  intros Hfar; apply ForallOrdPairs_flat_map.
  - apply NoDup_indices.
  - intros row Hrow; apply In_indices in Hrow.
    unfold rowOf; apply ForallOrdPairs_flat_map.
    + apply NoDup_indices.
    + intros col _; repeat constructor.
    + intros col col' p q _ _ Hne [<-|[]] [<-|[]].
      apply Hfar; [congruence | lia | lia].
  - intros row row' p q Hrow Hrow' Hne Hp Hq.
    apply In_indices in Hrow, Hrow'.
    unfold rowOf in Hp, Hq.
    apply in_flat_map in Hp as (col & _ & [<-|[]]).
    apply in_flat_map in Hq as (col' & _ & [<-|[]]).
    apply Hfar; [congruence | lia | lia].
Qed.

Lemma far_enough (s dx dy : R) : 0 <= s -> s * s <= dx * dx + dy * dy ->
  s <= sqrt (dx * dx + dy * dy).
Proof.
  intros Hs H; rewrite <- (sqrt_square s) at 1 by exact Hs.
  now apply sqrt_le_1_alt.
Qed.

Lemma IZR_apart (a b : Z) : a <> b -> 1 <= (IZR a - IZR b) * (IZR a - IZR b).
Proof.
  intros Hne; rewrite <- minus_IZR.
  assert (a - b <= -1 \/ 1 <= a - b)%Z as [H|H] by lia; apply IZR_le in H; nra.
Qed.

Lemma scaled_far (s a b : R) :
  0 < s -> 1 <= a * a + b * b -> s * s <= a * s * (a * s) + b * s * (b * s).
Proof.
  intros Hs H.
  replace (a * s * (a * s) + b * s * (b * s)) with ((a * a + b * b) * (s * s)) by ring.
  assert (0 <= s * s) by nra; nra.
Qed.

Lemma gridPoints_spaced (w h s : R) : 0 < s -> spaced s (gridPoints w h s).
Proof.
  intros Hs; unfold gridPoints; apply spaced_rows.
  intros row col row' col' Hne _ _; eexists _, _, _, _; split; [reflexivity|];
    split; [reflexivity|].
  unfold distR; apply far_enough; [lra|].
  replace (- w / 2 + s / 2 + IZR col * s - (- w / 2 + s / 2 + IZR col' * s))
    with ((IZR col - IZR col') * s) by ring.
  replace (- h / 2 + s / 2 + IZR row * s - (- h / 2 + s / 2 + IZR row' * s))
    with ((IZR row - IZR row') * s) by ring.
  apply scaled_far; [exact Hs|].
  pose proof (Rle_0_sqr (IZR col - IZR col')) as Hc; unfold Rsqr in Hc.
  pose proof (Rle_0_sqr (IZR row - IZR row')) as Hr; unfold Rsqr in Hr.
  destruct (Z.eq_dec row row') as [->|Hrow].
  - assert (col <> col') as Hcol by congruence.
    pose proof (IZR_apart col col' Hcol); lra.
  - pose proof (IZR_apart row row' Hrow); lra.
Qed.

Lemma rem2_same (row row' : Z) :
  (0 <= row)%Z -> (0 <= row')%Z -> row <> row' -> Z.rem row 2 = Z.rem row' 2 ->
  4 <= (IZR row - IZR row') * (IZR row - IZR row').
Proof.
  intros H0 H0' Hne Hrem; rewrite !Z.rem_mod_nonneg in Hrem by lia.
  rewrite <- minus_IZR.
  assert (row - row' <= -2 \/ 2 <= row - row')%Z as [H|H]
    by (pose proof (Z.div_mod row 2 ltac:(lia)); pose proof (Z.div_mod row' 2 ltac:(lia)); lia);
    apply IZR_le in H; nra.
Qed.

Lemma hexPoints_spaced (w h s : R) : 0 < s -> spaced s (hexPoints w h s).
Proof.
  intros Hs; unfold hexPoints; apply spaced_rows.
  intros row col row' col' Hne H0 H0'; eexists _, _, _, _; split; [reflexivity|];
    split; [reflexivity|].
  unfold distR; apply far_enough; [lra|].
  assert (sqrt 3 * sqrt 3 = 3) as H3 by (apply sqrt_sqrt; lra).
  set (dr := IZR row - IZR row').
  set (dc := IZR col - IZR col').
  set (dp := IZR (Z.rem row 2) - IZR (Z.rem row' 2)).
  replace (- w / 2 + s / 2 + IZR col * s + IZR (Z.rem row 2) * (s / 2)
           - (- w / 2 + s / 2 + IZR col' * s + IZR (Z.rem row' 2) * (s / 2)))
    with ((dc + dp / 2) * s) by (unfold dc, dp; field).
  replace (- h / 2 + s / 2 + IZR row * (s * sqrt 3 / 2)
           - (- h / 2 + s / 2 + IZR row' * (s * sqrt 3 / 2)))
    with (dr * (sqrt 3 / 2) * s) by (unfold dr; field).
  apply scaled_far; [exact Hs|].
  replace (dr * (sqrt 3 / 2) * (dr * (sqrt 3 / 2)))
    with (dr * dr * (sqrt 3 * sqrt 3 / 4)) by field.
  rewrite H3.
  pose proof (Rle_0_sqr dc) as Hdc2; unfold Rsqr in Hdc2.
  pose proof (Rle_0_sqr dr) as Hdr2; unfold Rsqr in Hdr2.
  destruct (Z.eq_dec (Z.rem row 2) (Z.rem row' 2)) as [Hrem|Hrem].
  - assert (dp = 0) as -> by (unfold dp; rewrite Hrem; ring).
    destruct (Z.eq_dec row row') as [->|Hrow].
    + assert (col <> col') as Hcol by congruence.
      pose proof (IZR_apart col col' Hcol); unfold dr, dc in *; nra.
    + pose proof (rem2_same row row' H0 H0' Hrow Hrem); unfold dr, dc in *; nra.
  - assert (row <> row') as Hrow by congruence.
    pose proof (IZR_apart row row' Hrow) as Hdr; fold dr in Hdr.
    assert (dp = 1 \/ dp = -1) as Hdp.
    { destruct (rem2_cases row H0) as [E|E], (rem2_cases row' H0') as [E'|E'];
        unfold dp; rewrite E, E'; try congruence; [right | left]; lra. }
    assert (1 / 4 <= (dc + dp / 2) * (dc + dp / 2)); [|nra].
    unfold dc; rewrite <- minus_IZR.
    assert (col - col' <= -1 \/ col - col' = 0 \/ 1 <= col - col')%Z as [H|[H|H]] by lia.
    + apply IZR_le in H; destruct Hdp as [-> | ->]; nra.
    + rewrite H; destruct Hdp as [-> | ->]; nra.
    + apply IZR_le in H; destruct Hdp as [-> | ->]; nra.
Qed.

Lemma spaced_weaken (d s : R) (pts : list Point) : d <= s -> spaced s pts -> spaced d pts.
Proof.
  intros Hd; unfold spaced; induction 1 as [|p pts Hp Hpts IH]; constructor; [|exact IH].
  eapply Forall_impl; [|exact Hp]; intros q (px & py & qx & qy & -> & -> & H).
  exists px, py, qx, qy; repeat split; lra.
Qed.

(** X25. The patterns keep the spacing within a group: for spacing > 0, any
    two positions of [gridPattern], of [hexagonalPattern], of
    [placeInRectangle] and of [placeInCircle] (current revision, either
    pattern) are at least 0.999 spacing apart; in particular no position is
    generated twice.  (Over the real numbers the neighbours of a position,
    in its row and in the next, are exactly one spacing away; the slack of a
    thousandth covers the rounding of the coordinates.) *)
Theorem X25_patterns_keep_the_spacing (width height radius spacing : R) (pattern : string) :
  0 < spacing ->
  exists grid hex rectangle circle,
    PlantPlacer.gridPattern width height spacing = Returns grid /\
    PlantPlacer.hexagonalPattern width height spacing = Returns hex /\
    PlantPlacer.placeInRectangle width height spacing pattern = Returns rectangle /\
    PlantPlacer.placeInCircle radius spacing pattern = Returns circle /\
    spaced (0.999 * spacing) grid /\
    spaced (0.999 * spacing) hex /\
    spaced (0.999 * spacing) rectangle /\
    spaced (0.999 * spacing) circle.
Proof.
  intros Hs.
  assert (spacing <> 0) as Hs0 by lra.
  assert (0.999 * spacing <= spacing) as Hd by lra.
  assert (forall w h, spaced (0.999 * spacing) (gridPoints w h spacing)) as Hgrid
      by (intros w h; apply (spaced_weaken _ spacing); [exact Hd|];
          now apply gridPoints_spaced).
  assert (forall w h, spaced (0.999 * spacing) (hexPoints w h spacing)) as Hhex
      by (intros w h; apply (spaced_weaken _ spacing); [exact Hd|];
          now apply hexPoints_spaced).
  exists (gridPoints width height spacing), (hexPoints width height spacing).
  unfold PlantPlacer.placeInRectangle, PlantPlacer.placeInCircle; cbv zeta; cbn [nmul].
  rewrite !gridPattern_exact, !hexagonalPattern_exact by exact Hs0.
  destruct (is_hexagonal pattern); cbn [bind]; eexists _, _;
    repeat (split; [reflexivity|]);
    repeat split;
    try apply ForallOrdPairs_filter;
    try apply Hgrid; try apply Hhex.
Qed.

Lemma X25_witness :
  exists grid hex rectangle circle,
    PlantPlacer.gridPattern 48 96 12 = Returns grid /\
    PlantPlacer.hexagonalPattern 48 96 12 = Returns hex /\
    PlantPlacer.placeInRectangle 48 96 12 "hexagonal" = Returns rectangle /\
    PlantPlacer.placeInCircle 24 12 "hexagonal" = Returns circle /\
    spaced (0.999 * 12) grid /\ spaced (0.999 * 12) hex /\
    spaced (0.999 * 12) rectangle /\ spaced (0.999 * 12) circle.
Proof.
  apply (X25_patterns_keep_the_spacing 48 96 24 12 "hexagonal").
  lra.
Defined.

(** ** The spacing in region mode *)

Lemma iterate_labelled {A : Type} (R : A -> A -> Prop) (P : Z -> A -> Prop)
  (body : Z -> outcome (list A)) (n : nat) :
  (forall k k' a b, k <> k' -> P k a -> P k' b -> R a b) ->
  forall i : Z,
    (forall k, (i <= k < i + Z.of_nat n)%Z ->
       exists lk, body k = Returns lk /\ ForallOrdPairs R lk /\ Forall (P k) lk) ->
    exists l, iterate body i n = Returns l /\ ForallOrdPairs R l /\
              Forall (fun a => exists k, (i <= k)%Z /\ P k a) l.
Proof.
  intros Hcross; induction n as [|n IH]; intros i Hbody; cbn [iterate].
  - exists []; repeat split; constructor.
  - destruct (Hbody i) as (lk & Hk & Hlk & HP); [lia|].
    destruct (IH (i + 1)%Z) as (l & Hl & HRl & HPl).
    { intros k Hk'; apply Hbody; lia. }
    rewrite Hk, Hl; cbn [bind]; exists (lk ++ l); split; [reflexivity|]; split.
    + apply ForallOrdPairs_app; try assumption.
      intros a b Ha Hb; rewrite Forall_forall in HP, HPl.
      destruct (HPl b Hb) as (k' & Hk' & Hb').
      apply (Hcross i k'); [lia | now apply HP | exact Hb'].
    + apply Forall_app; split.
      * eapply Forall_impl; [|exact HP]; intros a Ha; exists i; split; [lia | exact Ha].
      * eapply Forall_impl; [|exact HPl]; intros a (k & Hk' & Ha); exists k; split;
          [lia | exact Ha].
Qed.

Lemma for_lt_labelled {A : Type} (rel : A -> A -> Prop) (P : Z -> A -> Prop) (r : R)
  (body : Z -> outcome (list A)) :
  (forall k k' a b, k <> k' -> P k a -> P k' b -> rel a b) ->
  (forall k, (0 <= k)%Z ->
     exists lk, body k = Returns lk /\ ForallOrdPairs rel lk /\ Forall (P k) lk) ->
  exists l, for_lt (Fin r) body = Returns l /\ ForallOrdPairs rel l /\
            Forall (fun a => exists k, (0 <= k)%Z /\ P k a) l.
Proof.
  intros Hcross Hbody; cbn [for_lt]; apply iterate_labelled; [exact Hcross|].
  intros k Hk; apply Hbody; lia.
Qed.

(** A loop that pushes one point [point k] per iteration, or none. *)
Lemma row_labelled (d : R) (point : Z -> Point) (r : R)
  (body : Z -> outcome (list Point)) :
  (forall k k', k <> k' -> (0 <= k)%Z -> (0 <= k')%Z -> farApart d (point k) (point k')) ->
  (forall k, (0 <= k)%Z -> body k = Returns [point k] \/ body k = Returns []) ->
  exists l, for_lt (Fin r) body = Returns l /\ spaced d l /\
            Forall (fun a => exists k, (0 <= k)%Z /\ a = point k) l.
Proof.
  intros Hfar Hbody.
  destruct (for_lt_labelled (farApart d) (fun k a => (0 <= k)%Z /\ a = point k) r body)
    as (l & E & Hl & HP).
  - intros k k' a b Hne (Hk & ->) (Hk' & ->); now apply Hfar.
  - intros k Hk; destruct (Hbody k Hk) as [-> | ->]; eexists; split; try reflexivity;
      split; repeat constructor; assumption.
  - exists l; split; [exact E|]; split; [exact Hl|].
    eapply Forall_impl; [|exact HP]; intros a (k & _ & Hk & ->); now exists k.
Qed.

Lemma sqrt13_bounds : 3 < sqrt 13 < 4.
Proof.
  split.
  - assert (sqrt (3 * 3) < sqrt 13) as H by (apply sqrt_lt_1; lra).
    rewrite sqrt_square in H by lra; exact H.
  - assert (sqrt 13 < sqrt (4 * 4)) as H by (apply sqrt_lt_1; lra).
    rewrite sqrt_square in H by lra; exact H.
Qed.

(** Points of a square lattice of pitch [s]. *)
Lemma lattice_far (s x0 y0 : R) (row col row' col' : Z) :
  0 < s -> (row, col) <> (row', col') ->
  farApart s (mkPoint (Fin (x0 + IZR col * s)) (Fin (y0 + IZR row * s)))
             (mkPoint (Fin (x0 + IZR col' * s)) (Fin (y0 + IZR row' * s))).
Proof.
  intros Hs Hne; eexists _, _, _, _; split; [reflexivity|]; split; [reflexivity|].
  unfold distR; apply far_enough; [lra|].
  replace (x0 + IZR col * s - (x0 + IZR col' * s)) with ((IZR col - IZR col') * s) by ring.
  replace (y0 + IZR row * s - (y0 + IZR row' * s)) with ((IZR row - IZR row') * s) by ring.
  apply scaled_far; [exact Hs|].
  pose proof (Rle_0_sqr (IZR col - IZR col')) as Hc; unfold Rsqr in Hc.
  pose proof (Rle_0_sqr (IZR row - IZR row')) as Hr; unfold Rsqr in Hr.
  destruct (Z.eq_dec row row') as [->|Hrow].
  - assert (col <> col') as Hcol by congruence.
    pose proof (IZR_apart col col' Hcol); lra.
  - pose proof (IZR_apart row row' Hrow); lra.
Qed.

(** Points of rows of pitch [s * sqrt 3 / 2], every row centred by itself:
    a row of [c] points, shifted by half a spacing when its index is odd,
    starts at [k - ((c - 1) * s + offset) / 2].  The number of points of a
    row is an integer that depends on the parity of the row only. *)
Lemma staggered_far (s k y0 : R) (c : Z -> Z) (row col row' col' : Z) :
  0 < s -> (row, col) <> (row', col') -> (0 <= row)%Z -> (0 <= row')%Z ->
  (forall r r', Z.rem r 2 = Z.rem r' 2 -> c r = c r') ->
  let x := fun r j =>
    k - ((IZR (c r) - 1) * s + IZR (Z.rem r 2) * (s / 2)) / 2
    + IZR j * s + IZR (Z.rem r 2) * (s / 2) in
  let y := fun r => y0 + IZR r * (s * sqrt 3 / 2) in
  farApart (sqrt 13 / 4 * s) (mkPoint (Fin (x row col)) (Fin (y row)))
                             (mkPoint (Fin (x row' col')) (Fin (y row'))).
Proof.
  intros Hs Hne H0 H0' Hc x y; eexists _, _, _, _; split; [reflexivity|];
    split; [reflexivity|].
  pose proof sqrt13_bounds as H13.
  assert (sqrt 13 * sqrt 13 = 13) as E13 by (apply sqrt_sqrt; lra).
  assert (sqrt 3 * sqrt 3 = 3) as E3 by (apply sqrt_sqrt; lra).
  unfold distR; apply far_enough; [nra|].
  replace (sqrt 13 / 4 * s * (sqrt 13 / 4 * s)) with (sqrt 13 * sqrt 13 / 16 * (s * s))
    by field.
  rewrite E13.
  set (dr := IZR row - IZR row').
  set (z := (4 * (col - col') - 2 * (c row - c row') + (Z.rem row 2 - Z.rem row' 2))%Z).
  replace (x row col - x row' col') with (IZR z / 4 * s)
    by (unfold x, z;
        repeat first [rewrite plus_IZR | rewrite minus_IZR | rewrite mult_IZR]; field).
  replace (y row - y row') with (dr * (sqrt 3 / 2) * s) by (unfold y, dr; field).
  replace (IZR z / 4 * s * (IZR z / 4 * s) + dr * (sqrt 3 / 2) * s * (dr * (sqrt 3 / 2) * s))
    with ((IZR z * IZR z / 16 + dr * dr * (sqrt 3 * sqrt 3 / 4)) * (s * s)) by field.
  rewrite E3.
  assert (0 < s * s) as Hss by nra.
  apply Rmult_le_compat_r; [lra|].
  pose proof (Rle_0_sqr (IZR z)) as Hz2; unfold Rsqr in Hz2.
  pose proof (Rle_0_sqr dr) as Hdr2; unfold Rsqr in Hdr2.
  destruct (Z.eq_dec (Z.rem row 2) (Z.rem row' 2)) as [Hrem|Hrem].
  - assert (z = 4 * (col - col'))%Z as Ez by (unfold z; rewrite (Hc _ _ Hrem), Hrem; lia).
    destruct (Z.eq_dec row row') as [Hrow|Hrow].
    + assert (col <> col') as Hcol by congruence.
      assert (16 <= IZR z * IZR z); [|lra].
      rewrite Ez, mult_IZR, minus_IZR.
      pose proof (IZR_apart col col' Hcol); nra.
    + pose proof (rem2_same row row' H0 H0' Hrow Hrem); unfold dr; lra.
  - assert (row <> row') as Hrow by congruence.
    pose proof (IZR_apart row row' Hrow) as Hdr; fold dr in Hdr.
    assert (z <> 0)%Z as Hz.
    { unfold z; destruct (rem2_cases row H0) as [E|E], (rem2_cases row' H0') as [E'|E'];
        rewrite E, E' in *; try congruence; lia. }
    pose proof (IZR_apart z 0 Hz) as Hz1; rewrite Rminus_0_r in Hz1.
    lra.
Qed.

Lemma for_lt_spaced (d : R) (P : Z -> Point -> Prop) (r : R)
  (body : Z -> outcome (list Point)) :
  (forall k k' a b, k <> k' -> P k a -> P k' b -> farApart d a b) ->
  (forall k, (0 <= k)%Z ->
     exists lk, body k = Returns lk /\ ForallOrdPairs (farApart d) lk /\ Forall (P k) lk) ->
  exists l, for_lt (Fin r) body = Returns l /\ spaced d l.
Proof.
  intros Hcross Hbody.
  destruct (for_lt_labelled (farApart d) P r body Hcross Hbody) as (l & E & Hl & _).
  now exists l.
Qed.

Lemma for_lt_row (d : R) (point : Z -> Point) (Q : Point -> Prop) (r : R)
  (body : Z -> outcome (list Point)) :
  (forall k k', k <> k' -> (0 <= k)%Z -> (0 <= k')%Z -> farApart d (point k) (point k')) ->
  (forall k, (0 <= k)%Z -> body k = Returns [point k] \/ body k = Returns []) ->
  (forall k, (0 <= k)%Z -> Q (point k)) ->
  exists lk, for_lt (Fin r) body = Returns lk /\
             ForallOrdPairs (farApart d) lk /\ Forall Q lk.
Proof.
  intros Hfar Hbody HQ.
  destruct (row_labelled d point r body Hfar Hbody) as (l & E & Hl & HP).
  exists l; split; [exact E|]; split; [exact Hl|].
  eapply Forall_impl; [|exact HP]; intros a (k & Hk & ->); now apply HQ.
Qed.

Lemma nothing_labelled (d : R) (Q : Point -> Prop) :
  exists lk, Returns (@nil Point) = Returns lk /\
             ForallOrdPairs (farApart d) lk /\ Forall Q lk.
Proof. exists []; repeat split; constructor. Qed.

Lemma generateGridInHorizontalStrip_spaced
  (w sh s top bottom : R) (method : string) (value : num) :
  0 < s ->
  exists l,
    PlantPlacer.generateGridInHorizontalStrip w sh s top bottom method value = Returns l /\
    spaced s l.
Proof.
  intros Hs; unfold PlantPlacer.generateGridInHorizontalStrip; cbv zeta.
  strip_simpl.
  destruct (limitRows_fin method value (IZR (floorZ (sh / s)))) as [m ->].
  set (c := IZR (floorZ (w / s))).
  set (x0 := - w / 2 + (w - (c - 1) * s) / 2).
  set (y0 := top + (sh - (m - 1) * s) / 2).
  apply (for_lt_spaced s (fun row a =>
           exists col, a = mkPoint (Fin (x0 + IZR col * s)) (Fin (y0 + IZR row * s)))).
  - intros row row' a b Hne (col & ->) (col' & ->); apply lattice_far; [exact Hs | congruence].
  - intros row Hrow; strip_simpl.
    match goal with |- context [if ?c then _ else _] => destruct c end;
      [|apply nothing_labelled].
    apply (for_lt_row s (fun col =>
             mkPoint (Fin (x0 + IZR col * s)) (Fin (y0 + IZR row * s)))).
    + intros col col' Hne _ _; apply lattice_far; [exact Hs | congruence].
    + intros col _; left; strip_simpl; unfold push.
      do 2 f_equal; f_equal; unfold x0, y0, c; ring.
    + intros col _; now exists col.
Qed.

Lemma generateGridInVerticalStrip_spaced
  (sw h s left right : R) (method : string) (value : num) :
  0 < s ->
  exists l,
    PlantPlacer.generateGridInVerticalStrip sw h s left right method value = Returns l /\
    spaced s l.
Proof.
  intros Hs; unfold PlantPlacer.generateGridInVerticalStrip; cbv zeta.
  strip_simpl.
  destruct (limitRows_fin method value (IZR (floorZ (sw / s)))) as [m ->].
  strip_simpl.
  set (r := IZR (floorZ (h / s))).
  set (x0 := left + (sw - (m - 1) * s) / 2).
  set (y0 := - h / 2 + (h - (r - 1) * s) / 2).
  apply (for_lt_spaced s (fun col a =>
           exists row, a = mkPoint (Fin (x0 + IZR col * s)) (Fin (y0 + IZR row * s)))).
  - intros col col' a b Hne (row & ->) (row' & ->); apply lattice_far; [exact Hs | congruence].
  - intros col Hcol; strip_simpl.
    match goal with |- context [if ?c then _ else _] => destruct c end;
      [|apply nothing_labelled].
    apply (for_lt_row s (fun row =>
             mkPoint (Fin (x0 + IZR col * s)) (Fin (y0 + IZR row * s)))).
    + intros row row' Hne _ _; apply lattice_far; [exact Hs | congruence].
    + intros row _; left; strip_simpl; unfold push.
      do 2 f_equal; f_equal; unfold x0, y0, r; ring.
    + intros row _; now exists row.
Qed.

Lemma generateHexInHorizontalStrip_spaced
  (w sh s top bottom : R) (method : string) (value : num) :
  0 < s ->
  exists l,
    PlantPlacer.generateHexInHorizontalStrip w sh s top bottom method value = Returns l /\
    spaced (sqrt 13 / 4 * s) l.
Proof.
  intros Hs; unfold PlantPlacer.generateHexInHorizontalStrip; cbv zeta.
  strip_simpl.
  destruct (limitRows_fin method value (IZR (floorZ (sh / (s * sqrt 3 / 2))))) as [m ->].
  set (c := fun r : Z => floorZ ((w + - (IZR (Z.rem r 2) * (s / 2))) / s)).
  set (y0 := top + (sh - (m - 1) * (s * sqrt 3 / 2)) / 2).
  set (x := fun (r j : Z) =>
              0 - ((IZR (c r) - 1) * s + IZR (Z.rem r 2) * (s / 2)) / 2
              + IZR j * s + IZR (Z.rem r 2) * (s / 2)).
  set (y := fun r : Z => y0 + IZR r * (s * sqrt 3 / 2)).
  assert (forall r r', Z.rem r 2 = Z.rem r' 2 -> c r = c r') as Hc
    by (intros r r' E; unfold c; now rewrite E).
  apply (for_lt_spaced (sqrt 13 / 4 * s) (fun row a =>
           (0 <= row)%Z /\ exists col, a = mkPoint (Fin (x row col)) (Fin (y row)))).
  - intros row row' a b Hne (H0 & col & ->) (H0' & col' & ->).
    apply (staggered_far s 0 y0 c); try assumption; congruence.
  - intros row Hrow; strip_simpl.
    match goal with |- context [if ?c then _ else _] => destruct c end;
      [|apply nothing_labelled].
    apply (for_lt_row (sqrt 13 / 4 * s) (fun col =>
             mkPoint (Fin (x row col)) (Fin (y row)))).
    + intros col col' Hne _ _.
      apply (staggered_far s 0 y0 c); try assumption; congruence.
    + intros col _; left; strip_simpl; unfold push.
      apply f_equal, f_equal2; [|reflexivity].
      apply f_equal2; apply (f_equal Fin); unfold x, y, y0, c; cbv beta; lra.
    + intros col _; split; [exact Hrow | now exists col].
Qed.

Lemma generateHexInVerticalStrip_spaced
  (sw h s left right : R) (value : num) :
  0 < s ->
  exists l,
    PlantPlacer.generateHexInVerticalStrip sw h s left right "auto" value = Returns l /\
    spaced (sqrt 13 / 4 * s) l.
Proof.
  intros Hs; pose proof sqrt3_bounds as H3.
  unfold PlantPlacer.generateHexInVerticalStrip; cbv zeta.
  method_simpl; cbn [andb].
  hex_simpl.
  set (rows := IZR (floorZ (h / (s * sqrt 3 / 2)))).
  set (c := fun r : Z => floorZ ((sw + - (IZR (Z.rem r 2) * (s / 2))) / s)).
  set (y0 := - h / 2 + (h - (rows - 1) * (s * sqrt 3 / 2)) / 2).
  set (x := fun (r j : Z) =>
              left + sw / 2 - ((IZR (c r) - 1) * s + IZR (Z.rem r 2) * (s / 2)) / 2
              + IZR j * s + IZR (Z.rem r 2) * (s / 2)).
  set (y := fun r : Z => y0 + IZR r * (s * sqrt 3 / 2)).
  assert (forall r r', Z.rem r 2 = Z.rem r' 2 -> c r = c r') as Hc
    by (intros r r' E; unfold c; now rewrite E).
  apply (for_lt_spaced (sqrt 13 / 4 * s) (fun row a =>
           (0 <= row)%Z /\ exists col, a = mkPoint (Fin (x row col)) (Fin (y row)))).
  - intros row row' a b Hne (H0 & col & ->) (H0' & col' & ->).
    apply (staggered_far s (left + sw / 2) y0 c); try assumption; congruence.
  - intros row Hrow; strip_simpl.
    apply (for_lt_row (sqrt 13 / 4 * s) (fun col =>
             mkPoint (Fin (x row col)) (Fin (y row)))).
    + intros col col' Hne _ _.
      apply (staggered_far s (left + sw / 2) y0 c); try assumption; congruence.
    + intros col _; strip_simpl.
      match goal with |- context [if ?c then _ else _] => destruct c end;
        [left | now right].
      unfold push; apply f_equal, f_equal2; [|reflexivity].
      apply f_equal2; apply (f_equal Fin); unfold x, y, y0, c, rows; cbv beta; lra.
    + intros col _; split; [exact Hrow | now exists col].
Qed.

Lemma spaced_morePlants (d : R) (grid hex : outcome (list Point)) :
  (exists l, grid = Returns l /\ spaced d l) ->
  (exists l, hex = Returns l /\ spaced d l) ->
  exists l,
    (gridPositions <- grid ;; hexPositions <- hex ;;
     Returns (PlantPlacer.morePlants gridPositions hexPositions)) = Returns l /\
    spaced d l.
Proof.
  intros (g & -> & Hg) (x & -> & Hx); cbn [bind]; eexists; split; [reflexivity|].
  unfold PlantPlacer.morePlants; now destruct (_ <? _)%nat.
Qed.

Lemma sqrt13_tight : 3.6 < sqrt 13.
Proof.
  assert (sqrt (3.6 * 3.6) < sqrt 13) as H by (apply sqrt_lt_1; lra).
  rewrite sqrt_square in H by lra; exact H.
Qed.

Lemma spaced_slack (c d s : R) (run : outcome (list Point)) :
  c * s <= d ->
  (exists l, run = Returns l /\ spaced d l) ->
  exists l, run = Returns l /\ spaced (c * s) l.
Proof.
  intros Hc (l & E & Hl); exists l; split; [exact E|].
  now apply (spaced_weaken _ d).
Qed.

(** X26. In region mode on a rectangular bed, for spacing > 0 and whatever
    the bounds of the region, any two positions that [placeInRegion] gives a
    group are at least nine tenths of the spacing apart.  The grid
    generators of a strip keep 0.999 spacing, whatever the strip, the
    method and the value (over the real numbers the full spacing, which is
    the distance between neighbours); the hexagonal generators centre every
    row by itself, which brings plants of neighbouring rows closer than one
    spacing, to sqrt(13)/4 (about 0.9014) of it, and so keeps nine tenths
    of the spacing (for a vertical strip: with the method auto, which is
    how region mode calls it). *)
Theorem X26_region_mode_keeps_most_of_the_spacing
  (width height spacing a b : R) (radius : num) (isHorizontal : bool)
  (extent lo hi : R) (method : string) (value : num) :
  0 < spacing ->
  (exists positions,
     PlantPlacer.placeInRegion width height spacing false radius isHorizontal
       (mkBounds (Fin a) (Fin b)) = Returns positions /\
     spaced (0.9 * spacing) positions) /\
  (exists positions,
     PlantPlacer.generateGridInHorizontalStrip width extent spacing lo hi method value
     = Returns positions /\ spaced (0.999 * spacing) positions) /\
  (exists positions,
     PlantPlacer.generateGridInVerticalStrip extent height spacing lo hi method value
     = Returns positions /\ spaced (0.999 * spacing) positions) /\
  (exists positions,
     PlantPlacer.generateHexInHorizontalStrip width extent spacing lo hi method value
     = Returns positions /\ spaced (0.9 * spacing) positions) /\
  (exists positions,
     PlantPlacer.generateHexInVerticalStrip extent height spacing lo hi "auto" value
     = Returns positions /\ spaced (0.9 * spacing) positions).
Proof.
  intros Hs.
  pose proof sqrt13_bounds as H13; pose proof sqrt13_tight as H13'.
  assert (sqrt 13 / 4 * spacing <= spacing) as Hd by nra.
  assert (0.9 * spacing <= sqrt 13 / 4 * spacing) as Hd' by nra.
  split; [|split; [|split; [|split]]].
  - apply (spaced_slack _ _ _ _ Hd').
    unfold PlantPlacer.placeInRegion; destruct isHorizontal.
    + unfold PlantPlacer.placeInHorizontalRegion; cbn [b_start b_end]; num_simpl.
      apply spaced_morePlants.
      * destruct (generateGridInHorizontalStrip_spaced width (height * (b + - a)) spacing
                    (- height / 2 + a * height)
                    (- height / 2 + a * height + height * (b + - a)) "auto" 0 Hs)
          as (l & E & Hl).
        exists l; split; [exact E | now apply (spaced_weaken _ spacing)].
      * now apply generateHexInHorizontalStrip_spaced.
    + unfold PlantPlacer.placeInVerticalRegion; cbn [b_start b_end]; num_simpl.
      apply spaced_morePlants.
      * destruct (generateGridInVerticalStrip_spaced (width * (b + - a)) height spacing
                    (- width / 2 + a * width)
                    (- width / 2 + a * width + width * (b + - a)) "auto" 0 Hs)
          as (l & E & Hl).
        exists l; split; [exact E | now apply (spaced_weaken _ spacing)].
      * now apply generateHexInVerticalStrip_spaced.
  - apply (spaced_slack 0.999 spacing); [lra|].
    now apply generateGridInHorizontalStrip_spaced.
  - apply (spaced_slack 0.999 spacing); [lra|].
    now apply generateGridInVerticalStrip_spaced.
  - apply (spaced_slack _ _ _ _ Hd'). now apply generateHexInHorizontalStrip_spaced.
  - apply (spaced_slack _ _ _ _ Hd'). now apply generateHexInVerticalStrip_spaced.
Qed.

Lemma X26_witness :
  exists positions,
    PlantPlacer.placeInRegion 44 32 12 false 0 true (mkBounds (Fin 0) (Fin 1))
    = Returns positions /\
    spaced (0.9 * 12) positions.
Proof.
  apply (X26_region_mode_keeps_most_of_the_spacing 44 32 12 0 1 0 true 0 0 0 "auto" 0).
  lra.
Defined.
